(** * Proposols_MCP: knowledge retrieval, embedding queue and validation handlers

    A shallow embedding of
    - the hybrid search functions of [proposal_mcp_schema.sql]
      ([search_experience], [search_internal_resources]) and the views
      [active_validations] and [pending_reviews],
    - the [process-embeddings] edge function (the queue drain loop),
    - the [validation-response] edge function (form GET/POST handler),
    - the [validation-webhook] edge function (Teams adaptive card handler),
    together with the properties the specification states about them and
    further properties of the code: what a drain writes, what a response
    writes, and how created entries reach the review queue.

    Conventions.  UUIDs and timestamps are integers ([Z]).  SQL [NULL] is
    [None]; a JSON property read as text is missing, [null] or a string
    where the code tells these apart, and [None] or a string where it does
    not.  A text is the bytes of its UTF-8 encoding.  SQL numerics and
    floats are exact rationals ([Q]): comparisons are the ones the code
    makes, rounding of the stored representation is not modelled; the
    types of the columns a function returns are kept, since PL/pgSQL checks
    them.  A table is the list of its rows in scan order. *)

From Stdlib Require Import ZArith QArith List String Ascii Bool Lia.
From Stdlib Require Import Sorting.Sorted Sorting.Permutation.
From stdpp Require Import base option list strings pretty gmap.
Import ListNotations.

Local Open Scope string_scope.
Local Open Scope list_scope.
Local Open Scope Z_scope.

Definition uuid := Z.
Definition timestamptz := Z.

(** ** SQL operators used by the search functions *)
Module Sql.

(** What a query hands back: its rows, or the error it raised. *)
Inductive query_result (A : Type) : Type :=
| Rows (rows : list A)
| Raise (msg : string).
Arguments Rows {A} rows.
Arguments Raise {A} msg.

(** [COALESCE(a, b)] on nullable values, and with a non-null last
    argument. *)
Definition coalesce {A : Type} (a b : option A) : option A :=
  match a with
  | Some _ => a
  | None => b
  end.

Definition coalesce_lit {A : Type} (a : option A) (lit : A) : A :=
  match a with
  | Some v => v
  | None => lit
  end.

Definition Qlt_bool (x y : Q) : bool := negb (Qle_bool y x).

Section OrderBy.
Context {A : Type}.
(** [ahead y x]: the sort key puts [y] strictly ahead of [x]. *)
Variable ahead : A -> A -> bool.

Fixpoint place (x : A) (sorted : list A) : list A :=
  match sorted with
  | [] => [x]
  | y :: rest => if ahead y x then y :: place x rest else x :: y :: rest
  end.

(** [ORDER BY]: rows with equal keys keep the order they arrive in (SQL
    leaves their order open; this definition fixes one). *)
Definition order_by (rows : list A) : list A :=
  fold_right place [] rows.

(** [x] may stand before [y]: [y] is not strictly ahead of [x]. *)
Definition not_behind (x y : A) : Prop := ahead y x = false.
End OrderBy.

(** [ROW_NUMBER() OVER (ORDER BY ...)] over rows already in window order:
    1, 2, 3, ... *)
Fixpoint number_from {A : Type} (k : Z) (rows : list A) : list (A * Z) :=
  match rows with
  | [] => []
  | r :: rest => (r, k) :: number_from (k + 1) rest
  end.

Definition row_number {A : Type} (rows : list A) : list (A * Z) :=
  number_from 1 rows.

(** [l FULL OUTER JOIN r ON on]: every pair that satisfies [on]; a left
    row without partner once, null-extended; then every right row without
    partner, null-extended. *)
Definition full_outer_join {A B : Type} (on : A -> B -> bool)
    (l : list A) (r : list B) : list (option A * option B) :=
  flat_map (fun a =>
              match List.filter (on a) r with
              | [] => [(Some a, None)]
              | partners => List.map (fun b => (Some a, Some b)) partners
              end) l
  ++ flat_map (fun b =>
                 if existsb (fun a => on a b) l then []
                 else [(None, Some b)]) r.

(** [LIMIT n]: PostgreSQL raises on a negative count. *)
Definition limit {A : Type} (n : Z) (rows : list A) : query_result A :=
  if n <? 0 then Raise "LIMIT must not be negative"
  else Rows (firstn (Z.to_nat n) rows).

(** *** Column types and [RETURN QUERY]

    The types that the columns of the two search functions have. *)
Inductive sql_type : Type :=
| UUID | TEXT | TEXT_ARRAY | TIMESTAMPTZ | ENUM (name : string)
| INT4 | INT8 | NUMERIC | FLOAT4 | FLOAT8.

Definition sql_type_eqb (a b : sql_type) : bool :=
  match a, b with
  | UUID, UUID | TEXT, TEXT | TEXT_ARRAY, TEXT_ARRAY | TIMESTAMPTZ, TIMESTAMPTZ
  | INT4, INT4 | INT8, INT8 | NUMERIC, NUMERIC | FLOAT4, FLOAT4
  | FLOAT8, FLOAT8 => true
  | ENUM n, ENUM m => String.eqb n m
  | _, _ => false
  end.

(** The numeric types in the order of PostgreSQL's implicit casts:
    [integer], [bigint], [numeric], [real], [double precision]. *)
Definition numeric_width (t : sql_type) : option nat :=
  match t with
  | INT4 => Some 0%nat
  | INT8 => Some 1%nat
  | NUMERIC => Some 2%nat
  | FLOAT4 => Some 3%nat
  | FLOAT8 => Some 4%nat
  | _ => None
  end.

(** The type both operands of an arithmetic operator, or both arguments of
    [COALESCE], are brought to: of two numeric types the one the other is
    cast to implicitly; otherwise the type of the first. *)
Definition common_type (a b : sql_type) : sql_type :=
  match numeric_width a, numeric_width b with
  | Some wa, Some wb => if (wa <? wb)%nat then b else a
  | _, _ => a
  end.

(** The types of the literals and functions in the SELECT lists: [1],
    [60] are [integer]; [1.0], [0.0] are [numeric]; [<=>] gives
    [double precision], [ts_rank] gives [real], [ROW_NUMBER()] gives
    [bigint]. *)
Definition integer_literal : sql_type := INT4.
Definition decimal_literal : sql_type := NUMERIC.
Definition cosine_distance_type : sql_type := FLOAT8.
Definition ts_rank_type : sql_type := FLOAT4.
Definition row_number_type : sql_type := INT8.

(** [1 - (embedding <=> query_embedding)] *)
Definition semantic_similarity_type : sql_type :=
  common_type integer_literal cosine_distance_type.

(** [COALESCE(ss.similarity, 0.0) + COALESCE(fts.similarity, 0.0)] *)
Definition similarity_type : sql_type :=
  common_type (common_type semantic_similarity_type decimal_literal)
    (common_type ts_rank_type decimal_literal).

(** [COALESCE(1.0 / (60 + ss.rank), 0.0) + COALESCE(1.0 / (60 + fts.rank), 0.0)] *)
Definition reciprocal_type : sql_type :=
  common_type
    (common_type decimal_literal (common_type integer_literal row_number_type))
    decimal_literal.

Definition rrf_type : sql_type := common_type reciprocal_type reciprocal_type.

(** SQLSTATE 42804, raised by PL/pgSQL. *)
Definition datatype_mismatch : string :=
  "structure of query does not match function result type".

(** [RETURN QUERY]: the rows of the query, when the types of its columns
    are those of the function's [RETURNS TABLE]; PL/pgSQL does not cast,
    and raises otherwise, whatever the rows are. *)
Definition return_query {A : Type} (returns columns : list sql_type)
    (query : query_result A) : query_result A :=
  if forallb (fun '(r, c) => sql_type_eqb r c) (combine returns columns)
     && (List.length returns =? List.length columns)%nat
  then query
  else Raise datatype_mismatch.

(** The Reciprocal Rank Fusion expression of both search functions:
    [COALESCE(1.0 / (60 + ss.rank), 0.0) + COALESCE(1.0 / (60 + fts.rank), 0.0)],
    where a rank is [NULL] on the null-extended side of the join. *)
Definition reciprocal (rank : option Z) : option Q :=
  match rank with
  | Some k => Some (1 / (60 + inject_Z k))%Q
  | None => None
  end.

Definition rrf (ss_rank fts_rank : option Z) : Q :=
  (coalesce_lit (reciprocal ss_rank) 0 + coalesce_lit (reciprocal fts_rank) 0)%Q.

(** *** The [experience] table and [search_experience]

    pgvector's [<=>] and PostgreSQL's text search are taken as given:
    [cosine_distance] is [<=>], [ts_match] is [@@]. *)
Section HybridSearch.
Context {halfvec tsvector tsquery : Type}.
Variable cosine_distance : halfvec -> halfvec -> Q.
Variable websearch_to_tsquery : string -> tsquery.
Variable ts_rank : tsvector -> tsquery -> Q.
Variable ts_match : tsvector -> tsquery -> bool.

(** The columns of [experience] that the search reads. *)
Record experience : Type := {
  e_id : uuid;
  e_description : string;
  e_keywords : option (list string);
  e_entity_type : option string;
  e_entity_id : option uuid;
  e_entity_name : option string;
  e_confidence_score : option Q;
  e_created_at : option timestamptz;
  e_search_vector : tsvector;
  e_embedding : option halfvec;
  e_is_validated : option bool
}.

(** A row of either CTE ([semantic_search] or [fulltext_search]). *)
Record experience_hit : Type := {
  h_id : uuid;
  h_description : string;
  h_keywords : option (list string);
  h_entity_type : option string;
  h_entity_id : option uuid;
  h_entity_name : option string;
  h_confidence_score : option Q;
  h_created_at : option timestamptz;
  h_similarity : Q;
  h_rank : Z
}.

(** A row of the function's result table. *)
Record experience_match : Type := {
  m_id : option uuid;
  m_description : option string;
  m_keywords : option (list string);
  m_entity_type : option string;
  m_entity_id : option uuid;
  m_entity_name : option string;
  m_confidence_score : option Q;
  m_created_at : option timestamptz;
  m_similarity : Q;
  m_rank : Q
}.

(** [e.is_validated = TRUE] *)
Definition validated (e : experience) : bool :=
  match e_is_validated e with
  | Some b => b
  | None => false
  end.

(** [(p_entity_type IS NULL OR e.entity_type = p_entity_type)] *)
Definition entity_type_ok (p_entity_type : option string) (e : experience) : bool :=
  match p_entity_type with
  | None => true
  | Some wanted =>
      match e_entity_type e with
      | Some t => String.eqb t wanted
      | None => false
      end
  end.

Definition hit_of (e : experience) (similarity : Q) (rank : Z) : experience_hit :=
  {| h_id := e_id e;
     h_description := e_description e;
     h_keywords := e_keywords e;
     h_entity_type := e_entity_type e;
     h_entity_id := e_entity_id e;
     h_entity_name := e_entity_name e;
     h_confidence_score := e_confidence_score e;
     h_created_at := e_created_at e;
     h_similarity := similarity;
     h_rank := rank |}.

(** The rows the WHERE clause of [semantic_search] keeps, each with its
    distance to the query; a row without embedding has a [NULL] distance and
    is dropped. *)
Definition semantic_rows (tbl : list experience) (query_embedding : halfvec)
    (match_threshold : Q) (p_entity_type : option string) : list (experience * Q) :=
  flat_map (fun e =>
              match e_embedding e with
              | Some v =>
                  let d := cosine_distance v query_embedding in
                  if validated e && entity_type_ok p_entity_type e
                     && Qlt_bool match_threshold (1 - d)%Q
                  then [(e, d)] else []
              | None => []
              end) tbl.

Definition semantic_search (tbl : list experience) (query_embedding : halfvec)
    (match_threshold : Q) (p_entity_type : option string) : list experience_hit :=
  List.map (fun '((e, d), k) => hit_of e (1 - d)%Q k)
    (row_number
       (order_by (fun y x => Qlt_bool (snd y) (snd x))
          (semantic_rows tbl query_embedding match_threshold p_entity_type))).

Definition fulltext_rows (tbl : list experience) (query_text : string)
    (p_entity_type : option string) : list (experience * Q) :=
  flat_map (fun e =>
              if validated e && entity_type_ok p_entity_type e
                 && ts_match (e_search_vector e) (websearch_to_tsquery query_text)
              then [(e, ts_rank (e_search_vector e) (websearch_to_tsquery query_text))]
              else []) tbl.

Definition fulltext_search (tbl : list experience) (query_text : string)
    (p_entity_type : option string) : list experience_hit :=
  List.map (fun '((e, s), k) => hit_of e s k)
    (row_number
       (order_by (fun y x => Qlt_bool (snd x) (snd y))
          (fulltext_rows tbl query_text p_entity_type))).

(** The SELECT list over one row of the join. *)
Definition fuse (j : option experience_hit * option experience_hit) : experience_match :=
  let (ss, fts) := j in
  {| m_id := coalesce (h_id <$> ss) (h_id <$> fts);
     m_description := coalesce (h_description <$> ss) (h_description <$> fts);
     m_keywords := coalesce (ss ≫= h_keywords) (fts ≫= h_keywords);
     m_entity_type := coalesce (ss ≫= h_entity_type) (fts ≫= h_entity_type);
     m_entity_id := coalesce (ss ≫= h_entity_id) (fts ≫= h_entity_id);
     m_entity_name := coalesce (ss ≫= h_entity_name) (fts ≫= h_entity_name);
     m_confidence_score :=
       coalesce (ss ≫= h_confidence_score) (fts ≫= h_confidence_score);
     m_created_at := coalesce (ss ≫= h_created_at) (fts ≫= h_created_at);
     m_similarity :=
       (coalesce_lit (h_similarity <$> ss) 0 + coalesce_lit (h_similarity <$> fts) 0)%Q;
     m_rank := rrf (h_rank <$> ss) (h_rank <$> fts) |}.

(** The join of the two CTEs with the SELECT list applied, before ORDER BY. *)
Definition fused_experience (tbl : list experience) (query_text : string)
    (query_embedding : halfvec) (match_threshold : Q)
    (p_entity_type : option string) : list experience_match :=
  List.map fuse
    (full_outer_join (fun ss fts => h_id ss =? h_id fts)
       (semantic_search tbl query_embedding match_threshold p_entity_type)
       (fulltext_search tbl query_text p_entity_type)).

(** [ORDER BY rank DESC]: the fused score is the only sort key. *)
Definition by_rank_desc (y x : experience_match) : bool :=
  Qlt_bool (m_rank x) (m_rank y).

Definition ranked_experience (tbl : list experience) (query_text : string)
    (query_embedding : halfvec) (match_threshold : Q)
    (p_entity_type : option string) : list experience_match :=
  order_by by_rank_desc
    (fused_experience tbl query_text query_embedding match_threshold p_entity_type).

(** The query of the function body, with its [LIMIT]. *)
Definition search_experience_query (tbl : list experience) (query_text : string)
    (query_embedding : halfvec) (match_threshold : Q) (match_count : Z)
    (p_entity_type : option string) : query_result experience_match :=
  limit match_count
    (ranked_experience tbl query_text query_embedding match_threshold p_entity_type).

(** [RETURNS TABLE (id UUID, description TEXT, keywords TEXT[],
    entity_type TEXT, entity_id UUID, entity_name TEXT,
    confidence_score DECIMAL, created_at TIMESTAMPTZ, similarity FLOAT,
    rank FLOAT)] *)
Definition search_experience_returns : list sql_type :=
  [UUID; TEXT; TEXT_ARRAY; TEXT; UUID; TEXT; NUMERIC; TIMESTAMPTZ; FLOAT8; FLOAT8].

(** The types of the query's SELECT list: the first eight columns have
    the types of the table's columns. *)
Definition search_experience_columns : list sql_type :=
  [UUID; TEXT; TEXT_ARRAY; TEXT; UUID; TEXT; NUMERIC; TIMESTAMPTZ;
   similarity_type; rrf_type].

Definition search_experience (tbl : list experience) (query_text : string)
    (query_embedding : halfvec) (match_threshold : Q) (match_count : Z)
    (p_entity_type : option string) : query_result experience_match :=
  return_query search_experience_returns search_experience_columns
    (search_experience_query tbl query_text query_embedding match_threshold
       match_count p_entity_type).

(** *** The [internal_resources] table and [search_internal_resources] *)
Inductive resource_type : Type := staff | tool | asset | facility | license.

Record internal_resource : Type := {
  ir_id : uuid;
  ir_name : string;
  ir_resource_type : resource_type;
  ir_description : string;
  ir_search_vector : tsvector;
  ir_embedding : option halfvec;
  ir_is_active : option bool
}.

Record resource_hit : Type := {
  rh_id : uuid;
  rh_name : string;
  rh_resource_type : resource_type;
  rh_description : string;
  rh_similarity : Q;
  rh_rank : Z
}.

Record resource_match : Type := {
  rm_id : option uuid;
  rm_name : option string;
  rm_resource_type : option resource_type;
  rm_description : option string;
  rm_similarity : Q;
  rm_rank : Q
}.

(** [ir.is_active = true] *)
Definition active (ir : internal_resource) : bool :=
  match ir_is_active ir with
  | Some b => b
  | None => false
  end.

Definition resource_hit_of (ir : internal_resource) (similarity : Q) (rank : Z)
    : resource_hit :=
  {| rh_id := ir_id ir;
     rh_name := ir_name ir;
     rh_resource_type := ir_resource_type ir;
     rh_description := ir_description ir;
     rh_similarity := similarity;
     rh_rank := rank |}.

Definition resource_semantic_rows (tbl : list internal_resource)
    (query_embedding : halfvec) (match_threshold : Q) : list (internal_resource * Q) :=
  flat_map (fun ir =>
              match ir_embedding ir with
              | Some v =>
                  let d := cosine_distance v query_embedding in
                  if active ir && Qlt_bool match_threshold (1 - d)%Q
                  then [(ir, d)] else []
              | None => []
              end) tbl.

Definition resource_semantic_search (tbl : list internal_resource)
    (query_embedding : halfvec) (match_threshold : Q) : list resource_hit :=
  List.map (fun '((ir, d), k) => resource_hit_of ir (1 - d)%Q k)
    (row_number
       (order_by (fun y x => Qlt_bool (snd y) (snd x))
          (resource_semantic_rows tbl query_embedding match_threshold))).

Definition resource_fulltext_rows (tbl : list internal_resource)
    (query_text : string) : list (internal_resource * Q) :=
  flat_map (fun ir =>
              if active ir
                 && ts_match (ir_search_vector ir) (websearch_to_tsquery query_text)
              then [(ir, ts_rank (ir_search_vector ir) (websearch_to_tsquery query_text))]
              else []) tbl.

Definition resource_fulltext_search (tbl : list internal_resource)
    (query_text : string) : list resource_hit :=
  List.map (fun '((ir, s), k) => resource_hit_of ir s k)
    (row_number
       (order_by (fun y x => Qlt_bool (snd x) (snd y))
          (resource_fulltext_rows tbl query_text))).

Definition fuse_resource (j : option resource_hit * option resource_hit)
    : resource_match :=
  let (ss, fts) := j in
  {| rm_id := coalesce (rh_id <$> ss) (rh_id <$> fts);
     rm_name := coalesce (rh_name <$> ss) (rh_name <$> fts);
     rm_resource_type := coalesce (rh_resource_type <$> ss) (rh_resource_type <$> fts);
     rm_description := coalesce (rh_description <$> ss) (rh_description <$> fts);
     rm_similarity :=
       (coalesce_lit (rh_similarity <$> ss) 0 + coalesce_lit (rh_similarity <$> fts) 0)%Q;
     rm_rank := rrf (rh_rank <$> ss) (rh_rank <$> fts) |}.

Definition fused_resources (tbl : list internal_resource) (query_text : string)
    (query_embedding : halfvec) (match_threshold : Q) : list resource_match :=
  List.map fuse_resource
    (full_outer_join (fun ss fts => rh_id ss =? rh_id fts)
       (resource_semantic_search tbl query_embedding match_threshold)
       (resource_fulltext_search tbl query_text)).

Definition by_resource_rank_desc (y x : resource_match) : bool :=
  Qlt_bool (rm_rank x) (rm_rank y).

Definition ranked_resources (tbl : list internal_resource) (query_text : string)
    (query_embedding : halfvec) (match_threshold : Q) : list resource_match :=
  order_by by_resource_rank_desc
    (fused_resources tbl query_text query_embedding match_threshold).

Definition search_internal_resources_query (tbl : list internal_resource)
    (query_text : string) (query_embedding : halfvec) (match_threshold : Q)
    (match_count : Z) : query_result resource_match :=
  limit match_count
    (ranked_resources tbl query_text query_embedding match_threshold).

(** [RETURNS TABLE (id UUID, name TEXT, resource_type resource_type,
    description TEXT, similarity FLOAT, rank FLOAT)] *)
Definition search_internal_resources_returns : list sql_type :=
  [UUID; TEXT; ENUM "resource_type"; TEXT; FLOAT8; FLOAT8].

Definition search_internal_resources_columns : list sql_type :=
  [UUID; TEXT; ENUM "resource_type"; TEXT; similarity_type; rrf_type].

Definition search_internal_resources (tbl : list internal_resource)
    (query_text : string) (query_embedding : halfvec) (match_threshold : Q)
    (match_count : Z) : query_result resource_match :=
  return_query search_internal_resources_returns search_internal_resources_columns
    (search_internal_resources_query tbl query_text query_embedding
       match_threshold match_count).

End HybridSearch.

End Sql.

(** ** The Hybrid Ranker as the specification words it *)
Module RankerSpec.

(** The constant of the fusion. *)
Definition K : Z := 60.

(** What one branch adds to a record's score: [1/(K + rank)] where the
    record has a rank in the branch, nothing where it is absent. *)
Definition contribution (rank : option Z) : Q :=
  match rank with
  | Some r => (1 / inject_Z (K + r))%Q
  | None => 0%Q
  end.

Definition fused_score (vector_rank keyword_rank : option Z) : Q :=
  (contribution vector_rank + contribution keyword_rank)%Q.

Section Ranking.
Context {H M : Type}.
Variable hit_id : H -> uuid.
Variable hit_rank : H -> Z.
Variable id_of : M -> option uuid.
Variable score_of : M -> Q.

(** The rank of record [i] in a branch, if it is there. *)
Definition rank_branch (branch : list H) (i : uuid) : option Z :=
  hit_rank <$> List.find (fun h => hit_id h =? i) branch.

Definition sorted_desc (l : list M) : Prop :=
  StronglySorted (fun a b => (score_of b <= score_of a)%Q) l.

(** Records with equal scores come in the order of their ids. *)
Definition ties_by_id (l : list M) : Prop :=
  forall (i j : nat) (a b : M) (ia ib : uuid),
    (i < j)%nat -> nth_error l i = Some a -> nth_error l j = Some b ->
    (score_of a == score_of b)%Q ->
    id_of a = Some ia -> id_of b = Some ib -> ia <= ib.

(** The fusion: [ranked] holds each record of either branch once (outer
    join), scored by the formula and sorted by it; [results] is its first
    [limit] rows. *)
Definition fuses (vector_branch keyword_branch : list H) (ranked : list M)
    (limit : Z) (results : list M) : Prop :=
  (forall i, In i (List.map hit_id vector_branch)
             \/ In i (List.map hit_id keyword_branch)
             <-> In (Some i) (List.map id_of ranked))
  /\ List.NoDup (List.map id_of ranked)
  /\ (forall m, In m ranked ->
        exists i, id_of m = Some i
                  /\ (score_of m == fused_score (rank_branch vector_branch i)
                                      (rank_branch keyword_branch i))%Q)
  /\ sorted_desc ranked
  /\ results = firstn (Z.to_nat limit) ranked
  /\ (Z.of_nat (List.length results) <= limit).

End Ranking.

(** Each branch ranks its candidates on its own, rank 1 being the best. *)
Definition best_first {H : Type} (hit_rank : H -> Z) (hit_similarity : H -> Q)
    (branch : list H) : Prop :=
  List.map hit_rank branch
  = List.map (fun i => 1 + Z.of_nat i) (seq 0 (List.length branch))
  /\ StronglySorted (fun a b => (hit_similarity b <= hit_similarity a)%Q) branch.

End RankerSpec.

(** ** JavaScript helpers shared by the edge functions *)
Module Js.

(** What a piece of asynchronous code ends with: a value, or a thrown
    [Error] with its message. *)
Inductive completion (A : Type) : Type :=
| Returned (value : A)
| Thrown (message : string).
Arguments Returned {A} value.
Arguments Thrown {A} message.

(** Code that reads and writes a store [S] and may throw; writes made
    before a throw stay. *)
Definition task (S A : Type) : Type := S -> S * completion A.

#[global] Instance task_ret {S : Type} : MRet (task S) :=
  fun A a s => (s, Returned a).

#[global] Instance task_bind {S : Type} : MBind (task S) :=
  fun A B k c s =>
    match c s with
    | (s', Returned a) => k a s'
    | (s', Thrown m) => (s', Thrown m)
    end.

Definition throw {S A : Type} (message : string) : task S A :=
  fun s => (s, Thrown message).

Definition gets {S A : Type} (f : S -> A) : task S A := fun s => (s, Returned (f s)).

Definition modify {S : Type} (f : S -> S) : task S unit := fun s => (f s, Returned tt).

(** The answer of the embeddings endpoint to one [fetch]: a 2xx response
    with its vector, another status with its body, or a rejected promise. *)
Inductive fetch_result (vector : Type) : Type :=
| Ok200 (embedding : vector)
| NotOk (errorText : string)
| FetchError (message : string).
Arguments Ok200 {vector} embedding.
Arguments NotOk {vector} errorText.
Arguments FetchError {vector} message.

(** [.single()]: the row when exactly one row matches, otherwise no data. *)
Definition single {A : Type} (rows : list A) : option A :=
  match rows with
  | [r] => Some r
  | _ => None
  end.

(** [Boolean(v)] for a value that is a string, [null] or [undefined]. *)
Definition truthy (v : option string) : bool :=
  match v with
  | Some s => negb (String.eqb s "")
  | None => false
  end.

(** A property that a handler reads from a parsed JSON body and uses as
    text: missing ([undefined]), [null], or a string.  [JSON.stringify]
    leaves a key out whose value is [undefined] and writes [null] for
    [null]. *)
Inductive field : Type :=
| Missing
| Null
| Text (s : string).

(** [fields.filter(Boolean).join(' ')] *)
Definition join_truthy (fields : list (option string)) : string :=
  String.concat " " (omap (fun v => if truthy v then v else None) fields).

(** *** Text

    A text is held as the bytes of its UTF-8 encoding.  The white space of
    ECMAScript ([WhiteSpace] and [LineTerminator]: what [trim] strips and
    what [\s] matches) is U+0009 to U+000D, U+0020, U+00A0, U+1680, U+2000
    to U+200A, U+2028, U+2029, U+202F, U+205F, U+3000 and U+FEFF. *)
Definition byte (a : ascii) : N := N_of_ascii a.

(** U+00A0 is [C2 A0]. *)
Definition space2 (a b : ascii) : bool :=
  (byte a =? 0xC2)%N && (byte b =? 0xA0)%N.

(** U+1680 is [E1 9A 80]; U+2000 to U+200A are [E2 80 80] to [E2 80 8A];
    U+2028, U+2029 and U+202F are [E2 80 A8], [E2 80 A9] and [E2 80 AF];
    U+205F is [E2 81 9F]; U+3000 is [E3 80 80]; U+FEFF is [EF BB BF]. *)
Definition space3 (a b c : ascii) : bool :=
  ((byte a =? 0xE1) && (byte b =? 0x9A) && (byte c =? 0x80)
   || (byte a =? 0xE2) && (byte b =? 0x80)
      && ((0x80 <=? byte c) && (byte c <=? 0x8A)
          || (byte c =? 0xA8) || (byte c =? 0xA9) || (byte c =? 0xAF))
   || (byte a =? 0xE2) && (byte b =? 0x81) && (byte c =? 0x9F)
   || (byte a =? 0xE3) && (byte b =? 0x80) && (byte c =? 0x80)
   || (byte a =? 0xEF) && (byte b =? 0xBB) && (byte c =? 0xBF))%N.

(** The text with each white-space character told apart: [None] for a
    white-space character (of one, two or three bytes), [Some a] for any
    other byte. *)
Fixpoint scan (s : string) : list (option ascii) :=
  match s with
  | EmptyString => []
  | String a rest =>
      if Ascii.is_space a then None :: scan rest
      else
        match rest with
        | String b rest2 =>
            if space2 a b then None :: scan rest2
            else
              match rest2 with
              | String c rest3 =>
                  if space3 a b c then None :: scan rest3
                  else Some a :: scan rest
              | EmptyString => Some a :: scan rest
              end
        | EmptyString => Some a :: scan rest
        end
  end.

(** [s.trim() !== '']: some character is not white space. *)
Definition not_blank (s : string) : bool :=
  existsb (fun c => match c with Some _ => true | None => false end) (scan s).

(** [s.split(/\s+/)]: [cur] is the piece being read, reversed; [in_run]
    tells that the previous character was white space. *)
Fixpoint split_go (cur : string) (in_run : bool) (l : list (option ascii))
    : list string :=
  match l with
  | [] => [String.rev cur]
  | None :: rest =>
      if in_run then split_go cur true rest
      else String.rev cur :: split_go EmptyString true rest
  | Some a :: rest => split_go (String a cur) false rest
  end.

Definition split_whitespace (s : string) : list string :=
  split_go EmptyString false (scan s).

(** [s.length]: the number of UTF-16 code units.  A byte that starts a
    character of up to three bytes counts one, a byte that starts a
    character of four bytes counts two (a surrogate pair), a continuation
    byte counts nothing. *)
Definition code_units (a : ascii) : nat :=
  if (byte a <? 0x80)%N then 1
  else if (byte a <? 0xC0)%N then 0
  else if (byte a <? 0xF0)%N then 1
  else 2.

Fixpoint utf16_length (s : string) : nat :=
  match s with
  | EmptyString => 0
  | String a rest => code_units a + utf16_length rest
  end.

End Js.

(** ** The [process-embeddings] edge function *)
Module ProcessEmbeddings.
Import Js.

Inductive job_status : Type := pending | processing | completed | failed.

Definition job_status_eqb (a b : job_status) : bool :=
  match a, b with
  | pending, pending | processing, processing
  | completed, completed | failed, failed => true
  | _, _ => false
  end.

(** A row of [embedding_queue], with the columns the function reads and
    writes. *)
Record embedding_job : Type := {
  job_id : uuid;
  job_table_name : string;
  job_record_id : uuid;
  job_status_of : job_status;
  job_priority : Z;
  job_retry_count : option Z;
  job_error_message : option string;
  job_processed_at : option timestamptz
}.

Section Drain.
Context {vector : Type}.

(** A row of one of the content tables as [select('*')] returns it: its
    text columns that are not [NULL] by name, the [keywords] array where
    the table has one, and the embedding slot. *)
Record content_row : Type := {
  row_id : uuid;
  row_text : gmap string string;
  row_keywords : option (list string);
  row_embedding : option vector
}.

Record database : Type := {
  embedding_queue : list embedding_job;
  tables : gmap string (list content_row)
}.

(** The provider, and the clock read by [new Date()]. *)
Variable openai_embeddings : string -> fetch_result vector.
Variable now : timestamptz.

Definition update_jobs (id : uuid) (f : embedding_job -> embedding_job)
    (db : database) : database :=
  {| embedding_queue :=
       List.map (fun j => if job_id j =? id then f j else j) (embedding_queue db);
     tables := tables db |}.

(** [.update({ status: 'processing' }).eq('id', job.id)] *)
Definition mark_processing (id : uuid) : database -> database :=
  update_jobs id (fun j =>
    {| job_id := job_id j;
       job_table_name := job_table_name j;
       job_record_id := job_record_id j;
       job_status_of := processing;
       job_priority := job_priority j;
       job_retry_count := job_retry_count j;
       job_error_message := job_error_message j;
       job_processed_at := job_processed_at j |}).

(** [.update({ status: 'completed', processed_at }).eq('id', job.id)] *)
Definition mark_completed (id : uuid) : database -> database :=
  update_jobs id (fun j =>
    {| job_id := job_id j;
       job_table_name := job_table_name j;
       job_record_id := job_record_id j;
       job_status_of := completed;
       job_priority := job_priority j;
       job_retry_count := job_retry_count j;
       job_error_message := job_error_message j;
       job_processed_at := Some now |}).

(** [.update({ status: 'failed', error_message, retry_count }).eq('id', job.id)] *)
Definition mark_failed (id : uuid) (message : string) (retry_count : Z)
    : database -> database :=
  update_jobs id (fun j =>
    {| job_id := job_id j;
       job_table_name := job_table_name j;
       job_record_id := job_record_id j;
       job_status_of := failed;
       job_priority := job_priority j;
       job_retry_count := Some retry_count;
       job_error_message := Some message;
       job_processed_at := job_processed_at j |}).

(** [.from(table).select('*').eq('id', id).single()] *)
Definition select_record (table : string) (id : uuid) (db : database)
    : option content_row :=
  match tables db !! table with
  | Some rows => single (List.filter (fun r => row_id r =? id) rows)
  | None => None
  end.

(** [.from(table).update({ embedding }).eq('id', id)] *)
Definition update_embedding (table : string) (id : uuid) (embedding : vector)
    (db : database) : database :=
  {| embedding_queue := embedding_queue db;
     tables :=
       match tables db !! table with
       | Some rows =>
           <[table :=
               List.map (fun r =>
                           if row_id r =? id
                           then {| row_id := row_id r;
                                   row_text := row_text r;
                                   row_keywords := row_keywords r;
                                   row_embedding := Some embedding |}
                           else r) rows]> (tables db)
       | None => tables db
       end |}.

(** The text that is embedded, by table. *)
Definition record_text (table_name : string) (record : content_row) : string :=
  let col c := row_text record !! c in
  if String.eqb table_name "internal_resources" then
    join_truthy [col "name"; col "description"; col "rate_notes"]
  else if String.eqb table_name "external_resources" then
    join_truthy [col "vendor_name"; col "description"; col "pricing_notes"]
  else if String.eqb table_name "policies" then
    join_truthy [col "policy_name"; col "description"; col "requirements"]
  else if String.eqb table_name "experience" then
    join_truthy
      [col "description";
       Some (match row_keywords record with
             | Some ks => String.concat " " ks
             | None => ""
             end)]
  else if String.eqb table_name "rfps" then
    join_truthy [col "project_title"; col "client_name"; col "parsed_markdown"]
  else "".

(** The first statement of the [try] block. *)
Definition claim (job : embedding_job) : task database unit :=
  modify (mark_processing (job_id job)).

(** The rest of the [try] block. *)
Definition embed_record (job : embedding_job) : task database unit :=
  record ← gets (select_record (job_table_name job) (job_record_id job));
   match record with
   | None =>
       throw ("Record not found: " ++ job_table_name job ++ "."
              ++ pretty (job_record_id job))
   | Some record =>
       let text := record_text (job_table_name job) record in
       if String.eqb text "" then throw "No text content found for embedding"
       else
         match openai_embeddings text with
         | NotOk errorText => throw ("OpenAI API error: " ++ errorText)
         | FetchError message => throw message
         | Ok200 embedding =>
             modify (update_embedding (job_table_name job) (job_record_id job)
                       embedding);;
             modify (mark_completed (job_id job))
         end
   end.

(** The [catch] block: the retry count written is the one of the job as it
    was selected. *)
Definition on_error (job : embedding_job) (message : string)
    : database -> database :=
  mark_failed (job_id job) message
    (match job_retry_count job with
     | Some n => if n =? 0 then 0 else n
     | None => 0
     end + 1).

Inductive job_outcome : Type :=
| Processed
| Failed (message : string).

Definition settle (job : embedding_job) (r : database * completion unit)
    : database * job_outcome :=
  match r with
  | (db', Returned _) => (db', Processed)
  | (db', Thrown message) => (on_error job message db', Failed message)
  end.

(** One turn of the [for] loop. *)
Definition process_job (job : embedding_job) (db : database)
    : database * job_outcome :=
  settle job ((claim job;; embed_record job) db).

(** [.eq('status', 'pending').order('priority', { ascending: true }).limit(10)] *)
Definition select_pending (db : database) : list embedding_job :=
  firstn 10
    (Sql.order_by (fun y x => job_priority y <? job_priority x)
       (List.filter (fun j => job_status_eqb (job_status_of j) pending)
          (embedding_queue db))).

Record tally : Type := { processed : Z; failed_count : Z }.

Fixpoint run_jobs (jobs : list embedding_job) (db : database) (t : tally)
    : database * tally :=
  match jobs with
  | [] => (db, t)
  | job :: rest =>
      match process_job job db with
      | (db', Processed) =>
          run_jobs rest db'
            {| processed := processed t + 1; failed_count := failed_count t |}
      | (db', Failed _) =>
          run_jobs rest db'
            {| processed := processed t; failed_count := failed_count t + 1 |}
      end
  end.

(** The JSON body of the response. *)
Inductive drain_response : Type :=
| NoPendingJobs
| Drained (processed failed total : Z).

Definition serve (db : database) : database * drain_response :=
  match select_pending db with
  | [] => (db, NoPendingJobs)
  | jobs =>
      let (db', t) := run_jobs jobs db {| processed := 0; failed_count := 0 |} in
      (db', Drained (processed t) (failed_count t) (Z.of_nat (List.length jobs)))
  end.

(** *** Two invocations running at the same time

    Each invocation is cut at its awaits into three kinds of step: the
    select, the claim of the next job, and the rest of the loop turn. *)
Inductive invocation : Type := first_drain | second_drain.

Inductive action : Type :=
| Select (w : invocation)
| Claim (w : invocation)
| Finish (w : invocation).

Record locals : Type := {
  todo : option (list embedding_job);
  in_flight : option embedding_job
}.

Record system : Type := {
  store : database;
  local1 : locals;
  local2 : locals;
  trace : list (invocation * uuid * job_outcome)
}.

Definition local_of (w : invocation) (s : system) : locals :=
  match w with
  | first_drain => local1 s
  | second_drain => local2 s
  end.

Definition with_local (w : invocation) (l : locals) (db : database)
    (tr : list (invocation * uuid * job_outcome)) (s : system) : system :=
  match w with
  | first_drain => {| store := db; local1 := l; local2 := local2 s; trace := tr |}
  | second_drain => {| store := db; local1 := local1 s; local2 := l; trace := tr |}
  end.

Definition step (s : system) (a : action) : system :=
  match a with
  | Select w =>
      match todo (local_of w s) with
      | None =>
          with_local w {| todo := Some (select_pending (store s)); in_flight := None |}
            (store s) (trace s) s
      | Some _ => s
      end
  | Claim w =>
      match todo (local_of w s), in_flight (local_of w s) with
      | Some (job :: rest), None =>
          with_local w {| todo := Some rest; in_flight := Some job |}
            (fst (claim job (store s))) (trace s) s
      | _, _ => s
      end
  | Finish w =>
      match in_flight (local_of w s) with
      | Some job =>
          let (db', outcome) := settle job (embed_record job (store s)) in
          with_local w {| todo := todo (local_of w s); in_flight := None |}
            db' (trace s ++ [(w, job_id job, outcome)]) s
      | None => s
      end
  end.

Definition run (schedule : list action) (s : system) : system :=
  fold_left step schedule s.

Definition start (db : database) : system :=
  {| store := db;
     local1 := {| todo := None; in_flight := None |};
     local2 := {| todo := None; in_flight := None |};
     trace := [] |}.




(** [n] turns of the loop of one invocation. *)
Definition turns (w : invocation) (n : nat) : list action :=
  concat (repeat [Claim w; Finish w] n).

(** Both invocations select before either claims; then each runs its loop. *)
Definition overlapping_drains (n : nat) : list action :=
  Select first_drain :: Select second_drain
  :: turns first_drain n ++ turns second_drain n.

End Drain.

End ProcessEmbeddings.

(** ** The [validation_requests] table and the [active_validations] view *)
Module Validation.

(** The enum [validation_status]. *)
Inductive validation_status : Type :=
| pending | sent | approved | rejected | updated | expired.

Definition validation_status_eqb (a b : validation_status) : bool :=
  match a, b with
  | pending, pending | sent, sent | approved, approved
  | rejected, rejected | updated, updated | expired, expired => true
  | _, _ => false
  end.

(** Input conversion of the enum: a label that is not one of the six is an
    error; [null] stays [NULL]. *)
Definition validation_status_in (label : option string)
    : option (option validation_status) :=
  match label with
  | None => Some None
  | Some s =>
      if String.eqb s "pending" then Some (Some pending)
      else if String.eqb s "sent" then Some (Some sent)
      else if String.eqb s "approved" then Some (Some approved)
      else if String.eqb s "rejected" then Some (Some rejected)
      else if String.eqb s "updated" then Some (Some updated)
      else if String.eqb s "expired" then Some (Some expired)
      else None
  end.

(** The JSON stored in [response_data], as each handler builds it. *)
Inductive response_data : Type :=
| FormSubmission (approval_status corrections : option string)
    (submitted_at : timestamptz)
| TeamsSubmission (approval_status corrections : Js.field)
    (responded_by : string) (responded_at : timestamptz).

Record validation_request : Type := {
  vr_id : uuid;
  vr_proposal_id : option uuid;
  vr_entity_type : string;
  vr_entity_id : uuid;
  vr_recipient_name : string;
  vr_recipient_email : string;
  vr_message_id : option string;
  vr_sent_at : option timestamptz;
  vr_validation_status : option validation_status;
  vr_response_received_at : option timestamptz;
  vr_response_data : option response_data;
  vr_corrections_provided : option string;
  vr_experience_created : option bool;
  vr_experience_id : option uuid;
  vr_expires_at : option timestamptz
}.

(** The SET list both handlers use for a response. *)
Definition record_response (status : option validation_status)
    (received_at : timestamptz) (corrections : option string)
    (data : response_data) (vr : validation_request) : validation_request :=
  {| vr_id := vr_id vr;
     vr_proposal_id := vr_proposal_id vr;
     vr_entity_type := vr_entity_type vr;
     vr_entity_id := vr_entity_id vr;
     vr_recipient_name := vr_recipient_name vr;
     vr_recipient_email := vr_recipient_email vr;
     vr_message_id := vr_message_id vr;
     vr_sent_at := vr_sent_at vr;
     vr_validation_status := status;
     vr_response_received_at := Some received_at;
     vr_response_data := Some data;
     vr_corrections_provided := corrections;
     vr_experience_created := vr_experience_created vr;
     vr_experience_id := vr_experience_id vr;
     vr_expires_at := vr_expires_at vr |}.

(** [{ experience_created: true, experience_id }] *)
Definition record_link (experience_id : uuid) (vr : validation_request)
    : validation_request :=
  {| vr_id := vr_id vr;
     vr_proposal_id := vr_proposal_id vr;
     vr_entity_type := vr_entity_type vr;
     vr_entity_id := vr_entity_id vr;
     vr_recipient_name := vr_recipient_name vr;
     vr_recipient_email := vr_recipient_email vr;
     vr_message_id := vr_message_id vr;
     vr_sent_at := vr_sent_at vr;
     vr_validation_status := vr_validation_status vr;
     vr_response_received_at := vr_response_received_at vr;
     vr_response_data := vr_response_data vr;
     vr_corrections_provided := vr_corrections_provided vr;
     vr_experience_created := Some true;
     vr_experience_id := Some experience_id;
     vr_expires_at := vr_expires_at vr |}.

(** [.update(...).eq('id', id)] on [validation_requests]. *)
Definition update_where_id (id : uuid)
    (f : validation_request -> validation_request)
    (rows : list validation_request) : list validation_request :=
  List.map (fun vr => if vr_id vr =? id then f vr else vr) rows.

Record proposal : Type := {
  p_id : uuid;
  p_proposal_title : string
}.

Record active_validation : Type := {
  av_id : uuid;
  av_proposal_id : option uuid;
  av_proposal_title : string;
  av_entity_type : string;
  av_recipient_name : string;
  av_recipient_email : string;
  av_validation_status : option validation_status;
  av_sent_at : option timestamptz;
  av_expires_at : option timestamptz;
  av_actual_status : string
}.

(** The CASE expression of the view. *)
Definition actual_status (now : timestamptz) (vr : validation_request) : string :=
  match vr_expires_at vr with
  | Some t =>
      if t <? now then "expired"
      else match vr_sent_at vr with
           | None => "not_sent"
           | Some _ => "active"
           end
  | None =>
      match vr_sent_at vr with
      | None => "not_sent"
      | Some _ => "active"
      end
  end.

(** [vr.validation_status IN ('pending', 'sent')] *)
Definition awaiting_response (vr : validation_request) : bool :=
  match vr_validation_status vr with
  | Some pending | Some sent => true
  | _ => false
  end.

(** [ORDER BY vr.expires_at ASC], [NULL]s last. *)
Definition expires_sooner (y x : active_validation) : bool :=
  match av_expires_at y, av_expires_at x with
  | Some a, Some b => a <? b
  | Some _, None => true
  | None, _ => false
  end.

Definition active_validations (now : timestamptz)
    (validation_requests : list validation_request) (proposals : list proposal)
    : list active_validation :=
  Sql.order_by expires_sooner
    (flat_map (fun vr =>
       flat_map (fun p =>
         match vr_proposal_id vr with
         | Some pid =>
             if (pid =? p_id p) && awaiting_response vr
             then [{| av_id := vr_id vr;
                      av_proposal_id := vr_proposal_id vr;
                      av_proposal_title := p_proposal_title p;
                      av_entity_type := vr_entity_type vr;
                      av_recipient_name := vr_recipient_name vr;
                      av_recipient_email := vr_recipient_email vr;
                      av_validation_status := vr_validation_status vr;
                      av_sent_at := vr_sent_at vr;
                      av_expires_at := vr_expires_at vr;
                      av_actual_status := actual_status now vr |}]
             else []
         | None => []
         end) proposals) validation_requests).

End Validation.

(** ** The [validation-response] edge function *)
Module ValidationResponse.
Import Js Validation.

Section Handler.
Context {vector : Type}.

(** A row of [experience] with the columns the handler sets and the
    [is_validated] flag of the manual review. *)
Record experience : Type := {
  x_id : uuid;
  x_description : string;
  x_keywords : option (list string);
  x_entity_type : option string;
  x_entity_id : option uuid;
  x_source_type : string;
  x_source_id : option uuid;
  x_confidence_score : option Q;
  x_embedding : option vector;
  x_created_by : option string;
  x_is_validated : option bool
}.

Record database : Type := {
  validation_requests : list validation_request;
  experience_table : list experience
}.

(** What the function's environment supplies to one request: the
    provider's answer, the clock, and the UUID that [gen_random_uuid()]
    draws for an inserted row. *)
Variable openai_embeddings : string -> fetch_result vector.
(** [String.prototype.toLowerCase]: the case conversion of the platform,
    by the case tables of Unicode. *)
Variable toLowerCase : string -> string.
Variable now : timestamptz.
Variable gen_random_uuid : uuid.

Inductive request : Type :=
| GET (pathname : string)
| POST (token approval_status corrections : option string)
| OtherMethod.

Inductive response : Type :=
| Plain (status : Z) (body : string)
| ValidationForm (validation : validation_request) (token : string)
| SuccessPage
| UnhandledRejection (message : string).

Definition status_code (r : response) : Z :=
  match r with
  | Plain status _ => status
  | ValidationForm _ _ => 200
  | SuccessPage => 200
  | UnhandledRejection _ => 500
  end.

(** [.eq('message_id', token).single()] *)
Definition getValidationByToken (token : string) (db : database)
    : option validation_request :=
  single
    (List.filter
       (fun vr =>
          match vr_message_id vr with
          | Some m => String.eqb m token
          | None => false
          end) (validation_requests db)).

(** [pathname.split('/').pop()] *)
Fixpoint last_segment_go (cur : string) (s : string) : string :=
  match s with
  | EmptyString => String.rev cur
  | String a rest =>
      if Ascii.eqb a "/" then last_segment_go EmptyString rest
      else last_segment_go (String a cur) rest
  end.

Definition last_segment (pathname : string) : string :=
  last_segment_go EmptyString pathname.

(** The first [update]: a status label outside the enum makes the
    statement fail, and the handler does not look at the error. *)
Definition update_validation (id : uuid) (approval_status corrections : option string)
    (db : database) : database :=
  match validation_status_in approval_status with
  | Some status =>
      {| validation_requests :=
           update_where_id id
             (record_response status now corrections
                (FormSubmission approval_status corrections now))
             (validation_requests db);
         experience_table := experience_table db |}
  | None => db
  end.

(** The CHECK constraint on [experience.entity_type]. *)
Definition entity_type_check (entity_type : option string) : bool :=
  match entity_type with
  | None => true
  | Some t =>
      existsb (String.eqb t)
        ["internal_resource"; "external_resource"; "policy"; "proposal"; "general"]
  end.

(** [.insert(row).select().single()]: the stored row, or no data when the
    CHECK constraint or the primary key rejects it. *)
Definition entry_accepted (row : experience) (db : database) : bool :=
  entity_type_check (x_entity_type row)
  && negb (existsb (fun x => x_id x =? x_id row) (experience_table db)).

Definition insert_experience (row : experience) : task database (option experience) :=
  fun db =>
    if entry_accepted row db
    then ({| validation_requests := validation_requests db;
             experience_table := experience_table db ++ [row] |},
          Returned (Some row))
    else (db, Returned None).

(** The second [update]. *)
Definition link_experience (id experience_id : uuid) (db : database) : database :=
  {| validation_requests :=
       update_where_id id (record_link experience_id) (validation_requests db);
     experience_table := experience_table db |}.

(** [corrections.toLowerCase().split(/\s+/).filter(w => w.length > 4).slice(0, 10)] *)
Definition extract_keywords (corrections : string) : list string :=
  firstn 10
    (List.filter (fun w => (4 <? utf16_length w)%nat)
       (split_whitespace (toLowerCase corrections))).

Definition correction_entry (validation : validation_request)
    (corrections : string) (embedding : vector) : experience :=
  {| x_id := gen_random_uuid;
     x_description := "Validation correction: " ++ corrections;
     x_keywords := Some (extract_keywords corrections);
     x_entity_type := Some (vr_entity_type validation);
     x_entity_id := Some (vr_entity_id validation);
     x_source_type := "validation_response";
     x_source_id := Some (vr_id validation);
     x_confidence_score := Some (95 # 100);
     x_embedding := Some embedding;
     x_created_by := Some "ai";
     x_is_validated := Some false |}.

(** [if (corrections && corrections.trim() !== '') { ... }] *)
Definition create_experience (validation : validation_request)
    (corrections : option string) : task database unit :=
  match corrections with
  | Some text =>
      if truthy corrections && not_blank text then
        match openai_embeddings text with
        | FetchError message => throw message
        | NotOk _ => mret tt
        | Ok200 embedding =>
            experience ← insert_experience
                           (correction_entry validation text embedding);
            match experience with
            | Some experience =>
                modify (link_experience (vr_id validation) (x_id experience))
            | None => mret tt
            end
        end
      else mret tt
  | None => mret tt
  end.

Definition handle_get (pathname : string) : task database response :=
  let token := last_segment pathname in
  if negb (truthy (Some token)) then mret (Plain 400 "Token required")
  else
    validation ← gets (getValidationByToken token);
    match validation with
    | None => mret (Plain 404 "Invalid or expired validation link")
    | Some validation => mret (ValidationForm validation token)
    end.

Definition handle_post (token approval_status corrections : option string)
    : task database response :=
  match token with
  | Some tok =>
      if negb (truthy token) then mret (Plain 400 "Token required")
      else
        validation ← gets (getValidationByToken tok);
        match validation with
        | None => mret (Plain 404 "Invalid or expired validation link")
        | Some validation =>
            modify (update_validation (vr_id validation) approval_status corrections);;
            create_experience validation corrections;;
            mret SuccessPage
        end
  | None => mret (Plain 400 "Token required")
  end.

Definition serve (req : request) (db : database) : database * response :=
  let handler :=
    match req with
    | GET pathname => handle_get pathname
    | POST token approval_status corrections =>
        handle_post token approval_status corrections
    | OtherMethod => mret (Plain 405 "Method not allowed")
    end in
  match handler db with
  | (db', Returned r) => (db', r)
  | (db', Thrown message) => (db', UnhandledRejection message)
  end.

(** The entries derived from a validation request. *)
Definition derived_entries (id : uuid) (db : database) : list experience :=
  List.filter
    (fun x =>
       String.eqb (x_source_type x) "validation_response"
       && match x_source_id x with
          | Some s => s =? id
          | None => false
          end) (experience_table db).

End Handler.

End ValidationResponse.

(** ** The [validation-webhook] edge function *)
Module ValidationWebhook.
Import Js Validation.

(** The parts of the Teams activity the handler reads. *)
Record submission : Type := {
  validation_id : option uuid;
  approval_status : field;
  corrections : field
}.

Record card_action : Type := { verb : option string }.

Record activity_value : Type := {
  action : option card_action;
  data : option submission
}.

Record payload : Type := {
  value : option activity_value;
  from_user_displayName : option string
}.

Inductive response : Type :=
| Unauthorized
| NotFound
| Recorded
| OK
| ServerError (message : string).

Definition status_code (r : response) : Z :=
  match r with
  | Unauthorized => 401
  | NotFound => 404
  | Recorded => 200
  | OK => 200
  | ServerError _ => 500
  end.

Section Handler.
Variable now : timestamptz.

(** The placeholder signature check. *)
Definition validateTeamsWebhook (p : payload) : bool := true.

(** The status written: anything but ['approved'] and ['rejected'] is
    ['updated']. *)
Definition status_written (approval_status : field) : validation_status :=
  match approval_status with
  | Text s =>
      if String.eqb s "approved" then approved
      else if String.eqb s "rejected" then rejected
      else updated
  | Missing | Null => updated
  end.

(** What the update leaves in [corrections_provided]: the key is not in
    the request body when [corrections] is [undefined], and the column
    keeps what it holds. *)
Definition corrections_written (corrections : field) (vr : validation_request)
    : option string :=
  match corrections with
  | Missing => vr_corrections_provided vr
  | Null => None
  | Text s => Some s
  end.

(** [payload.from?.user?.displayName || 'Unknown'] *)
Definition responded_by (p : payload) : string :=
  match from_user_displayName p with
  | Some name => if truthy (Some name) then name else "Unknown"
  | None => "Unknown"
  end.

(** The row as the update writes it. *)
Definition card_response (p : payload) (s : submission) (vr : validation_request)
    : validation_request :=
  record_response (Some (status_written (approval_status s))) now
    (corrections_written (corrections s) vr)
    (TeamsSubmission (approval_status s) (corrections s) (responded_by p) now) vr.

(** [.update(...).eq('id', validation_id).select().single()]: the rows
    after the update, and the updated row when there is exactly one. *)
Definition update_validation (p : payload) (s : submission)
    (rows : list validation_request)
    : list validation_request * option validation_request :=
  match validation_id s with
  | Some id =>
      (update_where_id id (card_response p s) rows,
       single (List.map (card_response p s)
                 (List.filter (fun vr => vr_id vr =? id) rows)))
  | None => (rows, None)
  end.

Definition handle (p : payload) : task (list validation_request) response :=
  if negb (validateTeamsWebhook p) then mret Unauthorized
  else
    let action := value p ≫= action in
    let data := value p ≫= data in
    match action ≫= verb with
    | Some v =>
        if String.eqb v "submit_validation" then
          match data with
          | None => throw "Cannot read properties of undefined (reading 'validation_id')"
          | Some s =>
              fun rows =>
                let (rows', validation) := update_validation p s rows in
                match validation with
                | None => (rows', Returned NotFound)
                | Some _ => (rows', Returned Recorded)
                end
          end
        else mret OK
    | None => mret OK
    end.

(** The body is [None] when it is not JSON and [req.json()] rejects. *)
Definition serve (body : option payload) (rows : list validation_request)
    : list validation_request * response :=
  match body with
  | None => (rows, ServerError "Unexpected end of JSON input")
  | Some p =>
      match handle p rows with
      | (rows', Returned r) => (rows', r)
      | (rows', Thrown message) => (rows', ServerError message)
      end
  end.

End Handler.

End ValidationWebhook.

(** ** The Embedding Job Queue as the specification words it *)
Module QueueSpec.
Import ProcessEmbeddings.

(** A text field of a content record: a text column, or the keyword
    array. *)
Inductive text_field : Type :=
| Column (name : string)
| Keywords.

(** The designated text fields, table by table. *)
Definition field_lists : list (string * list text_field) :=
  [("internal_resources", [Column "name"; Column "description"; Column "rate_notes"]);
   ("external_resources",
    [Column "vendor_name"; Column "description"; Column "pricing_notes"]);
   ("policies", [Column "policy_name"; Column "description"; Column "requirements"]);
   ("experience", [Column "description"; Keywords]);
   ("rfps", [Column "project_title"; Column "client_name"; Column "parsed_markdown"])].

Definition designated_fields (table : string) : list text_field :=
  match List.find (fun entry => String.eqb table (fst entry)) field_lists with
  | Some entry => snd entry
  | None => []
  end.

Section Stated.
Context {vector : Type}.
Variable openai_embeddings : string -> Js.fetch_result vector.
Variable now : timestamptz.

(** What a field of a record holds: the text of the column, nothing when
    the column is [NULL]; the keywords with one space between them. *)
Definition field_text (record : @content_row vector) (f : text_field) : string :=
  match f with
  | Column name => default "" (row_text record !! name)
  | Keywords => String.concat " " (default [] (row_keywords record))
  end.

(** The current text of a record: its designated fields that hold text,
    in the order of the list, with one space between them. *)
Definition current_text (table : string) (record : @content_row vector) : string :=
  String.concat " "
    (List.filter (fun text => negb (String.eqb text ""))
       (List.map (field_text record) (designated_fields table))).


(** A failed job whose retry count has not passed [max_retries] is taken up
    again by the next drain. *)
Definition retried_within_budget (max_retries : Z) : Prop :=
  forall (db : @database vector) (job : embedding_job),
    In job (embedding_queue db) ->
    job_status_of job = failed ->
    default 0 (job_retry_count job) <= max_retries ->
    In (job_id job) (List.map job_id (select_pending db)).

End Stated.

End QueueSpec.

(** ** The Validation State Machine as the specification words it *)
Module ValidationSpec.
Import Validation ValidationResponse.

Section Stated.
Context {vector : Type}.
Variable openai_embeddings : string -> Js.fetch_result vector.
Variable toLowerCase : string -> string.

(** Delivering the same response twice leaves at most one entry derived
    from the request. *)
Definition idempotent_delivery : Prop :=
  forall (db : @database vector) (now1 now2 : timestamptz) (id1 id2 : uuid)
         (token approval_status corrections : option string)
         (tok : string) (v : validation_request),
    token = Some tok ->
    getValidationByToken tok db = Some v ->
    derived_entries (vr_id v) db = [] ->
    let req := POST token approval_status corrections in
    let db1 := fst (serve openai_embeddings toLowerCase now1 id1 req db) in
    let db2 := fst (serve openai_embeddings toLowerCase now2 id2 req db1) in
    (List.length (derived_entries (vr_id v) db2) <= 1)%nat.

(** A response that arrives after [expires_at], with no response recorded
    before, is rejected and changes nothing. *)
Definition late_response_rejected : Prop :=
  forall (db : @database vector) (now : timestamptz) (new_id : uuid)
         (approval_status corrections : option string)
         (tok : string) (v : validation_request) (t : timestamptz),
    getValidationByToken tok db = Some v ->
    vr_expires_at v = Some t -> t < now ->
    vr_response_data v = None ->
    let r := serve openai_embeddings toLowerCase now new_id
               (POST (Some tok) approval_status corrections) db in
    fst r = db /\ snd r <> SuccessPage.

(** The three effects of a correction response. *)
Definition entry_created (v : validation_request) (db db' : @database vector) : Prop :=
  (List.length (derived_entries (vr_id v) db)
   < List.length (derived_entries (vr_id v) db'))%nat.

Definition status_recorded (v : validation_request) (now : timestamptz)
    (db' : @database vector) : Prop :=
  exists r, In r (validation_requests db') /\ vr_id r = vr_id v
            /\ vr_response_received_at r = Some now.

Definition link_recorded (v : validation_request) (new_id : uuid)
    (db' : @database vector) : Prop :=
  exists r, In r (validation_requests db') /\ vr_id r = vr_id v
            /\ vr_experience_id r = Some new_id.

(** All three effects of a correction response, or none of them. *)
Definition atomic_correction : Prop :=
  forall (db : @database vector) (now : timestamptz) (new_id : uuid)
         (approval_status : option string) (text tok : string)
         (v : validation_request),
    getValidationByToken tok db = Some v ->
    Js.not_blank text = true ->
    vr_response_received_at v <> Some now ->
    vr_experience_id v <> Some new_id ->
    let db' := fst (serve openai_embeddings toLowerCase now new_id
                      (POST (Some tok) approval_status (Some text)) db) in
    (entry_created v db db' /\ status_recorded v now db'
     /\ link_recorded v new_id db')
    \/ (~ entry_created v db db' /\ ~ status_recorded v now db'
        /\ ~ link_recorded v new_id db').

End Stated.

End ValidationSpec.

(** ** Sample data

    Stand-ins for pgvector and text search on the sample rows: embeddings
    are rational vectors of length one, for which the cosine distance is one
    minus the dot product; a document is its list of lexemes, a query
    matches when each of its words is among them, and the relevance is the
    share of matching lexemes. *)
Module Samples.

Definition dot (a b : list Q) : Q :=
  fold_right Qplus 0%Q (List.map (fun '(x, y) => (x * y)%Q) (combine a b)).

Definition unit_cosine_distance (a b : list Q) : Q := (1 - dot a b)%Q.

Definition words_query (text : string) : list string := String.words text.

Definition has_word (doc : list string) (w : string) : bool :=
  existsb (String.eqb w) doc.

Definition all_words_match (doc query : list string) : bool :=
  forallb (has_word doc) query.

Definition matching_share (doc query : list string) : Q :=
  (inject_Z (Z.of_nat (List.length (List.filter (has_word query) doc))) / 10)%Q.

Definition entry (id : uuid) (text : string) (embedding : option (list Q))
    (is_validated : option bool) : @Sql.experience (list Q) (list string) :=
  {| Sql.e_id := id;
     Sql.e_description := text;
     Sql.e_keywords := None;
     Sql.e_entity_type := Some "general";
     Sql.e_entity_id := None;
     Sql.e_entity_name := None;
     Sql.e_confidence_score := Some (8 # 10);
     Sql.e_created_at := Some 1000;
     Sql.e_search_vector := String.words text;
     Sql.e_embedding := embedding;
     Sql.e_is_validated := is_validated |}.

Definition resource (id : uuid) (name : string) (embedding : option (list Q))
    : @Sql.internal_resource (list Q) (list string) :=
  {| Sql.ir_id := id;
     Sql.ir_name := name;
     Sql.ir_resource_type := Sql.staff;
     Sql.ir_description := name;
     Sql.ir_search_vector := String.words name;
     Sql.ir_embedding := embedding;
     Sql.ir_is_active := Some true |}.

Definition search_experience :=
  Sql.search_experience unit_cosine_distance words_query matching_share
    all_words_match.

Definition search_internal_resources :=
  Sql.search_internal_resources unit_cosine_distance words_query matching_share
    all_words_match.

Definition search_experience_query :=
  Sql.search_experience_query unit_cosine_distance words_query matching_share
    all_words_match.

Definition search_internal_resources_query :=
  Sql.search_internal_resources_query unit_cosine_distance words_query
    matching_share all_words_match.

(** Entry 2 is close to the query vector and has none of its words; entry 1
    has the word and no embedding; entry 3 has both and awaits review. *)
Definition knowledge : list (@Sql.experience (list Q) (list string)) :=
  [ entry 2 "cloud architecture rates" (Some [1%Q; 0%Q]) (Some true);
    entry 1 "travel budget policy" None (Some true);
    entry 3 "budget for cloud" (Some [1%Q; 0%Q]) (Some false) ].

Definition staff_table : list (@Sql.internal_resource (list Q) (list string)) :=
  [ resource 2 "cloud architect" (Some [1%Q; 0%Q]);
    resource 1 "budget analyst" None ].

Definition rows_of {A : Type} (r : Sql.query_result A) : list A :=
  match r with
  | Sql.Rows rows => rows
  | Sql.Raise _ => []
  end.

(** The rows that the queries of the two functions select on the sample
    tables. *)
Definition sample_results : list Sql.experience_match :=
  rows_of (search_experience_query knowledge "budget" [1%Q; 0%Q] (6 # 10) 20 None).

Definition sample_resource_results : list Sql.resource_match :=
  rows_of (search_internal_resources_query staff_table "budget" [1%Q; 0%Q]
             (6 # 10) 20).

(** A provider for the samples: the vector of a text is the list of its
    character codes; the text ["unavailable"] gets an error status. *)
Definition char_codes (text : string) : list nat :=
  List.map nat_of_ascii (list_ascii_of_string text).

Definition sample_embeddings (text : string) : Js.fetch_result (list nat) :=
  if String.eqb text "unavailable" then Js.NotOk "rate limit exceeded"
  else Js.Ok200 (char_codes text).

Definition job (id record_id : uuid) (table : string)
    (status : ProcessEmbeddings.job_status) : ProcessEmbeddings.embedding_job :=
  {| ProcessEmbeddings.job_id := id;
     ProcessEmbeddings.job_table_name := table;
     ProcessEmbeddings.job_record_id := record_id;
     ProcessEmbeddings.job_status_of := status;
     ProcessEmbeddings.job_priority := 5;
     ProcessEmbeddings.job_retry_count := Some 0;
     ProcessEmbeddings.job_error_message := None;
     ProcessEmbeddings.job_processed_at := None |}.

Definition policy_row (id : uuid) (description : string)
    : @ProcessEmbeddings.content_row (list nat) :=
  {| ProcessEmbeddings.row_id := id;
     ProcessEmbeddings.row_text :=
       {[ "policy_name" := "Travel"; "description" := description ]};
     ProcessEmbeddings.row_keywords := None;
     ProcessEmbeddings.row_embedding := None |}.

(** A content mutation: the description of a policy is rewritten and a job
    for the record is queued. *)
Definition rewrite_policy (id job_id : uuid) (description : string)
    (db : @ProcessEmbeddings.database (list nat))
    : @ProcessEmbeddings.database (list nat) :=
  {| ProcessEmbeddings.embedding_queue :=
       ProcessEmbeddings.embedding_queue db
       ++ [job job_id id "policies" ProcessEmbeddings.pending];
     ProcessEmbeddings.tables :=
       <["policies" := [policy_row id description]]>
         (ProcessEmbeddings.tables db) |}.

Definition empty_store : @ProcessEmbeddings.database (list nat) :=
  {| ProcessEmbeddings.embedding_queue := [];
     ProcessEmbeddings.tables := ∅ |}.

(** Record 9 is rewritten twice before the queue is drained. *)
Definition twice_rewritten : @ProcessEmbeddings.database (list nat) :=
  rewrite_policy 9 72 "rate is 120" (rewrite_policy 9 71 "rate is 100" empty_store).

(** Job 7 points at a record that does not exist. *)
Definition dangling : @ProcessEmbeddings.database (list nat) :=
  {| ProcessEmbeddings.embedding_queue :=
       [job 7 404 "policies" ProcessEmbeddings.pending];
     ProcessEmbeddings.tables := ∅ |}.

Definition drain := ProcessEmbeddings.serve sample_embeddings 5000.

(** Eleven pending jobs, each for a record that does not exist. *)
Definition eleven_pending : @ProcessEmbeddings.database (list nat) :=
  {| ProcessEmbeddings.embedding_queue :=
       List.map (fun n => job n (400 + n) "policies" ProcessEmbeddings.pending)
         [1; 2; 3; 4; 5; 6; 7; 8; 9; 10; 11];
     ProcessEmbeddings.tables := ∅ |}.

(** Record 9 after its first rewrite, with job 71 pending. *)
Definition once_rewritten : @ProcessEmbeddings.database (list nat) :=
  rewrite_policy 9 71 "rate is 100" empty_store.

(** Job 71 was queued at the first rewrite of record 9, job 72 at the
    second. *)
Definition job_71 : ProcessEmbeddings.embedding_job :=
  job 71 9 "policies" ProcessEmbeddings.pending.

Definition job_72 : ProcessEmbeddings.embedding_job :=
  job 72 9 "policies" ProcessEmbeddings.pending.

Definition job_7 : ProcessEmbeddings.embedding_job :=
  job 7 404 "policies" ProcessEmbeddings.pending.

Definition process_job := ProcessEmbeddings.process_job sample_embeddings 5000.

(** Request 1 was sent with token ["tok-1"] and expired at time 100. *)
Definition request_1 : Validation.validation_request :=
  {| Validation.vr_id := 1;
     Validation.vr_proposal_id := Some 50;
     Validation.vr_entity_type := "internal_resource";
     Validation.vr_entity_id := 9;
     Validation.vr_recipient_name := "Rate owner";
     Validation.vr_recipient_email := "owner@example.com";
     Validation.vr_message_id := Some "tok-1";
     Validation.vr_sent_at := Some 10;
     Validation.vr_validation_status := Some Validation.sent;
     Validation.vr_response_received_at := None;
     Validation.vr_response_data := None;
     Validation.vr_corrections_provided := None;
     Validation.vr_experience_created := Some false;
     Validation.vr_experience_id := None;
     Validation.vr_expires_at := Some 100 |}.

Definition inbox : @ValidationResponse.database (list nat) :=
  {| ValidationResponse.validation_requests := [request_1];
     ValidationResponse.experience_table := [] |}.

Definition correction : ValidationResponse.request :=
  ValidationResponse.POST (Some "tok-1") (Some "updated")
    (Some "rate is actually 120").

(** A stand-in for [toLowerCase] on the sample texts, whose capitals are
    all among A to Z: these become a to z, every other byte stays. *)
Definition lower_ascii (a : ascii) : ascii :=
  let n := nat_of_ascii a in
  if ((65 <=? n) && (n <=? 90))%nat then ascii_of_nat (n + 32) else a.

Fixpoint lower (s : string) : string :=
  match s with
  | EmptyString => EmptyString
  | String a rest => String (lower_ascii a) (lower rest)
  end.

Definition respond (now : timestamptz) (new_id : uuid) :=
  ValidationResponse.serve sample_embeddings lower now new_id.

Definition correction_text : string := "rate is actually 120".

(** A correction sent while the provider is down. *)
Definition correction_during_outage : ValidationResponse.request :=
  ValidationResponse.POST (Some "tok-1") (Some "updated") (Some "unavailable").

(** Request 2 was approved, with a note, before the Teams card below is
    submitted. *)
Definition request_2 : Validation.validation_request :=
  {| Validation.vr_id := 2;
     Validation.vr_proposal_id := Some 50;
     Validation.vr_entity_type := "policy";
     Validation.vr_entity_id := 12;
     Validation.vr_recipient_name := "Policy owner";
     Validation.vr_recipient_email := "policy@example.com";
     Validation.vr_message_id := Some "teams-2";
     Validation.vr_sent_at := Some 10;
     Validation.vr_validation_status := Some Validation.approved;
     Validation.vr_response_received_at := Some 20;
     Validation.vr_response_data := None;
     Validation.vr_corrections_provided := Some "see section 4";
     Validation.vr_experience_created := Some false;
     Validation.vr_experience_id := None;
     Validation.vr_expires_at := Some 100 |}.

(** A card submitted with an answer that is neither approval nor rejection
    and without corrections. *)
Definition undecided : ValidationWebhook.submission :=
  {| ValidationWebhook.validation_id := Some 2;
     ValidationWebhook.approval_status := Js.Text "needs_discussion";
     ValidationWebhook.corrections := Js.Missing |}.

Definition card : ValidationWebhook.payload :=
  {| ValidationWebhook.value :=
       Some {| ValidationWebhook.action :=
                 Some {| ValidationWebhook.verb := Some "submit_validation" |};
               ValidationWebhook.data := Some undecided |};
     ValidationWebhook.from_user_displayName := Some "Policy owner" |}.

End Samples.

(** ** Auxiliary views used in the statements and proofs *)
Module Views.
Import Sql Js ProcessEmbeddings.

Section Joined.
Context {H M : Type}.
Variable hit_id : H -> uuid.
Variable fuse : option H * option H -> M.

(** The join of two branches on the record id, with the SELECT list
    applied. *)
(** The ON condition of both joins. *)
Definition on_id (ss fts : H) : bool := hit_id ss =? hit_id fts.

Definition joined (ss fts : list H) : list M :=
  List.map fuse (full_outer_join on_id ss fts).

End Joined.

Section Branch.
Context {E Hit : Type}.
Variable keep : E -> list (E * Q).
Variable ahead : E * Q -> E * Q -> bool.
Variable mk : E * Q * Z -> Hit.

(** A branch is built in three steps: the rows the WHERE clause keeps, the
    window order, the numbering. *)
Definition branch (tbl : list E) : list Hit :=
  List.map mk (row_number (order_by ahead (flat_map keep tbl))).

End Branch.

Section Turn.
Context {vector : Type}.
Variable openai_embeddings : string -> fetch_result vector.

(** The rows of a content table, none when the table does not exist. *)
Definition rows_of (table : string) (db : @database vector)
    : list (@content_row vector) :=
  default [] (tables db !! table).

(** What one turn of the drain loop runs into. *)
Inductive turn : Type :=
| RecordMissing
| NoText (record : @content_row vector)
| ProviderRefused (record : @content_row vector) (errorText : string)
| ProviderUnreachable (record : @content_row vector) (message : string)
| Embedded (record : @content_row vector) (embedding : vector).

Definition turn_of (job : embedding_job) (db : @database vector) : turn :=
  match select_record (job_table_name job) (job_record_id job) db with
  | None => RecordMissing
  | Some record =>
      let text := record_text (job_table_name job) record in
      if String.eqb text "" then NoText record
      else match openai_embeddings text with
           | NotOk errorText => ProviderRefused record errorText
           | FetchError message => ProviderUnreachable record message
           | Ok200 embedding => Embedded record embedding
           end
  end.

Definition error_of (job : embedding_job) (t : turn) : option string :=
  match t with
  | RecordMissing =>
      Some ("Record not found: " ++ job_table_name job ++ "."
            ++ pretty (job_record_id job))%string
  | NoText _ => Some "No text content found for embedding"
  | ProviderRefused _ errorText => Some ("OpenAI API error: " ++ errorText)%string
  | ProviderUnreachable _ message => Some message
  | Embedded _ _ => None
  end.

End Turn.

Section Expiry.
Context {vector : Type}.
Import Validation ValidationResponse.

(** A request with another expiry time. *)
Definition set_expires_at (t : option timestamptz) (vr : validation_request)
    : validation_request :=
  {| vr_id := vr_id vr;
     vr_proposal_id := vr_proposal_id vr;
     vr_entity_type := vr_entity_type vr;
     vr_entity_id := vr_entity_id vr;
     vr_recipient_name := vr_recipient_name vr;
     vr_recipient_email := vr_recipient_email vr;
     vr_message_id := vr_message_id vr;
     vr_sent_at := vr_sent_at vr;
     vr_validation_status := vr_validation_status vr;
     vr_response_received_at := vr_response_received_at vr;
     vr_response_data := vr_response_data vr;
     vr_corrections_provided := vr_corrections_provided vr;
     vr_experience_created := vr_experience_created vr;
     vr_experience_id := vr_experience_id vr;
     vr_expires_at := t |}.

(** The store with every request's expiry time replaced: [f] gives the new
    time from the request's id and its old time. *)
Definition with_expiry (f : uuid -> option timestamptz -> option timestamptz)
    (db : @database vector) : @database vector :=
  {| validation_requests :=
       List.map (fun vr => set_expires_at (f (vr_id vr) (vr_expires_at vr)) vr)
         (validation_requests db);
     experience_table := experience_table db |}.

(** The status a request to the response handler submits, if it is a form
    submission with a label of the enum. *)
Definition submitted_status (req : request) : option (option validation_status) :=
  match req with
  | POST _ approval_status _ => validation_status_in approval_status
  | _ => None
  end.

End Expiry.

End Views.

(** The WHERE clauses keep a row once, under its own id. *)
Ltac keeps_row_itself :=
  let e := fresh "e" in
  let x := fresh "x" in
  let Hx := fresh "Hx" in
  intros e x Hx; cbv beta zeta in Hx;
  repeat match type of Hx with
         | In _ (match ?c with _ => _ end) => destruct c
         | In _ [] => destruct Hx
         | In _ [_] => destruct Hx as [<-|[]]
         end;
  reflexivity.

Ltac keeps_row_once :=
  let e := fresh "e" in
  intros e; cbv beta zeta;
  repeat match goal with
         | |- context [match ?c with _ => _ end] => destruct c
         end;
  simpl; lia.


(** ** The [pending_reviews] view, and entries as the handler stores them *)
Module Review.
Import Sql.

(** The columns of [experience] that [pending_reviews] shows and the search
    does not read. *)
Record provenance : Type := {
  pv_source_type : string;
  pv_source_id : option uuid;
  pv_created_by : option string
}.

Record pending_review : Type := {
  pr_id : uuid;
  pr_description : string;
  pr_keywords : option (list string);
  pr_entity_type : option string;
  pr_entity_id : option uuid;
  pr_entity_name : option string;
  pr_confidence_score : option Q;
  pr_source_type : string;
  pr_source_id : option uuid;
  pr_created_at : option timestamptz;
  pr_created_by : option string
}.

(** [ORDER BY created_at DESC]: [NULL]s come first, then later times before
    earlier ones. *)
Definition newer (a b : option timestamptz) : bool :=
  match a, b with
  | None, Some _ => true
  | Some ta, Some tb => tb <? ta
  | _, _ => false
  end.

Section PendingReviews.
Context {halfvec tsvector : Type}.

(** A stored row of [experience]: the columns the search reads, and the
    provenance columns. *)
Definition stored : Type := @experience halfvec tsvector * provenance.

(** [e.is_validated = FALSE] *)
Definition awaiting_review (row : stored) : bool :=
  match e_is_validated (fst row) with
  | Some b => negb b
  | None => false
  end.

Definition review_row (row : stored) : pending_review :=
  let (e, pv) := row in
  {| pr_id := e_id e;
     pr_description := e_description e;
     pr_keywords := e_keywords e;
     pr_entity_type := e_entity_type e;
     pr_entity_id := e_entity_id e;
     pr_entity_name := e_entity_name e;
     pr_confidence_score := e_confidence_score e;
     pr_source_type := pv_source_type pv;
     pr_source_id := pv_source_id pv;
     pr_created_at := e_created_at e;
     pr_created_by := pv_created_by pv |}.

Definition pending_reviews (tbl : list stored) : list pending_review :=
  List.map review_row
    (order_by (fun y x => newer (e_created_at (fst y)) (e_created_at (fst x)))
       (List.filter awaiting_review tbl)).

(** The row that an insert of the response handler leaves in the table:
    the columns it does not set take their defaults ([entity_name] is
    [NULL], [created_at] is the time of the insert), and [search_vector] is
    generated from the description and the keywords. *)
Variable search_vector_of : string -> option (list string) -> tsvector.

Definition as_stored (created_at : timestamptz)
    (x : @ValidationResponse.experience halfvec) : stored :=
  ({| e_id := ValidationResponse.x_id x;
      e_description := ValidationResponse.x_description x;
      e_keywords := ValidationResponse.x_keywords x;
      e_entity_type := ValidationResponse.x_entity_type x;
      e_entity_id := ValidationResponse.x_entity_id x;
      e_entity_name := None;
      e_confidence_score := ValidationResponse.x_confidence_score x;
      e_created_at := Some created_at;
      e_search_vector :=
        search_vector_of (ValidationResponse.x_description x)
          (ValidationResponse.x_keywords x);
      e_embedding := ValidationResponse.x_embedding x;
      e_is_validated := ValidationResponse.x_is_validated x |},
   {| pv_source_type := ValidationResponse.x_source_type x;
      pv_source_id := ValidationResponse.x_source_id x;
      pv_created_by := ValidationResponse.x_created_by x |}).

End PendingReviews.

End Review.

(** ** Relations between a store before and after a drain *)
Module DrainViews.
Import ProcessEmbeddings.

(** The job has reached one of the two final statuses. *)
Definition settled (j : embedding_job) : Prop :=
  job_status_of j = completed \/ job_status_of j = failed.

(** [j'] is the queue row [j] with, at most, status, retry count, error
    message and processing time changed. *)
Definition same_job (j j' : embedding_job) : Prop :=
  job_id j' = job_id j
  /\ job_table_name j' = job_table_name j
  /\ job_record_id j' = job_record_id j
  /\ job_priority j' = job_priority j.

(** [r'] is the content row [r] with, at most, the embedding changed. *)
Definition same_content {vector : Type} (r r' : @content_row vector) : Prop :=
  row_id r' = row_id r
  /\ row_text r' = row_text r
  /\ row_keywords r' = row_keywords r.

(** The table and record that a job points at. *)
Definition target (j : embedding_job) : string * uuid :=
  (job_table_name j, job_record_id j).

(** The tables for which the loop builds a text. *)
Definition known_tables : list string :=
  ["internal_resources"; "external_resources"; "policies"; "experience"; "rfps"].

(** What the store holds for a table after a drain, given what it held
    before: the same rows in the same order, each changed at most in its
    embedding, and not at all unless a job in [jobs] points at it. *)
Definition table_kept {vector : Type} (jobs : list embedding_job) (table : string)
    (before after : option (list (@content_row vector))) : Prop :=
  match before, after with
  | Some rows, Some rows' =>
      Forall2 (fun r r' =>
                 same_content r r'
                 /\ (~ In (table, row_id r) (List.map target jobs) -> r' = r))
        rows rows'
  | None, None => True
  | _, _ => False
  end.

End DrainViews.

(** ** More sample data *)
Module MoreSamples.
Import Samples.

(** The sample entries as stored rows, with their provenance. *)
Definition stored_knowledge : list (@Review.stored (list Q) (list string)) :=
  List.map (fun e =>
              (e, {| Review.pv_source_type := "validation_response";
                     Review.pv_source_id := Some 1;
                     Review.pv_created_by := Some "ai" |})) knowledge.

(** A job for a table for which the function builds no text, with the
    record in place. *)
Definition job_8 : ProcessEmbeddings.embedding_job :=
  job 8 9 "proposals" ProcessEmbeddings.pending.

Definition with_proposal : @ProcessEmbeddings.database (list nat) :=
  {| ProcessEmbeddings.embedding_queue := [job_8];
     ProcessEmbeddings.tables :=
       {[ "proposals" := [policy_row 9 "a description that is not read"] ]} |}.

(** Request 3 asks about an entry of [experience] itself. *)
Definition request_3 : Validation.validation_request :=
  {| Validation.vr_id := 3;
     Validation.vr_proposal_id := Some 50;
     Validation.vr_entity_type := "experience";
     Validation.vr_entity_id := 30;
     Validation.vr_recipient_name := "Knowledge owner";
     Validation.vr_recipient_email := "knowledge@example.com";
     Validation.vr_message_id := Some "tok-3";
     Validation.vr_sent_at := Some 10;
     Validation.vr_validation_status := Some Validation.sent;
     Validation.vr_response_received_at := None;
     Validation.vr_response_data := None;
     Validation.vr_corrections_provided := None;
     Validation.vr_experience_created := Some false;
     Validation.vr_experience_id := None;
     Validation.vr_expires_at := Some 100 |}.

Definition review_inbox : @ValidationResponse.database (list nat) :=
  {| ValidationResponse.validation_requests := [request_1; request_3];
     ValidationResponse.experience_table := [] |}.

(** A form sent back with white space only in the corrections field. *)
Definition blank_correction : option string := Some "   ".

(** A text outside ASCII, by the bytes of its UTF-8 encoding. *)
Definition utf8 (bytes : list Z) : string :=
  string_of_list_ascii (List.map (fun b => ascii_of_N (Z.to_N b)) bytes).

(** U+00A0, the no-break space. *)
Definition no_break_space : string := utf8 [194; 160].

(** A form sent back with a no-break space only in the corrections field. *)
Definition no_break_correction : option string := Some no_break_space.

(** A provider that cannot be reached. *)
Definition unreachable (text : string) : Js.fetch_result (list nat) :=
  Js.FetchError "connection refused".

(** A correction with a-umlaut (C3 A4), u-umlaut (C3 BC) and e-acute
    (C3 A9), and a no-break space before the number. *)
Definition umlaut_correction : string :=
  ("Der Tarif betr" ++ utf8 [195; 164] ++ "gt" ++ no_break_space ++ "120 f"
   ++ utf8 [195; 188] ++ "r " ++ utf8 [195; 188] ++ "ber " ++ utf8 [195; 169]
   ++ "cole")%string.

(** A provider and a store whose vectors are of the kind the sample entries
    carry: every text gets the vector of the sample query. *)
Definition unit_embeddings (text : string) : Js.fetch_result (list Q) :=
  Js.Ok200 [1%Q; 0%Q].

Definition rate_inbox : @ValidationResponse.database (list Q) :=
  {| ValidationResponse.validation_requests := [request_1];
     ValidationResponse.experience_table := [] |}.

Definition budget_correction : ValidationResponse.request :=
  ValidationResponse.POST (Some "tok-1") (Some "updated") (Some "budget is 120").

(** The entry that the correction above leaves, with the id 77. *)
Definition filed_correction : @ValidationResponse.experience (list Q) :=
  ValidationResponse.correction_entry lower 77 request_1 "budget is 120" [1%Q; 0%Q].

(** The search vector of the samples: the words of the description and the
    keywords. *)
Definition lexemes (description : string) (keywords : option (list string))
    : list string :=
  String.words description ++ default [] keywords.

(** Entries awaiting review, stored in the order 3, 4, 5. *)
Definition awaiting (id : uuid) (created_at : option timestamptz)
    : @Review.stored (list Q) (list string) :=
  ({| Sql.e_id := id;
      Sql.e_description := "budget for cloud";
      Sql.e_keywords := None;
      Sql.e_entity_type := Some "general";
      Sql.e_entity_id := None;
      Sql.e_entity_name := None;
      Sql.e_confidence_score := Some (95 # 100);
      Sql.e_created_at := created_at;
      Sql.e_search_vector := ["budget"; "cloud"];
      Sql.e_embedding := None;
      Sql.e_is_validated := Some false |},
   {| Review.pv_source_type := "validation_response";
      Review.pv_source_id := Some 1;
      Review.pv_created_by := Some "ai" |}).

Definition review_backlog : list (@Review.stored (list Q) (list string)) :=
  [awaiting 3 (Some 1000); awaiting 4 (Some 2000); awaiting 5 None].

(** Open requests of proposal 50, differing in their expiry time. *)
Definition open_request (id : uuid) (expires_at : option timestamptz)
    : Validation.validation_request :=
  {| Validation.vr_id := id;
     Validation.vr_proposal_id := Some 50;
     Validation.vr_entity_type := "policy";
     Validation.vr_entity_id := 12;
     Validation.vr_recipient_name := "Policy owner";
     Validation.vr_recipient_email := "policy@example.com";
     Validation.vr_message_id := None;
     Validation.vr_sent_at := Some 10;
     Validation.vr_validation_status := Some Validation.sent;
     Validation.vr_response_received_at := None;
     Validation.vr_response_data := None;
     Validation.vr_corrections_provided := None;
     Validation.vr_experience_created := Some false;
     Validation.vr_experience_id := None;
     Validation.vr_expires_at := expires_at |}.

Definition open_requests : list Validation.validation_request :=
  [open_request 11 (Some 300); open_request 12 (Some 100); open_request 13 None].

Definition sample_proposal : Validation.proposal :=
  {| Validation.p_id := 50; Validation.p_proposal_title := "Cloud migration" |}.

(** A response with a token that no request holds. *)
Definition stray_response : ValidationResponse.request :=
  ValidationResponse.POST (Some "tok-9") (Some "approved") None.

(** The card of the samples with another corrections property. *)
Definition card_with (corrections : Js.field) : ValidationWebhook.payload :=
  {| ValidationWebhook.value :=
       Some {| ValidationWebhook.action :=
                 Some {| ValidationWebhook.verb := Some "submit_validation" |};
               ValidationWebhook.data :=
                 Some {| ValidationWebhook.validation_id := Some 2;
                         ValidationWebhook.approval_status :=
                           Js.Text "needs_discussion";
                         ValidationWebhook.corrections := corrections |} |};
     ValidationWebhook.from_user_displayName := Some "Policy owner" |}.

End MoreSamples.

(** ** Views of a validation request and of a token *)
Module ResponseViews.
Import Validation.

(** The text holds the character [/]. *)
Fixpoint has_slash (s : string) : bool :=
  match s with
  | EmptyString => false
  | String a rest => Ascii.eqb a "/" || has_slash rest
  end.

(** The columns that a response fills in. *)
Definition response_fields (vr : validation_request) :=
  (vr_validation_status vr, vr_response_received_at vr, vr_response_data vr,
   vr_corrections_provided vr).

(** The columns that link a request to the entry made from it. *)
Definition link_fields (vr : validation_request) :=
  (vr_experience_created vr, vr_experience_id vr).

(** [r'] is the request [r] with, at most, the response and link columns
    changed. *)
Definition same_request (r r' : validation_request) : Prop :=
  vr_id r' = vr_id r
  /\ vr_proposal_id r' = vr_proposal_id r
  /\ vr_entity_type r' = vr_entity_type r
  /\ vr_entity_id r' = vr_entity_id r
  /\ vr_recipient_name r' = vr_recipient_name r
  /\ vr_recipient_email r' = vr_recipient_email r
  /\ vr_message_id r' = vr_message_id r
  /\ vr_sent_at r' = vr_sent_at r
  /\ vr_expires_at r' = vr_expires_at r.

End ResponseViews.

(** * Properties *)

(** ** Lists *)
Module ListFacts.

Lemma firstn_In_inv {A : Type} (n : nat) (l : list A) (x : A) :
  In x (firstn n l) -> In x l.
Proof.
  intros Hin. rewrite <- (firstn_skipn n l). apply in_or_app. now left.
Qed.

Lemma filter_map_commute {A : Type} (p : A -> bool) (f : A -> A) (l : list A) :
  (forall x, p (f x) = p x) ->
  List.filter p (List.map f l) = List.map f (List.filter p l).
Proof.
  intros Hp. induction l as [|x l IH]; simpl; [reflexivity|].
  rewrite Hp. destruct (p x); simpl; now rewrite IH.
Qed.

Lemma single_map {A B : Type} (f : A -> B) (l : list A) :
  Js.single (List.map f l) = f <$> Js.single l.
Proof. destruct l as [|x [|y l]]; reflexivity. Qed.

Lemma single_In {A : Type} (l : list A) (x : A) : Js.single l = Some x -> In x l.
Proof.
  destruct l as [|y [|z l]]; try discriminate.
  intros H; inversion H. now left.
Qed.

Lemma Forall2_map_r {A B : Type} (P : A -> B -> Prop) (f : A -> B) (l : list A) :
  (forall x, In x l -> P x (f x)) -> Forall2 P l (List.map f l).
Proof.
  induction l as [|x l IH]; cbn; intros H; constructor; auto.
Qed.

Lemma StronglySorted_nth_error {A : Type} (R : A -> A -> Prop) (l : list A)
    (i j : nat) (a b : A) :
  StronglySorted R l -> (i < j)%nat ->
  nth_error l i = Some a -> nth_error l j = Some b -> R a b.
Proof.
  intros Hsorted. revert i j.
  induction Hsorted as [|x l Hs IH Hall]; intros i j Hij Ha Hb.
  - destruct i; discriminate.
  - destruct j as [|j]; [lia|]. cbn in Hb. destruct i as [|i].
    + cbn in Ha. inversion Ha; subst.
      rewrite List.Forall_forall in Hall. apply Hall.
      eapply nth_error_In; eauto.
    + cbn in Ha. apply (IH i j); auto. lia.
Qed.

End ListFacts.

(** ** The SQL operators *)
Module SqlFacts.
Import Sql.

Section OrderByFacts.
Context {A : Type} (ahead : A -> A -> bool).

Lemma place_perm (x : A) (l : list A) : Permutation (place ahead x l) (x :: l).
Proof.
  induction l as [|y l IH]; simpl; [reflexivity|].
  destruct (ahead y x); [|reflexivity].
  rewrite IH. apply perm_swap.
Qed.

Lemma order_by_perm (l : list A) : Permutation (order_by ahead l) l.
Proof.
  induction l as [|x l IH]; simpl; [constructor|].
  rewrite place_perm. now constructor.
Qed.

Lemma order_by_In (l : list A) (x : A) : In x (order_by ahead l) <-> In x l.
Proof.
  split; apply Permutation_in; [|symmetry]; apply order_by_perm.
Qed.

Lemma order_by_length (l : list A) : List.length (order_by ahead l) = List.length l.
Proof. apply Permutation_length, order_by_perm. Qed.

Hypothesis ahead_asym : forall x y, ahead x y = true -> ahead y x = false.
Hypothesis not_behind_trans :
  forall x y z,
    not_behind ahead x y -> not_behind ahead y z -> not_behind ahead x z.

Lemma place_sorted (x : A) (l : list A) :
  StronglySorted (not_behind ahead) l ->
  StronglySorted (not_behind ahead) (place ahead x l).
Proof.
  induction 1 as [|y l Hs IH Hall]; simpl.
  - repeat constructor.
  - destruct (ahead y x) eqn:E.
    + constructor; [exact IH|].
      rewrite List.Forall_forall in *. intros z Hz.
      apply (Permutation_in _ (place_perm x l)) in Hz.
      destruct Hz as [<-|Hz]; [now apply ahead_asym | now apply Hall].
    + constructor; [now constructor|].
      constructor; [exact E|].
      rewrite List.Forall_forall in *. intros z Hz.
      apply (not_behind_trans x y z); [exact E | now apply Hall].
Qed.

Lemma order_by_sorted (l : list A) :
  StronglySorted (not_behind ahead) (order_by ahead l).
Proof.
  induction l as [|x l IH]; simpl; [constructor | now apply place_sorted].
Qed.

End OrderByFacts.

Section Stability.
Context {A : Type} (ahead : A -> A -> bool) (same : A -> bool).
(** Rows picked by [same] are never strictly ahead of one another. *)
Hypothesis same_tied : forall x y, same x = true -> same y = true -> ahead y x = false.

Lemma place_filter (x : A) (l : list A) :
  List.filter same (place ahead x l) = List.filter same (x :: l).
Proof.
  induction l as [|y l IH]; [reflexivity|].
  cbn [place]. destruct (ahead y x) eqn:E; [|reflexivity].
  cbn [List.filter] in *. rewrite IH.
  destruct (same x) eqn:Ex, (same y) eqn:Ey; try reflexivity.
  rewrite (same_tied x y Ex Ey) in E. discriminate.
Qed.

Lemma order_by_stable (l : list A) :
  List.filter same (order_by ahead l) = List.filter same l.
Proof.
  induction l as [|x l IH]; [reflexivity|].
  cbn [order_by fold_right]. rewrite place_filter.
  cbn [List.filter]. fold (order_by ahead l). now rewrite IH.
Qed.

End Stability.

Section RowNumberFacts.
Context {A : Type}.

Lemma number_from_fst (k : Z) (l : list A) : List.map fst (number_from k l) = l.
Proof.
  revert k; induction l as [|x l IH]; intros k; simpl; [reflexivity|].
  now rewrite IH.
Qed.

Lemma number_from_snd (k : Z) (l : list A) :
  List.map snd (number_from k l)
  = List.map (fun i => k + Z.of_nat i) (seq 0 (List.length l)).
Proof.
  revert k; induction l as [|x l IH]; intros k; simpl; [reflexivity|].
  f_equal; [lia|].
  rewrite IH, <- seq_shift, List.map_map.
  apply List.map_ext. intros i. lia.
Qed.

Lemma number_from_In (k : Z) (l : list A) (x : A) (r : Z) :
  In (x, r) (number_from k l) -> In x l /\ k <= r.
Proof.
  revert k; induction l as [|y l IH]; intros k; simpl; [tauto|].
  intros [E|H].
  - inversion E; subst. split; [now left | lia].
  - apply IH in H. split; [tauto | lia].
Qed.


End RowNumberFacts.

Section JoinFacts.
Context {A B : Type} (on : A -> B -> bool).

Lemma full_outer_join_In (l : list A) (r : list B) (oa : option A) (ob : option B) :
  In (oa, ob) (full_outer_join on l r) <->
     (exists a b, oa = Some a /\ ob = Some b /\ In a l /\ In b r /\ on a b = true)
  \/ (exists a, oa = Some a /\ ob = None /\ In a l
                /\ forall b, In b r -> on a b = false)
  \/ (exists b, oa = None /\ ob = Some b /\ In b r
                /\ forall a, In a l -> on a b = false).
Proof.
  unfold full_outer_join. rewrite in_app_iff, !in_flat_map. split.
  - intros [(a & Ha & Hin)|(b & Hb & Hin)].
    + destruct (List.filter (on a) r) as [|b0 bs] eqn:E.
      * destruct Hin as [Hin|[]]. inversion Hin; subst.
        right; left. exists a. repeat split; auto.
        intros b Hb. destruct (on a b) eqn:Eb; [|reflexivity].
        assert (In b (List.filter (on a) r)) by (apply filter_In; auto).
        rewrite E in H. destruct H.
      * apply in_map_iff in Hin as (b & Hb & Hin). inversion Hb; subst.
        rewrite <- E in Hin. apply filter_In in Hin as [? ?].
        left. exists a, b. auto.
    + destruct (existsb (fun a => on a b) l) eqn:E; [destruct Hin|].
      destruct Hin as [Hin|[]]. inversion Hin; subst.
      right; right. exists b. repeat split; auto.
      intros a Ha. destruct (on a b) eqn:Eb; [|reflexivity].
      assert (existsb (fun a => on a b) l = true)
        by (apply existsb_exists; eauto).
      congruence.
  - intros [(a & b & -> & -> & Ha & Hb & Hab)
           |[(a & -> & -> & Ha & Hno)|(b & -> & -> & Hb & Hno)]].
    + left. exists a. split; [exact Ha|].
      assert (Hf : In b (List.filter (on a) r)) by (apply filter_In; auto).
      destruct (List.filter (on a) r) as [|b0 bs] eqn:E; [destruct Hf|].
      apply in_map_iff. exists b. auto.
    + left. exists a. split; [exact Ha|].
      destruct (List.filter (on a) r) as [|b0 bs] eqn:E; [now left|].
      assert (Hf : In b0 (List.filter (on a) r)) by (rewrite E; now left).
      apply filter_In in Hf as [Hb0 Hon]. rewrite (Hno _ Hb0) in Hon. discriminate.
    + right. exists b. split; [exact Hb|].
      destruct (existsb (fun a => on a b) l) eqn:E; [|now left].
      apply existsb_exists in E as (a & Ha & Hon).
      rewrite (Hno _ Ha) in Hon. discriminate.
Qed.

End JoinFacts.

Lemma limit_Rows {A : Type} (n : Z) (l rows : list A) :
  limit n l = Rows rows -> 0 <= n /\ rows = firstn (Z.to_nat n) l.
Proof.
  unfold limit. destruct (n <? 0) eqn:E; [discriminate|].
  intros H; inversion H. split; [lia | reflexivity].
Qed.

Lemma limit_total {A : Type} (n : Z) (l : list A) :
  0 <= n -> limit n l = Rows (firstn (Z.to_nat n) l).
Proof.
  intros H. unfold limit. destruct (n <? 0) eqn:E; [lia | reflexivity].
Qed.

Lemma Qlt_bool_iff (x y : Q) : Qlt_bool x y = true <-> (x < y)%Q.
Proof.
  unfold Qlt_bool. rewrite negb_true_iff, <- not_true_iff_false, Qle_bool_iff.
  split; [apply Qnot_le_lt | apply Qlt_not_le].
Qed.

Lemma Qlt_bool_false_iff (x y : Q) : Qlt_bool x y = false <-> (y <= x)%Q.
Proof.
  unfold Qlt_bool. rewrite negb_false_iff. apply Qle_bool_iff.
Qed.

End SqlFacts.

(** ** Rank fusion over any pair of branches *)
Module FusionFacts.
Import Sql SqlFacts RankerSpec.

Lemma StronglySorted_impl {A : Type} (R R' : A -> A -> Prop) (l : list A) :
  (forall a b, R a b -> R' a b) -> StronglySorted R l -> StronglySorted R' l.
Proof.
  intros HR. induction 1 as [|x l Hs IH Hall]; constructor; [exact IH|].
  eapply List.Forall_impl; [|exact Hall]. intros b. apply HR.
Qed.

Lemma find_unique {A : Type} (key : A -> uuid) (l : list A) (x : A) :
  List.NoDup (List.map key l) -> In x l ->
  List.find (fun y => key y =? key x) l = Some x.
Proof.
  induction l as [|y l IH]; simpl; [tauto|].
  intros Hnd [->|Hin].
  - now rewrite Z.eqb_refl.
  - inversion Hnd as [|? ? Hy Hnd']; subst.
    destruct (key y =? key x) eqn:E; [|now apply IH].
    apply Z.eqb_eq in E. exfalso. apply Hy. rewrite E.
    apply in_map_iff. now exists x.
Qed.

Lemma find_absent {A : Type} (key : A -> uuid) (l : list A) (i : uuid) :
  (forall y, In y l -> (key y =? i) = false) ->
  List.find (fun y => key y =? i) l = None.
Proof.
  induction l as [|y l IH]; simpl; [reflexivity|].
  intros H. rewrite (H y) by now left. apply IH. intros; apply H. now right.
Qed.

Lemma NoDup_flat_map_key {A B K : Type} (key : A -> K) (key' : B -> K)
    (g : A -> list B) (l : list A) :
  (forall a b, In a l -> In b (g a) -> key' b = key a) ->
  (forall a, In a l -> (List.length (g a) <= 1)%nat) ->
  List.NoDup (List.map key l) -> List.NoDup (List.map key' (flat_map g l)).
Proof.
  induction l as [|a l IH]; simpl; [constructor|].
  intros Hkey Hlen Hnd. inversion Hnd as [|? ? Ha Hnd']; subst.
  assert (IH' : List.NoDup (List.map key' (flat_map g l))).
  { apply IH; auto. }
  rewrite List.map_app.
  pose proof (Hlen a (or_introl eq_refl)) as Hl.
  pose proof (Hkey a) as Hk.
  destruct (g a) as [|b [|b' rest]]; simpl in *; [exact IH'| |lia].
  constructor; [|exact IH'].
  rewrite (Hk b) by auto.
  intros Hin. apply Ha.
  apply in_map_iff in Hin as (b' & Hb' & Hin).
  apply in_flat_map in Hin as (a' & Ha' & Hin).
  rewrite (Hkey a' b') in Hb' by auto. rewrite <- Hb'.
  apply in_map_iff. now exists a'.
Qed.

Lemma NoDup_map_filter {A K : Type} (key : A -> K) (f : A -> bool) (l : list A) :
  List.NoDup (List.map key l) -> List.NoDup (List.map key (List.filter f l)).
Proof.
  induction l as [|x l IH]; simpl; [constructor|].
  intros Hnd. inversion Hnd as [|? ? Hx Hnd']; subst.
  destruct (f x); simpl; [constructor|]; auto.
  intros Hin. apply Hx.
  apply in_map_iff in Hin as (y & Hy & Hin).
  apply filter_In in Hin as [Hin _].
  apply in_map_iff. now exists y.
Qed.

Lemma partners_at_most_one {A : Type} (key : A -> uuid) (i : uuid) (l : list A) :
  List.NoDup (List.map key l) ->
  (List.length (List.filter (fun b => (i =? key b)%Z) l) <= 1)%nat.
Proof.
  intros Hnd.
  pose proof (NoDup_map_filter key (fun b => i =? key b) l Hnd) as Hf.
  assert (Hall : forall b, In b (List.filter (fun b => i =? key b) l) -> key b = i).
  { intros b Hb. apply filter_In in Hb as [_ Hb]. symmetry. now apply Z.eqb_eq. }
  destruct (List.filter (fun b => i =? key b) l) as [|x [|y rest]];
    simpl; [lia|lia|].
  exfalso. simpl in Hf. inversion Hf as [|? ? Hx _]; subst.
  apply Hx. left. rewrite (Hall x), (Hall y); simpl; auto.
Qed.

Lemma rrf_fused_score (a b : option Z) : (rrf a b == fused_score a b)%Q.
Proof.
  assert (E : forall r : option Z,
             (coalesce_lit (reciprocal r) 0 == contribution r)%Q).
  { intros [r|]; simpl; [|reflexivity].
    unfold K. rewrite inject_Z_plus. reflexivity. }
  unfold rrf, fused_score. now rewrite !E.
Qed.

Section Fusion.
Context {H M : Type}.
Variable hit_id : H -> uuid.
Variable hit_rank : H -> Z.
Variable id_of : M -> option uuid.
Variable score_of : M -> Q.
Variable fuse : option H * option H -> M.

Hypothesis fuse_id :
  forall ss fts, id_of (fuse (ss, fts)) = coalesce (hit_id <$> ss) (hit_id <$> fts).
Hypothesis fuse_score :
  forall ss fts, score_of (fuse (ss, fts)) = rrf (hit_rank <$> ss) (hit_rank <$> fts).

Abbreviation on := (Views.on_id hit_id).
Abbreviation ahead := (fun y x : M => Qlt_bool (score_of x) (score_of y)).
Abbreviation joined := (Views.joined hit_id fuse).

Lemma ahead_asym (x y : M) : ahead x y = true -> ahead y x = false.
Proof.
  rewrite Qlt_bool_iff, Qlt_bool_false_iff. apply Qlt_le_weak.
Qed.

Lemma ahead_trans (x y z : M) :
  not_behind ahead x y -> not_behind ahead y z -> not_behind ahead x z.
Proof.
  unfold not_behind. rewrite !Qlt_bool_false_iff.
  intros Hxy Hyz. now apply Qle_trans with (score_of y).
Qed.

Lemma ranked_sorted (l : list M) : sorted_desc score_of (order_by ahead l).
Proof.
  unfold sorted_desc.
  apply StronglySorted_impl with (R := not_behind ahead).
  - intros a b. unfold not_behind. now rewrite Qlt_bool_false_iff.
  - apply order_by_sorted; [exact ahead_asym | exact ahead_trans].
Qed.

Lemma joined_In (ss fts : list H) (m : M) :
  In m (joined ss fts) ->
     (exists a b, m = fuse (Some a, Some b) /\ In a ss /\ In b fts
                  /\ hit_id a = hit_id b)
  \/ (exists a, m = fuse (Some a, None) /\ In a ss
                /\ forall b, In b fts -> (hit_id b =? hit_id a) = false)
  \/ (exists b, m = fuse (None, Some b) /\ In b fts
                /\ forall a, In a ss -> (hit_id a =? hit_id b) = false).
Proof.
  unfold Views.joined. rewrite in_map_iff. intros ([oa ob] & <- & Hin).
  apply full_outer_join_In in Hin
    as [(a & b & -> & -> & Ha & Hb & Hab)
       |[(a & -> & -> & Ha & Hno)|(b & -> & -> & Hb & Hno)]].
  - left. exists a, b. repeat split; auto. now apply Z.eqb_eq.
  - right; left. exists a. repeat split; auto.
    intros b Hb. rewrite Z.eqb_sym. now apply Hno.
  - right; right. exists b. repeat split; auto.
Qed.

Lemma joined_score (ss fts : list H) (m : M) :
  List.NoDup (List.map hit_id ss) -> List.NoDup (List.map hit_id fts) ->
  In m (joined ss fts) ->
  exists i, id_of m = Some i
            /\ (score_of m == fused_score (rank_branch hit_id hit_rank ss i)
                                (rank_branch hit_id hit_rank fts i))%Q.
Proof.
  intros Hss Hfts Hin. unfold rank_branch.
  apply joined_In in Hin
    as [(a & b & -> & Ha & Hb & Hab)|[(a & -> & Ha & Hno)|(b & -> & Hb & Hno)]].
  - exists (hit_id a). rewrite fuse_id, fuse_score. split; [reflexivity|].
    rewrite (find_unique hit_id ss a Hss Ha).
    rewrite Hab, (find_unique hit_id fts b Hfts Hb).
    apply rrf_fused_score.
  - exists (hit_id a). rewrite fuse_id, fuse_score. split; [reflexivity|].
    rewrite (find_unique hit_id ss a Hss Ha).
    rewrite (find_absent hit_id fts (hit_id a) Hno).
    apply rrf_fused_score.
  - exists (hit_id b). rewrite fuse_id, fuse_score. split; [reflexivity|].
    rewrite (find_absent hit_id ss (hit_id b) Hno).
    rewrite (find_unique hit_id fts b Hfts Hb).
    apply rrf_fused_score.
Qed.

Lemma joined_covers (ss fts : list H) (i : uuid) :
  In i (List.map hit_id ss) \/ In i (List.map hit_id fts)
  <-> In (Some i) (List.map id_of (joined ss fts)).
Proof.
  split.
  - intros Hi.
    assert (Hss : In i (List.map hit_id ss)
                  \/ (~ In i (List.map hit_id ss) /\ In i (List.map hit_id fts))).
    { destruct (in_dec Z.eq_dec i (List.map hit_id ss)); tauto. }
    clear Hi. unfold Views.joined. rewrite List.map_map.
    apply in_map_iff.
    destruct Hss as [Hi|[Hno Hi]]; apply in_map_iff in Hi as (h & <- & Hh).
    + destruct (List.filter (on h) fts) as [|b bs] eqn:E.
      * exists (Some h, None). rewrite fuse_id. split; [reflexivity|].
        apply full_outer_join_In. right; left. exists h. repeat split; auto.
        intros b Hb. destruct (on h b) eqn:Eb; [|reflexivity].
        assert (Hf : In b (List.filter (on h) fts)) by (apply filter_In; auto).
        rewrite E in Hf. destruct Hf.
      * assert (Hf : In b (List.filter (on h) fts)) by (rewrite E; now left).
        apply filter_In in Hf as [Hb Hon].
        exists (Some h, Some b). rewrite fuse_id. split; [reflexivity|].
        apply full_outer_join_In. left. exists h, b. auto.
    + exists (None, Some h). rewrite fuse_id. split; [reflexivity|].
      apply full_outer_join_In. right; right. exists h. repeat split; auto.
      intros a Ha. unfold Views.on_id. apply Z.eqb_neq. intros Heq. apply Hno.
      rewrite <- Heq. apply in_map_iff. now exists a.
  - intros Hin. apply in_map_iff in Hin as (m & Hm & Hin).
    apply joined_In in Hin
      as [(a & b & -> & Ha & Hb & Hab)|[(a & -> & Ha & Hno)|(b & -> & Hb & Hno)]];
      rewrite fuse_id in Hm; simpl in Hm; inversion Hm; subst.
    + left. apply in_map_iff. now exists a.
    + left. apply in_map_iff. now exists a.
    + right. apply in_map_iff. now exists b.
Qed.

Lemma joined_NoDup (ss fts : list H) :
  List.NoDup (List.map hit_id ss) -> List.NoDup (List.map hit_id fts) ->
  List.NoDup (List.map id_of (joined ss fts)).
Proof.
  intros Hss Hfts. unfold Views.joined, full_outer_join.
  rewrite List.map_map, List.map_app. apply List.NoDup_app.
  - apply NoDup_flat_map_key with (key := fun a => Some (hit_id a)).
    + intros a j _ Hj.
      destruct (List.filter (on a) fts) as [|b bs].
      * destruct Hj as [<-|[]]. now rewrite fuse_id.
      * apply in_map_iff in Hj as (b' & <- & _). now rewrite fuse_id.
    + intros a _.
      pose proof (partners_at_most_one hit_id (hit_id a) fts Hfts) as Hl.
      change (fun b => hit_id a =? hit_id b) with (on a) in Hl.
      destruct (List.filter (on a) fts) as [|b bs]; simpl in *; [lia|].
      rewrite List.length_map. exact Hl.
    + rewrite <- (List.map_map hit_id Some).
      apply NoDup_map_NoDup_ForallPairs; [|exact Hss].
      intros x y _ _ E. now inversion E.
  - apply NoDup_flat_map_key with (key := fun b => Some (hit_id b)).
    + intros b j _ Hj.
      destruct (existsb (fun a => on a b) ss); [destruct Hj|].
      destruct Hj as [<-|[]]. now rewrite fuse_id.
    + intros b _. destruct (existsb (fun a => on a b) ss); simpl; lia.
    + rewrite <- (List.map_map hit_id Some).
      apply NoDup_map_NoDup_ForallPairs; [|exact Hfts].
      intros x y _ _ E. now inversion E.
  - intros i Hl Hr.
    apply in_map_iff in Hl as (j & Hj & Hl).
    apply in_flat_map in Hl as (a & Ha & Hl).
    assert (Hi : i = Some (hit_id a)).
    { destruct (List.filter (on a) fts) as [|b0 bs].
      - destruct Hl as [<-|[]]. now rewrite fuse_id in Hj.
      - apply in_map_iff in Hl as (b' & <- & _). now rewrite fuse_id in Hj. }
    apply in_map_iff in Hr as (j' & Hj' & Hr).
    apply in_flat_map in Hr as (b & Hb & Hr).
    destruct (existsb (fun a => on a b) ss) eqn:E; [destruct Hr|].
    destruct Hr as [<-|[]]. rewrite fuse_id in Hj'. simpl in Hj'.
    subst i. inversion Hj' as [Heq].
    assert (existsb (fun a => on a b) ss = true); [|congruence].
    apply existsb_exists. exists a. split; [exact Ha|].
    unfold Views.on_id. apply Z.eqb_eq. congruence.
Qed.

End Fusion.

End FusionFacts.

(** ** The hybrid search functions *)
Module RankerFacts.
Import Sql ListFacts SqlFacts RankerSpec FusionFacts.

Lemma NoDup_key_inj {A : Type} (key : A -> uuid) (l : list A) (x y : A) :
  List.NoDup (List.map key l) -> In x l -> In y l -> key x = key y -> x = y.
Proof.
  induction l as [|z l IH]; simpl; [tauto|].
  intros Hnd Hx Hy E. inversion Hnd as [|? ? Hz Hnd']; subst.
  destruct Hx as [->|Hx], Hy as [->|Hy]; auto.
  - exfalso. apply Hz. rewrite E. apply in_map_iff. now exists y.
  - exfalso. apply Hz. rewrite <- E. apply in_map_iff. now exists x.
Qed.

(** A branch is built in three steps: the rows the WHERE clause keeps, the
    window order, the numbering. *)
Section Branch.
Context {E Hit : Type}.
Variable row_key : E -> uuid.
Variable hit_key : Hit -> uuid.
Variable keep : E -> list (E * Q).
Variable ahead : E * Q -> E * Q -> bool.
Variable mk : E * Q * Z -> Hit.

Hypothesis mk_key : forall e d k, hit_key (mk (e, d, k)) = row_key e.
Hypothesis keep_self : forall e x, In x (keep e) -> fst x = e.
Hypothesis keep_one : forall e, (List.length (keep e) <= 1)%nat.

Abbreviation branch := (Views.branch keep ahead mk).

Lemma branch_keys (tbl : list E) :
  Permutation (List.map hit_key (branch tbl))
    (List.map (fun x => row_key (fst x)) (flat_map keep tbl)).
Proof.
  unfold branch, row_number.
  rewrite List.map_map.
  rewrite (List.map_ext (fun x => hit_key (mk x)) (fun x => row_key (fst (fst x)))).
  2:{ intros [[e d] k]. apply mk_key. }
  rewrite <- (List.map_map fst (fun x => row_key (fst x))).
  rewrite number_from_fst.
  apply Permutation_map, order_by_perm.
Qed.

Lemma branch_NoDup (tbl : list E) :
  List.NoDup (List.map row_key tbl) -> List.NoDup (List.map hit_key (branch tbl)).
Proof.
  intros Hnd.
  apply (Permutation_NoDup (Permutation_sym (branch_keys tbl))).
  apply NoDup_flat_map_key with (key := row_key); auto.
  intros e x _ Hx. now rewrite (keep_self e x Hx).
Qed.


Variable hit_rank : Hit -> Z.
Variable hit_similarity : Hit -> Q.
Hypothesis mk_rank : forall e d k, hit_rank (mk (e, d, k)) = k.
Hypothesis ahead_asym : forall x y, ahead x y = true -> ahead y x = false.
Hypothesis ahead_trans :
  forall x y z, not_behind ahead x y -> not_behind ahead y z -> not_behind ahead x z.
Hypothesis mk_similarity :
  forall x y k k', not_behind ahead x y ->
    (hit_similarity (mk (y, k')) <= hit_similarity (mk (x, k)))%Q.

Lemma branch_best_first (tbl : list E) :
  best_first hit_rank hit_similarity (branch tbl).
Proof.
  unfold best_first, Views.branch, row_number. split.
  - rewrite List.map_map, List.length_map.
    rewrite (List.map_ext (fun x => hit_rank (mk x)) snd).
    2:{ intros [[e d] k]. apply mk_rank. }
    rewrite number_from_snd.
    replace (List.length (number_from 1 (order_by ahead (flat_map keep tbl))))
      with (List.length (order_by ahead (flat_map keep tbl))).
    + reflexivity.
    + rewrite <- (List.length_map fst (number_from 1 _)).
      now rewrite number_from_fst.
  - pose proof (order_by_sorted ahead ahead_asym ahead_trans (flat_map keep tbl))
      as Hsorted.
    generalize 1 as k.
    induction Hsorted as [|x l Hs IH Hall]; intros k; cbn; constructor.
    + apply IH.
    + rewrite List.Forall_forall in *. intros h Hh.
      apply in_map_iff in Hh as ([y k'] & <- & Hy).
      apply number_from_In in Hy as [Hy _].
      apply mk_similarity. now apply Hall.
Qed.

End Branch.

Section SearchFacts.
Context {halfvec tsvector tsquery : Type}.
Variable cosine_distance : halfvec -> halfvec -> Q.
Variable websearch_to_tsquery : string -> tsquery.
Variable ts_rank : tsvector -> tsquery -> Q.
Variable ts_match : tsvector -> tsquery -> bool.

Abbreviation experience := (@Sql.experience halfvec tsvector).
Abbreviation internal_resource := (@Sql.internal_resource halfvec tsvector).
Abbreviation search_experience :=
  (Sql.search_experience cosine_distance websearch_to_tsquery ts_rank ts_match).
Abbreviation search_internal_resources :=
  (Sql.search_internal_resources cosine_distance websearch_to_tsquery ts_rank
     ts_match).
Abbreviation search_experience_query :=
  (Sql.search_experience_query cosine_distance websearch_to_tsquery ts_rank ts_match).
Abbreviation search_internal_resources_query :=
  (Sql.search_internal_resources_query cosine_distance websearch_to_tsquery ts_rank
     ts_match).
Abbreviation ranked_experience :=
  (Sql.ranked_experience cosine_distance websearch_to_tsquery ts_rank ts_match).
Abbreviation fused_experience :=
  (Sql.fused_experience cosine_distance websearch_to_tsquery ts_rank ts_match).
Abbreviation ranked_resources :=
  (Sql.ranked_resources cosine_distance websearch_to_tsquery ts_rank ts_match).
Abbreviation fused_resources :=
  (Sql.fused_resources cosine_distance websearch_to_tsquery ts_rank ts_match).
Abbreviation semantic_search := (Sql.semantic_search cosine_distance).
Abbreviation fulltext_search :=
  (Sql.fulltext_search websearch_to_tsquery ts_rank ts_match).
Abbreviation resource_semantic_search := (Sql.resource_semantic_search cosine_distance).
Abbreviation resource_fulltext_search :=
  (Sql.resource_fulltext_search websearch_to_tsquery ts_rank ts_match).




Lemma semantic_search_NoDup (tbl : list experience) q thr p :
  List.NoDup (List.map e_id tbl) ->
  List.NoDup (List.map h_id (semantic_search tbl q thr p)).
Proof.
  apply (branch_NoDup e_id h_id); [reflexivity | keeps_row_itself | keeps_row_once].
Qed.

Lemma fulltext_search_NoDup (tbl : list experience) text p :
  List.NoDup (List.map e_id tbl) ->
  List.NoDup (List.map h_id (fulltext_search tbl text p)).
Proof.
  apply (branch_NoDup e_id h_id); [reflexivity | keeps_row_itself | keeps_row_once].
Qed.

(** *** The two branches of [search_internal_resources] *)
Lemma resource_semantic_search_NoDup (tbl : list internal_resource) q thr :
  List.NoDup (List.map ir_id tbl) ->
  List.NoDup (List.map rh_id (resource_semantic_search tbl q thr)).
Proof.
  apply (branch_NoDup ir_id rh_id); [reflexivity | keeps_row_itself | keeps_row_once].
Qed.

Lemma resource_fulltext_search_NoDup (tbl : list internal_resource) text :
  List.NoDup (List.map ir_id tbl) ->
  List.NoDup (List.map rh_id (resource_fulltext_search tbl text)).
Proof.
  apply (branch_NoDup ir_id rh_id); [reflexivity | keeps_row_itself | keeps_row_once].
Qed.

Lemma Qlt_asym (x y : Q) : Qlt_bool x y = true -> Qlt_bool y x = false.
Proof. rewrite Qlt_bool_iff, Qlt_bool_false_iff. apply Qlt_le_weak. Qed.

Lemma Qle_not_behind_trans (x y z : Q) :
  Qlt_bool y x = false -> Qlt_bool z y = false -> Qlt_bool z x = false.
Proof.
  rewrite !Qlt_bool_false_iff. intros Hxy Hyz. now apply Qle_trans with y.
Qed.

Lemma semantic_search_best_first (tbl : list experience) q thr p :
  best_first h_rank h_similarity (semantic_search tbl q thr p).
Proof.
  apply (branch_best_first _ (fun y x => Qlt_bool (snd y) (snd x)) _ h_rank
           h_similarity).
  - reflexivity.
  - intros x y. apply Qlt_asym.
  - intros x y z. unfold not_behind. apply Qle_not_behind_trans.
  - intros [e d] [e' d'] k k'. unfold not_behind. cbn.
    rewrite Qlt_bool_false_iff. intros Hle.
    apply Qplus_le_r. now apply Qopp_le_compat.
Qed.

Lemma fulltext_search_best_first (tbl : list experience) text p :
  best_first h_rank h_similarity (fulltext_search tbl text p).
Proof.
  apply (branch_best_first _ (fun y x => Qlt_bool (snd x) (snd y)) _ h_rank
           h_similarity).
  - reflexivity.
  - intros x y. apply Qlt_asym.
  - intros x y z. unfold not_behind. intros Hxy Hyz.
    now apply (Qle_not_behind_trans (snd z) (snd y) (snd x)).
  - intros [e d] [e' d'] k k'. unfold not_behind. cbn.
    now rewrite Qlt_bool_false_iff.
Qed.

Lemma resource_semantic_search_best_first (tbl : list internal_resource) q thr :
  best_first rh_rank rh_similarity (resource_semantic_search tbl q thr).
Proof.
  apply (branch_best_first _ (fun y x => Qlt_bool (snd y) (snd x)) _ rh_rank
           rh_similarity).
  - reflexivity.
  - intros x y. apply Qlt_asym.
  - intros x y z. unfold not_behind. apply Qle_not_behind_trans.
  - intros [e d] [e' d'] k k'. unfold not_behind. cbn.
    rewrite Qlt_bool_false_iff. intros Hle.
    apply Qplus_le_r. now apply Qopp_le_compat.
Qed.

Lemma resource_fulltext_search_best_first (tbl : list internal_resource) text :
  best_first rh_rank rh_similarity (resource_fulltext_search tbl text).
Proof.
  apply (branch_best_first _ (fun y x => Qlt_bool (snd x) (snd y)) _ rh_rank
           rh_similarity).
  - reflexivity.
  - intros x y. apply Qlt_asym.
  - intros x y z. unfold not_behind. intros Hxy Hyz.
    now apply (Qle_not_behind_trans (snd z) (snd y) (snd x)).
  - intros [e d] [e' d'] k k'. unfold not_behind. cbn.
    now rewrite Qlt_bool_false_iff.
Qed.

(** *** The fused rows *)
Lemma fuse_id ss fts : m_id (fuse (ss, fts)) = coalesce (h_id <$> ss) (h_id <$> fts).
Proof. reflexivity. Qed.

Lemma fuse_rank ss fts : m_rank (fuse (ss, fts)) = rrf (h_rank <$> ss) (h_rank <$> fts).
Proof. reflexivity. Qed.

Lemma fuse_resource_id ss fts :
  rm_id (fuse_resource (ss, fts)) = coalesce (rh_id <$> ss) (rh_id <$> fts).
Proof. reflexivity. Qed.

Lemma fuse_resource_rank ss fts :
  rm_rank (fuse_resource (ss, fts)) = rrf (rh_rank <$> ss) (rh_rank <$> fts).
Proof. reflexivity. Qed.


Lemma fused_resources_joined (tbl : list internal_resource) text q thr :
  fused_resources tbl text q thr
  = Views.joined rh_id fuse_resource (resource_semantic_search tbl q thr)
      (resource_fulltext_search tbl text).
Proof. reflexivity. Qed.


Lemma fuses_ranked {Hit M : Type} (hit_id : Hit -> uuid) (hit_rank : Hit -> Z)
    (id_of : M -> option uuid) (score_of : M -> Q)
    (fuse : option Hit * option Hit -> M) (ss fts : list Hit)
    (match_count : Z) (results : list M) :
  (forall a b, id_of (fuse (a, b)) = coalesce (hit_id <$> a) (hit_id <$> b)) ->
  (forall a b, score_of (fuse (a, b)) = rrf (hit_rank <$> a) (hit_rank <$> b)) ->
  List.NoDup (List.map hit_id ss) -> List.NoDup (List.map hit_id fts) ->
  limit match_count
    (order_by (fun y x => Qlt_bool (score_of x) (score_of y))
       (Views.joined hit_id fuse ss fts)) = Rows results ->
  fuses hit_id hit_rank id_of score_of ss fts
    (order_by (fun y x => Qlt_bool (score_of x) (score_of y))
       (Views.joined hit_id fuse ss fts))
    match_count results.
Proof.
  intros Hid Hscore Hss Hfts Hlim.
  apply limit_Rows in Hlim as [Hn ->].
  set (ahead := fun y x => Qlt_bool (score_of x) (score_of y)).
  pose proof (order_by_perm ahead (Views.joined hit_id fuse ss fts)) as Hperm.
  repeat split.
  - intros Hi. apply (joined_covers hit_id id_of fuse Hid) in Hi.
    eapply Permutation_in; [|exact Hi].
    apply Permutation_map. now symmetry.
  - intros Hi. apply (joined_covers hit_id id_of fuse Hid).
    eapply Permutation_in; [|exact Hi].
    now apply Permutation_map.
  - eapply Permutation_NoDup.
    + apply Permutation_map. symmetry. exact Hperm.
    + now apply (joined_NoDup hit_id id_of fuse Hid).
  - intros m Hm. apply (joined_score hit_id hit_rank id_of score_of fuse); auto.
    now apply (order_by_In ahead).
  - apply ranked_sorted.
  - pose proof (firstn_le_length (Z.to_nat match_count)
                  (order_by ahead (Views.joined hit_id fuse ss fts))).
    lia.
Qed.

(** *** What the functions hand back

    The fused score is [numeric] and the function declares [rank FLOAT]:
    [RETURN QUERY] raises before a row is handed back. *)
Lemma rrf_is_numeric : rrf_type = NUMERIC /\ similarity_type = FLOAT8.
Proof. split; reflexivity. Qed.

Lemma return_query_mismatch {A : Type} (returns columns : list sql_type)
    (query : query_result A) (n : nat) (r c : sql_type) :
  nth_error returns n = Some r -> nth_error columns n = Some c ->
  sql_type_eqb r c = false ->
  return_query returns columns query = Raise datatype_mismatch.
Proof.
  intros Hr Hc Hne. unfold return_query.
  assert (Hpair : In (r, c) (combine returns columns)).
  { revert columns n Hr Hc. induction returns as [|r0 returns IH];
      intros [|c0 columns] [|n] Hr Hc; try discriminate.
    - inversion Hr. inversion Hc. subst. now left.
    - right. exact (IH columns n Hr Hc). }
  assert (Hall : forallb (fun '(r, c) => sql_type_eqb r c) (combine returns columns)
                 = false).
  { apply not_true_iff_false. intros Hall.
    rewrite forallb_forall in Hall. specialize (Hall (r, c) Hpair).
    cbn in Hall. congruence. }
  now rewrite Hall.
Qed.

Lemma search_experience_raises (tbl : list experience) (query_text : string)
    (query_embedding : halfvec) (match_threshold : Q) (match_count : Z)
    (p_entity_type : option string) :
  search_experience tbl query_text query_embedding match_threshold match_count
    p_entity_type = Raise datatype_mismatch.
Proof.
  unfold Sql.search_experience.
  apply (return_query_mismatch _ _ _ 9%nat FLOAT8 NUMERIC); reflexivity.
Qed.

Lemma search_internal_resources_raises (tbl : list internal_resource)
    (query_text : string) (query_embedding : halfvec) (match_threshold : Q)
    (match_count : Z) :
  search_internal_resources tbl query_text query_embedding match_threshold
    match_count = Raise datatype_mismatch.
Proof.
  unfold Sql.search_internal_resources.
  apply (return_query_mismatch _ _ _ 5%nat FLOAT8 NUMERIC); reflexivity.
Qed.


(** C2.  Neither search function hands back a fused score: every call of
    [search_experience] and of [search_internal_resources] ends in the
    error [datatype_mismatch], because the fused score is [numeric] and the
    column is declared [FLOAT].  The queries themselves compute what the
    specification describes: each branch numbers its candidates from 1,
    best first; the score of a joined row is the sum, over the branches, of
    [1/(60 + rank)] and of nothing for an absent branch; each record of
    either branch is joined once; the rows are sorted by descending score
    and cut to [match_count]. *)
Theorem fused_rows_are_ranked_but_not_returned (tbl : list experience)
    (resources : list internal_resource)
    (query_text : string) (query_embedding : halfvec) (match_threshold : Q)
    (match_count : Z) (p_entity_type : option string) :
  (search_experience tbl query_text query_embedding match_threshold match_count
     p_entity_type = Raise datatype_mismatch
   /\ search_internal_resources resources query_text query_embedding
        match_threshold match_count = Raise datatype_mismatch)
  /\ (forall results,
        List.NoDup (List.map e_id tbl) ->
        search_experience_query tbl query_text query_embedding match_threshold
          match_count p_entity_type = Rows results ->
        best_first h_rank h_similarity
          (semantic_search tbl query_embedding match_threshold p_entity_type)
        /\ best_first h_rank h_similarity
             (fulltext_search tbl query_text p_entity_type)
        /\ fuses h_id h_rank m_id m_rank
             (semantic_search tbl query_embedding match_threshold p_entity_type)
             (fulltext_search tbl query_text p_entity_type)
             (ranked_experience tbl query_text query_embedding match_threshold
                p_entity_type)
             match_count results)
  /\ (forall resource_results,
        List.NoDup (List.map ir_id resources) ->
        search_internal_resources_query resources query_text query_embedding
          match_threshold match_count = Rows resource_results ->
        best_first rh_rank rh_similarity
          (resource_semantic_search resources query_embedding match_threshold)
        /\ best_first rh_rank rh_similarity
             (resource_fulltext_search resources query_text)
        /\ fuses rh_id rh_rank rm_id rm_rank
             (resource_semantic_search resources query_embedding match_threshold)
             (resource_fulltext_search resources query_text)
             (ranked_resources resources query_text query_embedding
                match_threshold)
             match_count resource_results).
Proof.
  split; [split; [apply search_experience_raises
                 |apply search_internal_resources_raises]|].
  split.
  - intros results Hpk Hquery. split; [|split].
    + apply semantic_search_best_first.
    + apply fulltext_search_best_first.
    + apply (fuses_ranked h_id h_rank m_id m_rank fuse); auto.
      * now apply semantic_search_NoDup.
      * now apply fulltext_search_NoDup.
  - intros resource_results Hpk Hquery. split; [|split].
    + apply resource_semantic_search_best_first.
    + apply resource_fulltext_search_best_first.
    + apply (fuses_ranked rh_id rh_rank rm_id rm_rank fuse_resource); auto.
      * now apply resource_semantic_search_NoDup.
      * now apply resource_fulltext_search_NoDup.
Qed.


End SearchFacts.

(** *** On the sample data *)
Import Samples.

Lemma knowledge_ids : List.NoDup (List.map e_id knowledge).
Proof. repeat constructor; simpl; intuition discriminate. Defined.

Lemma staff_ids : List.NoDup (List.map ir_id staff_table).
Proof. repeat constructor; simpl; intuition discriminate. Defined.

(** A call on the sample table, with a validated entry that matches the
    query text and one that is near the query vector: the query selects
    both, the function raises. *)
Example search_experience_on_the_samples :
  Samples.search_experience knowledge "budget" [1%Q; 0%Q] (6 # 10) 20 None
  = Raise datatype_mismatch
  /\ Samples.search_experience_query knowledge "budget" [1%Q; 0%Q] (6 # 10) 20 None
     = Rows sample_results
  /\ List.map m_id sample_results = [Some 2; Some 1].
Proof. repeat split. Qed.

Example search_internal_resources_on_the_samples :
  Samples.search_internal_resources staff_table "budget" [1%Q; 0%Q] (6 # 10) 20
  = Raise datatype_mismatch
  /\ Samples.search_internal_resources_query staff_table "budget" [1%Q; 0%Q]
       (6 # 10) 20
     = Rows sample_resource_results.
Proof. repeat split. Qed.

(** The error does not depend on the rows: it is raised on an empty table
    and before the limit is looked at. *)
Example search_experience_on_an_empty_table :
  Samples.search_experience [] "budget" [1%Q; 0%Q] (6 # 10) 20 None
  = Raise datatype_mismatch
  /\ Samples.search_experience knowledge "budget" [1%Q; 0%Q] (6 # 10) (-1) None
     = Raise datatype_mismatch.
Proof. split; reflexivity. Qed.

(** In the rows of the query, entry 2 (found by its vector only) and entry
    1 (found by its words only) both score [1/61] and entry 2 stands
    first: the order of tied rows is not the order of their ids. *)
Example tied_rows_of_the_query :
  ~ ties_by_id m_id m_rank sample_results.
Proof.
  intros Hties.
  specialize (Hties 0%nat 1%nat
                (List.nth 0 sample_results (fuse (None, None)))
                (List.nth 1 sample_results (fuse (None, None))) 2 1).
  assert (H21 : 2 <= 1); [|lia].
  apply Hties; try reflexivity. lia.
Qed.

(** The ORDER BY of the functions admits either order of two such rows:
    both lists are permutations of the joined rows sorted by descending
    score. *)
Example tie_order_is_open :
  let a := List.nth 0 sample_results (fuse (None, None)) in
  let b := List.nth 1 sample_results (fuse (None, None)) in
  sorted_desc m_rank [a; b] /\ sorted_desc m_rank [b; a]
  /\ Permutation [a; b] [b; a].
Proof.
  cbv zeta. split; [|split].
  - repeat constructor. vm_compute. discriminate.
  - repeat constructor. vm_compute. discriminate.
  - apply perm_swap.
Qed.

End RankerFacts.

(** ** The embedding queue drain *)
Module QueueFacts.
Import Js ListFacts ProcessEmbeddings QueueSpec Views.

Section DrainFacts.
Context {vector : Type}.
Variable openai_embeddings : string -> fetch_result vector.
Variable now : timestamptz.

Abbreviation database := (@ProcessEmbeddings.database vector).
Abbreviation content_row := (@ProcessEmbeddings.content_row vector).
Abbreviation process_job := (ProcessEmbeddings.process_job openai_embeddings now).
Abbreviation embed_record := (ProcessEmbeddings.embed_record openai_embeddings now).
Abbreviation serve := (ProcessEmbeddings.serve openai_embeddings now).
Abbreviation step := (ProcessEmbeddings.step openai_embeddings now).
Abbreviation run := (ProcessEmbeddings.run openai_embeddings now).

Abbreviation rows_of := (@Views.rows_of vector).

(** *** Queue updates leave the content alone, and conversely *)
Lemma update_jobs_tables id f (db : database) : tables (update_jobs id f db) = tables db.
Proof. reflexivity. Qed.

Lemma select_record_update_jobs table rid id f (db : database) :
  select_record table rid (update_jobs id f db) = select_record table rid db.
Proof. reflexivity. Qed.

Lemma update_embedding_queue table rid e (db : database) :
  embedding_queue (update_embedding table rid e db) = embedding_queue db.
Proof. reflexivity. Qed.

Lemma update_jobs_In id f (db : database) (j : embedding_job) :
  In j (embedding_queue (update_jobs id f db)) ->
  exists j0, In j0 (embedding_queue db)
             /\ j = (if job_id j0 =? id then f j0 else j0).
Proof.
  unfold update_jobs; simpl. rewrite in_map_iff.
  intros (j0 & <- & Hin). now exists j0.
Qed.

Lemma update_embedding_rows table rid e (db : database) :
  rows_of table (update_embedding table rid e db)
  = List.map (fun r =>
                if row_id r =? rid
                then {| row_id := row_id r;
                        row_text := row_text r;
                        row_keywords := row_keywords r;
                        row_embedding := Some e |}
                else r) (rows_of table db).
Proof.
  unfold rows_of, update_embedding; simpl.
  destruct (tables db !! table) as [rows|] eqn:E; simpl.
  - now rewrite lookup_insert_eq.
  - now rewrite E.
Qed.

(** *** What one turn of the loop does *)
Abbreviation turn_of := (Views.turn_of openai_embeddings).
Lemma embed_record_cases (job : embedding_job) (db : database) :
  embed_record job db
  = match turn_of job db with
    | Embedded _ embedding =>
        (mark_completed now (job_id job)
           (update_embedding (job_table_name job) (job_record_id job) embedding db),
         Returned tt)
    | t => (db, Thrown (default "" (error_of job t)))
    end.
Proof.
  unfold ProcessEmbeddings.embed_record, Views.turn_of.
  unfold mbind, task_bind, gets, modify, throw at 1. simpl.
  destruct (select_record (job_table_name job) (job_record_id job) db)
    as [record|]; [|reflexivity].
  destruct (String.eqb (record_text (job_table_name job) record) "");
    [reflexivity|].
  destruct (openai_embeddings (record_text (job_table_name job) record));
    reflexivity.
Qed.

Lemma process_job_cases (job : embedding_job) (db : database) :
  process_job job db
  = match turn_of job db with
    | Embedded _ embedding =>
        (mark_completed now (job_id job)
           (update_embedding (job_table_name job) (job_record_id job) embedding
              (mark_processing (job_id job) db)),
         Processed)
    | t =>
        (on_error job (default "" (error_of job t))
           (mark_processing (job_id job) db),
         Failed (default "" (error_of job t)))
    end.
Proof.
  unfold ProcessEmbeddings.process_job, claim.
  unfold mbind at 1, task_bind at 1, modify at 1.
  rewrite embed_record_cases.
  assert (E : turn_of job (mark_processing (job_id job) db) = turn_of job db)
    by reflexivity.
  rewrite E. destruct (turn_of job db); reflexivity.
Qed.

Lemma turn_of_Embedded (job : embedding_job) (db : database) record embedding :
  turn_of job db = Embedded record embedding ->
  select_record (job_table_name job) (job_record_id job) db = Some record
  /\ openai_embeddings (record_text (job_table_name job) record) = Ok200 embedding.
Proof.
  unfold Views.turn_of.
  destruct (select_record (job_table_name job) (job_record_id job) db)
    as [r|]; [|discriminate].
  destruct (String.eqb (record_text (job_table_name job) r) ""); [discriminate|].
  destruct (openai_embeddings (record_text (job_table_name job) r)) eqn:E;
    try discriminate.
  intros H; inversion H; subst. auto.
Qed.

Lemma select_record_rows table rid (db : database) :
  select_record table rid db
  = single (List.filter (fun r => row_id r =? rid) (rows_of table db)).
Proof.
  unfold select_record, Views.rows_of.
  destruct (tables db !! table); reflexivity.
Qed.

Lemma retry_count_written (job : embedding_job) :
  match job_retry_count job with
  | Some n => if n =? 0 then 0 else n
  | None => 0
  end + 1 = default 0 (job_retry_count job) + 1.
Proof.
  destruct (job_retry_count job) as [n|]; simpl; [|reflexivity].
  destruct (n =? 0) eqn:E; [apply Z.eqb_eq in E; lia | reflexivity].
Qed.

Lemma select_pending_In (db : database) (j : embedding_job) :
  In j (select_pending db) -> In j (embedding_queue db) /\ job_status_of j = pending.
Proof.
  unfold select_pending. intros Hin.
  apply firstn_In_inv in Hin.
  apply SqlFacts.order_by_In in Hin.
  apply filter_In in Hin as [Hin Hst]. split; [exact Hin|].
  destruct (job_status_of j); simpl in Hst; congruence.
Qed.

(** *** The text that is embedded *)
Lemma join_truthy_texts (fields : list (option string)) :
  join_truthy fields
  = String.concat " "
      (List.filter (fun text => negb (String.eqb text ""))
         (List.map (default "") fields)).
Proof.
  unfold join_truthy. f_equal.
  induction fields as [|[text|] fields IH]; cbn; [reflexivity| |exact IH].
  destruct (String.eqb text ""); cbn; now rewrite IH.
Qed.

Lemma record_text_current (table : string) (record : content_row) :
  record_text table record = current_text table record.
Proof.
  unfold record_text, current_text, designated_fields.
  cbn [List.find field_lists fst snd].
  repeat match goal with
         | |- context [String.eqb table ?name] => destruct (String.eqb table name)
         end;
    try (rewrite join_truthy_texts; reflexivity); try reflexivity.
  rewrite join_truthy_texts.
  cbv [snd]. cbn [List.map]. unfold field_text, default, id.
  destruct (row_keywords record); reflexivity.
Qed.

Lemma current_text_embedding (table : string) (record : content_row)
    (embedding : option vector) :
  current_text table
    {| row_id := row_id record;
       row_text := row_text record;
       row_keywords := row_keywords record;
       row_embedding := embedding |}
  = current_text table record.
Proof. reflexivity. Qed.

(** A turn of the loop that succeeds. *)
Lemma process_job_Processed (job : embedding_job) (db db' : database) :
  process_job job db = (db', Processed) ->
  exists (record : content_row) (embedding : vector),
    select_record (job_table_name job) (job_record_id job) db = Some record
    /\ openai_embeddings (current_text (job_table_name job) record) = Ok200 embedding
    /\ current_text (job_table_name job) record <> ""
    /\ select_record (job_table_name job) (job_record_id job) db'
       = Some {| row_id := row_id record;
                 row_text := row_text record;
                 row_keywords := row_keywords record;
                 row_embedding := Some embedding |}
    /\ (forall r, In r (rows_of (job_table_name job) db') ->
          row_id r = job_record_id job -> row_embedding r = Some embedding)
    /\ (forall j, In j (embedding_queue db') -> job_id j = job_id job ->
          job_status_of j = completed /\ job_processed_at j = Some now).
Proof.
  rewrite process_job_cases.
  destruct (turn_of job db) as [| | | |record embedding] eqn:Hturn;
    try (intros H; discriminate H).
  intros H.
  assert (Hdb : db' = mark_completed now (job_id job)
                        (update_embedding (job_table_name job) (job_record_id job)
                           embedding (mark_processing (job_id job) db)))
    by (inversion H; reflexivity).
  clear H.
  assert (Htext : record_text (job_table_name job) record <> "").
  { unfold Views.turn_of in Hturn.
    destruct (select_record (job_table_name job) (job_record_id job) db)
      as [r|]; [|discriminate].
    destruct (String.eqb (record_text (job_table_name job) r) "") eqn:E;
      [discriminate|].
    destruct (openai_embeddings (record_text (job_table_name job) r));
      try discriminate.
    inversion Hturn; subst. now apply String.eqb_neq. }
  apply turn_of_Embedded in Hturn as [Hrec Hemb].
  rewrite record_text_current in Hemb, Htext.
  set (upd := fun r : content_row =>
                if row_id r =? job_record_id job
                then {| row_id := row_id r;
                        row_text := row_text r;
                        row_keywords := row_keywords r;
                        row_embedding := Some embedding |}
                else r).
  assert (Hrows : rows_of (job_table_name job) db'
                  = List.map upd (rows_of (job_table_name job) db)).
  { rewrite Hdb.
    exact (update_embedding_rows (job_table_name job) (job_record_id job)
             embedding (mark_processing (job_id job) db)). }
  assert (Hupd_id : forall r, row_id (upd r) = row_id r).
  { intros r. unfold upd. destruct (row_id r =? job_record_id job); reflexivity. }
  assert (Hid : row_id record = job_record_id job).
  { rewrite select_record_rows in Hrec.
    destruct (List.filter (fun r => row_id r =? job_record_id job)
                (rows_of (job_table_name job) db)) as [|x [|y l]] eqn:E;
      try discriminate.
    inversion Hrec; subst x.
    assert (Hin : In record (List.filter (fun r => row_id r =? job_record_id job)
                               (rows_of (job_table_name job) db)))
      by (rewrite E; now left).
    apply filter_In in Hin as [_ Hin]. now apply Z.eqb_eq. }
  exists record, embedding.
  split; [exact Hrec|]. split; [exact Hemb|]. split; [exact Htext|].
  split; [|split].
  - rewrite select_record_rows, Hrows, filter_map_commute, single_map.
    + rewrite <- select_record_rows, Hrec. cbn [option_map].
      change (upd <$> Some record) with (Some (upd record)).
      unfold upd. apply Z.eqb_eq in Hid. now rewrite Hid.
    + intros x. now rewrite Hupd_id.
  - intros r Hr Hrid. rewrite Hrows in Hr.
    apply in_map_iff in Hr as (r0 & <- & _).
    rewrite Hupd_id in Hrid. unfold upd.
    apply Z.eqb_eq in Hrid. now rewrite Hrid.
  - intros j Hj Hjid. subst db'.
    apply update_jobs_In in Hj as (j0 & _ & ->).
    destruct (job_id j0 =? job_id job) eqn:E; [split; reflexivity|].
    apply Z.eqb_neq in E. contradiction.
Qed.

(** C4. When a job completes, the provider has answered for the current
    text of the target record, that is for its designated text fields as
    the store holds them in that turn of the loop, and the record is then
    stored with that answer as its vector and with its text as it was; the
    job row carries a table name and a record id and no text, so a text
    captured when the job was queued plays no part.  When the content was
    rewritten twice and two jobs for the record are in the queue, the
    second job that completes leaves the same vector, the one of the
    current text. *)
Theorem completed_job_embeds_current_text (job : embedding_job) (db db' : database)
    (record : content_row) :
  process_job job db = (db', Processed) ->
  select_record (job_table_name job) (job_record_id job) db = Some record ->
  match openai_embeddings (current_text (job_table_name job) record) with
  | Ok200 embedding =>
      let stored := {| row_id := row_id record;
                       row_text := row_text record;
                       row_keywords := row_keywords record;
                       row_embedding := Some embedding |} in
      current_text (job_table_name job) record <> ""
      /\ select_record (job_table_name job) (job_record_id job) db' = Some stored
      /\ (forall r, In r (rows_of (job_table_name job) db') ->
            row_id r = job_record_id job -> row_embedding r = Some embedding)
      /\ (forall j, In j (embedding_queue db') -> job_id j = job_id job ->
            job_status_of j = completed /\ job_processed_at j = Some now)
      /\ (forall (second : embedding_job) (db'' : database),
            job_table_name second = job_table_name job ->
            job_record_id second = job_record_id job ->
            process_job second db' = (db'', Processed) ->
            select_record (job_table_name job) (job_record_id job) db''
            = Some stored)
  | _ => False
  end.
Proof.
  intros Hjob Hrecord.
  destruct (process_job_Processed job db db' Hjob)
    as (record0 & embedding & Hrec & Hemb & Htext & Hstored & Hrows & Hqueue).
  rewrite Hrecord in Hrec. inversion Hrec; subst record0. clear Hrec.
  rewrite Hemb. cbv zeta.
  split; [exact Htext|]. split; [exact Hstored|]. split; [exact Hrows|].
  split; [exact Hqueue|].
  intros second db'' Htable Hid Hsecond.
  destruct (process_job_Processed second db' db'' Hsecond)
    as (record2 & embedding2 & Hrec2 & Hemb2 & _ & Hstored2 & _ & _).
  rewrite Htable in Hrec2, Hemb2, Hstored2. rewrite Hid in Hrec2, Hstored2.
  rewrite Hstored in Hrec2. inversion Hrec2; subst record2. clear Hrec2.
  rewrite current_text_embedding, Hemb in Hemb2.
  inversion Hemb2; subst embedding2. exact Hstored2.
Qed.

(** C6, as the code has it.  When a turn of the loop fails (the record is
    missing, its text is empty, or the provider refuses or cannot be
    reached) the job is marked failed, the error message is stored and the
    retry count becomes the count the job had when it was selected, plus
    one.  There is no maximum: the select of a drain returns pending jobs
    only, so a job that is failed when a drain selects is not selected by
    that drain, whatever its retry count. *)
Theorem failed_job_is_marked_and_left (job : embedding_job) (db db' : database)
    (message : string) :
  process_job job db = (db', Failed message) ->
  error_of job (turn_of job db) = Some message
  /\ (forall j, In j (embedding_queue db') -> job_id j = job_id job ->
        job_status_of j = failed
        /\ job_error_message j = Some message
        /\ job_retry_count j = Some (default 0 (job_retry_count job) + 1))
  /\ (forall (later : database) (j : embedding_job),
        In j (embedding_queue later) -> job_status_of j = failed ->
        ~ In j (select_pending later)).
Proof.
  rewrite process_job_cases. intros H.
  assert (Hcase : error_of job (turn_of job db) = Some message
                  /\ db' = on_error job message (mark_processing (job_id job) db)).
  { destruct (turn_of job db); inversion H; subst; split; reflexivity. }
  destruct Hcase as [Herr ->]. split; [exact Herr|]. split.
  - intros j Hj Hjid. unfold on_error in Hj.
    apply update_jobs_In in Hj as (j0 & _ & ->).
    destruct (job_id j0 =? job_id job) eqn:E.
    + simpl. rewrite retry_count_written. auto.
    + apply Z.eqb_neq in E. contradiction.
  - intros later j _ Hfailed Hsel.
    apply select_pending_In in Hsel as [_ Hpending]. congruence.
Qed.

(** Each of the failures the loop can run into ends in the [catch] block. *)
Lemma every_failure_is_caught (job : embedding_job) (db : database) (message : string) :
  error_of job (turn_of job db) = Some message ->
  snd (process_job job db) = Failed message.
Proof.
  rewrite process_job_cases.
  destruct (turn_of job db); simpl; intros H; inversion H; reflexivity.
Qed.










End DrainFacts.

(** *** On the sample data *)
Import Samples.

Lemma completed_job_embeds_current_text_sample :
  let db' := fst (Samples.process_job job_71 twice_rewritten) in
  let stored :=
    {| row_id := 9;
       row_text := {[ "policy_name" := "Travel"; "description" := "rate is 120" ]};
       row_keywords := None;
       row_embedding := Some (char_codes "Travel rate is 120") |} in
  sample_embeddings (current_text "policies" (policy_row 9 "rate is 120"))
  = Ok200 (char_codes "Travel rate is 120")
  /\ current_text "policies" (policy_row 9 "rate is 120") <> ""
  /\ select_record "policies" 9 db' = Some stored
  /\ (forall r, In r (Views.rows_of "policies" db') ->
        row_id r = 9 -> row_embedding r = Some (char_codes "Travel rate is 120"))
  /\ (forall j, In j (embedding_queue db') -> job_id j = 71 ->
        job_status_of j = completed /\ job_processed_at j = Some 5000)
  /\ (forall (second : embedding_job) (db'' : @database (list nat)),
        job_table_name second = "policies" ->
        job_record_id second = 9 ->
        Samples.process_job second db' = (db'', Processed) ->
        select_record "policies" 9 db'' = Some stored).
Proof.
  assert (Hanswer : sample_embeddings
                      (current_text "policies" (policy_row 9 "rate is 120"))
                    = Ok200 (char_codes "Travel rate is 120"))
    by (vm_compute; reflexivity).
  split; [exact Hanswer|].
  pose proof (completed_job_embeds_current_text sample_embeddings 5000 job_71
                twice_rewritten (fst (Samples.process_job job_71 twice_rewritten))
                (policy_row 9 "rate is 120")) as H.
  change (job_table_name job_71) with "policies" in H.
  change (job_record_id job_71) with 9 in H.
  change (job_id job_71) with 71 in H.
  rewrite Hanswer in H. apply H; vm_compute; reflexivity.
Defined.

(** The test of the specification: the record is rewritten twice before the
    queue is drained; both jobs complete and the vector left on the record
    is the one of the second text. *)
Example twice_rewritten_then_drained :
  snd (drain twice_rewritten) = Drained 2 0 2
  /\ List.map row_embedding (Views.rows_of "policies" (fst (drain twice_rewritten)))
     = [Some (char_codes "Travel rate is 120")].
Proof. split; vm_compute; reflexivity. Qed.

Lemma failed_job_is_marked_and_left_sample :
  Views.error_of job_7 (Views.turn_of sample_embeddings job_7 dangling)
  = Some "Record not found: policies.404"
  /\ (forall j,
        In j (embedding_queue (fst (Samples.process_job job_7 dangling))) ->
        job_id j = 7 ->
        job_status_of j = failed
        /\ job_error_message j = Some "Record not found: policies.404"
        /\ job_retry_count j = Some (default 0 (job_retry_count job_7) + 1))
  /\ (forall (later : @database (list nat)) (j : embedding_job),
        In j (embedding_queue later) -> job_status_of j = failed ->
        ~ In j (select_pending later)).
Proof.
  apply (failed_job_is_marked_and_left sample_embeddings 5000 job_7 dangling
           (fst (Samples.process_job job_7 dangling))
           "Record not found: policies.404").
  vm_compute. reflexivity.
Defined.

(** C6, as the specification words it, does not hold: after its first
    failure job 7 has retry count 1, within a budget of 3 retries, and the
    next drain does not select it. *)
Lemma failed_once_never_retried : ~ @retried_within_budget (list nat) 3.
Proof.
  intros Hretry.
  specialize (Hretry (fst (drain dangling))
                (List.nth 0 (embedding_queue (fst (drain dangling))) job_7)).
  assert (Hin : In 7 (List.map job_id (select_pending (fst (drain dangling))))).
  { apply Hretry.
    - vm_compute. now left.
    - vm_compute. reflexivity.
    - vm_compute. discriminate. }
  vm_compute in Hin. exact Hin.
Qed.

Example second_drain_finds_nothing :
  snd (drain dangling) = Drained 0 1 1
  /\ drain (fst (drain dangling)) = (fst (drain dangling), NoPendingJobs).
Proof. split; vm_compute; reflexivity. Qed.


Example overlapping_drains_trace :
  trace (ProcessEmbeddings.run sample_embeddings 5000 (overlapping_drains 1)
           (start once_rewritten))
  = [(first_drain, 71, Processed); (second_drain, 71, Processed)].
Proof. vm_compute. reflexivity. Qed.


(** With eleven pending jobs a drain selects ten and leaves the eleventh
    pending. *)
Example eleventh_job_stays_pending :
  snd (drain eleven_pending) = Drained 0 10 10
  /\ List.filter (fun j => job_status_eqb (job_status_of j) pending)
       (embedding_queue (fst (drain eleven_pending)))
     = [job 11 411 "policies" pending].
Proof. split; vm_compute; reflexivity. Qed.

(** Under the overlap the second invocation claims job 7 after the first
    has marked it failed, and runs it again; both write the retry count of
    the job as they selected it, plus one. *)
Example failed_job_run_again_under_overlap :
  let s := ProcessEmbeddings.run sample_embeddings 5000 (overlapping_drains 1)
             (start dangling) in
  List.map (fun ev => (fst (fst ev), snd (fst ev))) (trace s)
  = [(first_drain, 7); (second_drain, 7)]
  /\ List.map (fun j => (job_status_of j, job_retry_count j))
       (embedding_queue (store s))
     = [(failed, Some 1)].
Proof. split; vm_compute; reflexivity. Qed.

(** A completed job is set back to [processing] by a claim. *)
Example completed_job_claimed_again :
  List.map job_status_of (embedding_queue (fst (drain twice_rewritten)))
  = [completed; completed]
  /\ List.map job_status_of
       (embedding_queue (fst (claim job_72 (fst (drain twice_rewritten)))))
     = [completed; processing].
Proof. split; vm_compute; reflexivity. Qed.

End QueueFacts.

(** ** The validation response handler *)
Module ResponseFacts.
Import Js ListFacts Validation ValidationResponse ValidationSpec Views ResponseViews.

Lemma not_blank_truthy (text : string) :
  not_blank text = true -> truthy (Some text) = true.
Proof. destruct text; [discriminate | reflexivity]. Qed.

Lemma truthy_nonempty (tok : string) : tok <> "" -> truthy (Some tok) = true.
Proof. destruct tok; [congruence | reflexivity]. Qed.

Lemma update_where_id_In (id : uuid) f rows (r : validation_request) :
  (forall x, vr_id (f x) = vr_id x) ->
  In r (update_where_id id f rows) -> vr_id r = id ->
  exists r0, In r0 rows /\ vr_id r0 = id /\ r = f r0.
Proof.
  intros Hf Hin Hid. unfold update_where_id in Hin.
  apply in_map_iff in Hin as (r0 & Hr & Hin).
  exists r0. destruct (vr_id r0 =? id) eqn:E.
  - apply Z.eqb_eq in E. auto.
  - subst r. apply Z.eqb_neq in E. contradiction.
Qed.

Lemma update_where_id_hit (id : uuid) f rows (r0 : validation_request) :
  In r0 rows -> vr_id r0 = id -> In (f r0) (update_where_id id f rows).
Proof.
  intros Hin Hid. unfold update_where_id. apply in_map_iff.
  exists r0. apply Z.eqb_eq in Hid. now rewrite Hid.
Qed.

Section HandlerFacts.
Context {vector : Type}.
Variable openai_embeddings : string -> fetch_result vector.
Variable toLowerCase : string -> string.

Abbreviation database := (@ValidationResponse.database vector).
Abbreviation experience := (@ValidationResponse.experience vector).
Abbreviation serve := (ValidationResponse.serve openai_embeddings toLowerCase).
Abbreviation create_experience :=
  (ValidationResponse.create_experience openai_embeddings toLowerCase).
Abbreviation correction_entry := (ValidationResponse.correction_entry toLowerCase).

(** *** The POST handler, step by step *)
Lemma serve_post_resolved (now : timestamptz) (new_id : uuid) (db : database)
    (tok : string) (approval_status corrections : option string)
    (v : validation_request) :
  tok <> "" ->
  getValidationByToken tok db = Some v ->
  serve now new_id (POST (Some tok) approval_status corrections) db
  = match create_experience new_id v corrections
            (update_validation now (vr_id v) approval_status corrections db) with
    | (db', Returned _) => (db', SuccessPage)
    | (db', Thrown message) => (db', UnhandledRejection message)
    end.
Proof.
  intros Htok Hv. unfold ValidationResponse.serve, handle_post.
  rewrite (truthy_nonempty tok Htok). cbn [negb].
  unfold mbind, task_bind, gets, modify, mret, task_ret. rewrite Hv.
  destruct (create_experience new_id v corrections
              (update_validation now (vr_id v) approval_status corrections db))
    as [db' [[]|message]]; reflexivity.
Qed.

Lemma serve_post_unresolved (now : timestamptz) (new_id : uuid) (db : database)
    (tok : string) (approval_status corrections : option string) :
  getValidationByToken tok db = None ->
  serve now new_id (POST (Some tok) approval_status corrections) db
  = (db, if truthy (Some tok) then Plain 404 "Invalid or expired validation link"
         else Plain 400 "Token required").
Proof.
  intros Hv. unfold ValidationResponse.serve, handle_post.
  destruct (truthy (Some tok)); cbn [negb]; [|reflexivity].
  unfold mbind, task_bind, gets, mret, task_ret. now rewrite Hv.
Qed.

Lemma create_experience_cases (new_id : uuid) (v : validation_request)
    (corrections : option string) (db : database) :
  create_experience new_id v corrections db
  = match corrections with
    | Some text =>
        if not_blank text then
          match openai_embeddings text with
          | FetchError message => (db, Thrown message)
          | NotOk _ => (db, Returned tt)
          | Ok200 embedding =>
              if entry_accepted (correction_entry new_id v text embedding) db
              then (link_experience (vr_id v) new_id
                      {| validation_requests := validation_requests db;
                         experience_table :=
                           experience_table db
                           ++ [correction_entry new_id v text embedding] |},
                    Returned tt)
              else (db, Returned tt)
          end
        else (db, Returned tt)
    | None => (db, Returned tt)
    end.
Proof.
  unfold ValidationResponse.create_experience.
  destruct corrections as [text|]; [|reflexivity].
  destruct (not_blank text) eqn:Hblank.
  - rewrite (not_blank_truthy text Hblank). cbn [andb].
    destruct (openai_embeddings text) as [embedding| |]; try reflexivity.
    unfold mbind, task_bind, insert_experience.
    destruct (entry_accepted _ db); reflexivity.
  - rewrite andb_false_r. reflexivity.
Qed.

Lemma update_validation_entries now id a c (db : database) :
  experience_table (update_validation now id a c db) = experience_table db.
Proof.
  unfold update_validation. destruct (validation_status_in a); reflexivity.
Qed.

(** The rewriting that the first update applies to each request. *)
Lemma update_validation_rows now id a c (db : database) :
  validation_requests (update_validation now id a c db)
  = List.map
      (fun vr =>
         match validation_status_in a with
         | Some status =>
             if vr_id vr =? id
             then record_response status now c (FormSubmission a c now) vr
             else vr
         | None => vr
         end) (validation_requests db).
Proof.
  unfold update_validation. destruct (validation_status_in a); simpl.
  - reflexivity.
  - now rewrite List.map_id.
Qed.

(** The first update as a rewriting of the rows with the request's id: the
    SET list when the posted label is one of the enum, nothing when it is
    not and the statement fails. *)
Lemma update_validation_as_write now id a c (db : database) :
  validation_requests (update_validation now id a c db)
  = update_where_id id
      (match validation_status_in a with
       | Some status => record_response status now c (FormSubmission a c now)
       | None => fun r => r
       end) (validation_requests db).
Proof.
  unfold update_validation, update_where_id.
  destruct (validation_status_in a); cbn [validation_requests]; [reflexivity|].
  rewrite <- (List.map_id (validation_requests db)) at 1.
  apply List.map_ext. intros r. now destruct (vr_id r =? id).
Qed.

Lemma update_where_id_fields {F : Type} (fields : validation_request -> F)
    (id : uuid) g (rows : list validation_request) :
  (forall r, fields (g r) = fields r) ->
  List.map fields (update_where_id id g rows) = List.map fields rows.
Proof.
  intros Hg. unfold update_where_id. rewrite List.map_map.
  apply List.map_ext. intros r. destruct (vr_id r =? id); [apply Hg|reflexivity].
Qed.

(** C8, as the code has it.  For a response whose token resolves, the
    writes are separate and made in sequence.  First the status update: it
    writes the posted label, the time, the corrections and the response
    data on the request when the label is one of the enum, and nothing when
    it is not.  Then, whatever the first write did, the entry is inserted
    and the link written, together, when the corrections are not blank, the
    provider answers with a vector and the insert is accepted.  When the
    provider does not answer with a vector the store is left with the
    status update alone; when the label is not of the enum, entry and link
    are written and no status. *)
Theorem correction_writes_in_sequence (now : timestamptz) (new_id : uuid)
    (db : database) (tok : string) (approval_status corrections : option string)
    (v : validation_request) :
  tok <> "" ->
  getValidationByToken tok db = Some v ->
  let db' := fst (serve now new_id (POST (Some tok) approval_status corrections) db) in
  let status_write :=
    match validation_status_in approval_status with
    | Some status =>
        record_response status now corrections
          (FormSubmission approval_status corrections now)
    | None => fun r => r
    end in
  let rows1 := update_where_id (vr_id v) status_write (validation_requests db) in
  ((validation_requests db' = rows1 /\ experience_table db' = experience_table db)
   \/ exists text embedding,
        corrections = Some text /\ not_blank text = true
        /\ openai_embeddings text = Ok200 embedding
        /\ experience_table db'
           = experience_table db ++ [correction_entry new_id v text embedding]
        /\ validation_requests db'
           = update_where_id (vr_id v) (record_link new_id) rows1)
  /\ (forall text, corrections = Some text ->
        (forall embedding, openai_embeddings text <> Ok200 embedding) ->
        validation_requests db' = rows1
        /\ experience_table db' = experience_table db)
  /\ (forall status, validation_status_in approval_status = Some status ->
        forall r, In r (validation_requests db') -> vr_id r = vr_id v ->
          vr_validation_status r = status
          /\ vr_response_received_at r = Some now
          /\ vr_corrections_provided r = corrections)
  /\ (validation_status_in approval_status = None ->
        List.map response_fields (validation_requests db')
        = List.map response_fields (validation_requests db)).
Proof.
  intros Htok Hv. cbv zeta.
  set (status_write :=
         match validation_status_in approval_status with
         | Some status =>
             record_response status now corrections
               (FormSubmission approval_status corrections now)
         | None => fun r => r
         end).
  set (rows1 := update_where_id (vr_id v) status_write (validation_requests db)).
  set (db1 := update_validation now (vr_id v) approval_status corrections db).
  assert (Hrows1 : validation_requests db1 = rows1)
    by apply update_validation_as_write.
  assert (Hentries1 : experience_table db1 = experience_table db)
    by apply update_validation_entries.
  assert (Hcases :
            (fst (serve now new_id (POST (Some tok) approval_status corrections) db)
             = db1
             /\ (forall text embedding, corrections = Some text ->
                   not_blank text = true ->
                   openai_embeddings text = Ok200 embedding ->
                   entry_accepted (correction_entry new_id v text embedding) db1
                   = false))
            \/ exists text embedding,
                 corrections = Some text /\ not_blank text = true
                 /\ openai_embeddings text = Ok200 embedding
                 /\ fst (serve now new_id
                           (POST (Some tok) approval_status corrections) db)
                    = link_experience (vr_id v) new_id
                        {| validation_requests := validation_requests db1;
                           experience_table :=
                             experience_table db1
                             ++ [correction_entry new_id v text embedding] |}).
  { rewrite (serve_post_resolved now new_id db tok approval_status corrections v
               Htok Hv).
    rewrite create_experience_cases. fold db1.
    destruct corrections as [text|]; [|left; split; [reflexivity|discriminate]].
    destruct (not_blank text) eqn:Htext.
    2:{ left. split; [reflexivity|]. intros t e Ht. inversion Ht. congruence. }
    destruct (openai_embeddings text) as [embedding|errorText|message] eqn:Hemb.
    - destruct (entry_accepted (correction_entry new_id v text embedding) db1)
        eqn:Hacc.
      + right. exists text, embedding. auto.
      + left. split; [reflexivity|]. intros t e Ht _ He.
        inversion Ht; subst t. rewrite Hemb in He. inversion He; subst e.
        exact Hacc.
    - left. split; [reflexivity|]. intros t e Ht _ He.
      inversion Ht; subst t. congruence.
    - left. split; [reflexivity|]. intros t e Ht _ He.
      inversion Ht; subst t. congruence. }
  assert (Hshape :
            (validation_requests
               (fst (serve now new_id (POST (Some tok) approval_status corrections)
                       db)) = rows1
             /\ experience_table
                  (fst (serve now new_id
                          (POST (Some tok) approval_status corrections) db))
                = experience_table db)
            \/ exists text embedding,
                 corrections = Some text /\ not_blank text = true
                 /\ openai_embeddings text = Ok200 embedding
                 /\ experience_table
                      (fst (serve now new_id
                              (POST (Some tok) approval_status corrections) db))
                    = experience_table db
                      ++ [correction_entry new_id v text embedding]
                 /\ validation_requests
                      (fst (serve now new_id
                              (POST (Some tok) approval_status corrections) db))
                    = update_where_id (vr_id v) (record_link new_id) rows1).
  { destruct Hcases as [[-> _]|(text & embedding & Hc & Htext & Hemb & ->)].
    - left. auto.
    - right. exists text, embedding. unfold link_experience.
      cbn [validation_requests experience_table].
      rewrite Hrows1, Hentries1. auto. }
  split; [exact Hshape|]. split; [|split].
  - intros text Hc Hno.
    destruct Hshape as [Halone|(text' & embedding & Hc' & _ & Hemb & _)];
      [exact Halone|].
    rewrite Hc in Hc'. inversion Hc'; subst text'. now destruct (Hno embedding).
  - intros status Hstatus r Hr Hrid.
    assert (Hin1 : exists r1, In r1 rows1 /\ vr_id r1 = vr_id v
                              /\ vr_validation_status r = vr_validation_status r1
                              /\ vr_response_received_at r
                                 = vr_response_received_at r1
                              /\ vr_corrections_provided r
                                 = vr_corrections_provided r1).
    { destruct Hshape as [[Hrows _]|(text & embedding & _ & _ & _ & _ & Hrows)];
        rewrite Hrows in Hr.
      - exists r. auto.
      - apply update_where_id_In in Hr as (r1 & Hr1 & Hid1 & ->);
          [|reflexivity|exact Hrid].
        exists r1. auto. }
    destruct Hin1 as (r1 & Hr1 & Hid1 & -> & -> & ->).
    unfold rows1, status_write in Hr1. rewrite Hstatus in Hr1.
    apply update_where_id_In in Hr1 as (r0 & _ & _ & ->);
      [|reflexivity|exact Hid1].
    repeat split.
  - intros Hnone.
    assert (Hrows1' : List.map response_fields rows1
                      = List.map response_fields (validation_requests db)).
    { unfold rows1, status_write. rewrite Hnone.
      now apply update_where_id_fields. }
    destruct Hshape as [[-> _]|(text & embedding & _ & _ & _ & _ & ->)];
      [exact Hrows1'|].
    rewrite update_where_id_fields by reflexivity. exact Hrows1'.
Qed.

(** *** A delivery that ends in an entry *)
Lemma post_creates_entry (now : timestamptz) (new_id : uuid) (db : database)
    (tok text : string) (approval_status : option string)
    (v : validation_request) (embedding : vector) :
  tok <> "" ->
  getValidationByToken tok db = Some v ->
  not_blank text = true ->
  openai_embeddings text = Ok200 embedding ->
  entity_type_check (Some (vr_entity_type v)) = true ->
  ~ In new_id (List.map x_id (experience_table db)) ->
  serve now new_id (POST (Some tok) approval_status (Some text)) db
  = ({| validation_requests :=
          update_where_id (vr_id v) (record_link new_id)
            (validation_requests
               (update_validation now (vr_id v) approval_status (Some text) db));
        experience_table :=
          experience_table db ++ [correction_entry new_id v text embedding] |},
     SuccessPage).
Proof.
  intros Htok Hv Htext Hemb Hcheck Hfresh.
  rewrite (serve_post_resolved now new_id db tok _ _ v Htok Hv).
  rewrite create_experience_cases, Htext, Hemb.
  assert (Hacc : entry_accepted (correction_entry new_id v text embedding)
                   (update_validation now (vr_id v) approval_status (Some text) db)
                 = true).
  { unfold entry_accepted. rewrite update_validation_entries.
    cbn [correction_entry x_entity_type x_id]. rewrite Hcheck. cbn [andb].
    apply negb_true_iff, not_true_iff_false. intros Hex.
    apply existsb_exists in Hex as (x & Hx & Hid). apply Z.eqb_eq in Hid.
    apply Hfresh. rewrite <- Hid. now apply in_map. }
  rewrite Hacc. unfold link_experience.
  cbn [validation_requests experience_table].
  now rewrite update_validation_entries.
Qed.

Lemma token_resolves_after (g : validation_request -> validation_request)
    (db db' : database) (tok : string) (v : validation_request) :
  (forall r, vr_message_id (g r) = vr_message_id r) ->
  validation_requests db' = List.map g (validation_requests db) ->
  getValidationByToken tok db = Some v ->
  getValidationByToken tok db' = Some (g v).
Proof.
  intros Hg Hrows Hv. unfold getValidationByToken in *.
  rewrite Hrows, filter_map_commute, single_map, Hv; [reflexivity|].
  intros r. now rewrite Hg.
Qed.

Lemma derived_entries_app (id : uuid) (db db' : database) (rows : list experience) :
  experience_table db' = experience_table db ++ rows ->
  derived_entries id db'
  = derived_entries id db
    ++ List.filter
         (fun x =>
            String.eqb (x_source_type x) "validation_response"
            && match x_source_id x with
               | Some s => s =? id
               | None => false
               end) rows.
Proof.
  intros Hrows. unfold derived_entries. rewrite Hrows. apply List.filter_app.
Qed.

(** C3, as the code has it.  The handler finds the request by the stored
    message id and does not look at its status: when the same correction is
    delivered twice, each delivery adds an entry derived from the request,
    and the request's link moves to the later entry.  Each delivery also
    rewrites the status and the response fields when the posted label is
    one of the enum; with a label that is not, both deliveries leave status
    and response fields as they were and still add their entries. *)
Theorem duplicate_delivery_adds_second_entry (now1 now2 : timestamptz)
    (id1 id2 : uuid) (db : database) (tok text : string)
    (approval_status : option string) (v : validation_request)
    (embedding : vector) :
  tok <> "" ->
  getValidationByToken tok db = Some v ->
  not_blank text = true ->
  openai_embeddings text = Ok200 embedding ->
  entity_type_check (Some (vr_entity_type v)) = true ->
  ~ In id1 (List.map x_id (experience_table db)) ->
  ~ In id2 (List.map x_id (experience_table db)) ->
  id1 <> id2 ->
  let req := POST (Some tok) approval_status (Some text) in
  let db1 := fst (serve now1 id1 req db) in
  let db2 := fst (serve now2 id2 req db1) in
  derived_entries (vr_id v) db2
  = derived_entries (vr_id v) db
    ++ [correction_entry id1 v text embedding;
        correction_entry id2 v text embedding]
  /\ (forall r, In r (validation_requests db2) -> vr_id r = vr_id v ->
        vr_experience_id r = Some id2
        /\ forall status, validation_status_in approval_status = Some status ->
             vr_validation_status r = status
             /\ vr_response_received_at r = Some now2)
  /\ (validation_status_in approval_status = None ->
        List.map response_fields (validation_requests db2)
        = List.map response_fields (validation_requests db)).
Proof.
  intros Htok Hv Htext Hemb Hcheck Hfresh1 Hfresh2 Hne. cbv zeta.
  rewrite (post_creates_entry now1 id1 db tok text approval_status v embedding)
    by assumption.
  cbn [fst].
  set (g1 := fun vr : validation_request =>
               (fun r => if vr_id r =? vr_id v then record_link id1 r else r)
                 (match validation_status_in approval_status with
                  | Some status =>
                      if vr_id vr =? vr_id v
                      then record_response status now1 (Some text)
                             (FormSubmission approval_status (Some text) now1) vr
                      else vr
                  | None => vr
                  end)).
  set (db1 := {| validation_requests := _; experience_table := _ |}).
  assert (Hrows1 : validation_requests db1 = List.map g1 (validation_requests db)).
  { unfold db1. cbn [validation_requests].
    rewrite update_validation_rows. unfold update_where_id.
    now rewrite List.map_map. }
  assert (Hg1 : forall r, vr_message_id (g1 r) = vr_message_id r
                          /\ vr_id (g1 r) = vr_id r
                          /\ vr_entity_type (g1 r) = vr_entity_type r
                          /\ vr_entity_id (g1 r) = vr_entity_id r).
  { intros r. unfold g1.
    destruct (validation_status_in approval_status);
      destruct (vr_id r =? vr_id v) eqn:E; cbn; rewrite ?E; auto. }
  assert (Hv1 : getValidationByToken tok db1 = Some (g1 v)).
  { apply (token_resolves_after g1 db); auto. intros r. apply Hg1. }
  destruct (Hg1 v) as (_ & Hid1 & Hty1 & Hent1).
  assert (Hentry : forall id, correction_entry id (g1 v) text embedding
                              = correction_entry id v text embedding).
  { intros id. unfold correction_entry. now rewrite Hid1, Hty1, Hent1. }
  rewrite (post_creates_entry now2 id2 db1 tok text approval_status (g1 v) embedding);
    try assumption.
  2:{ now rewrite Hty1. }
  2:{ unfold db1. cbn [experience_table]. rewrite List.map_app, in_app_iff.
      cbn. intuition congruence. }
  cbn [fst]. rewrite Hentry, Hid1. split; [|split].
  - rewrite (derived_entries_app (vr_id v) db _
               [correction_entry id1 v text embedding;
                correction_entry id2 v text embedding]).
    + cbn [List.filter correction_entry x_source_type x_source_id].
      now rewrite Z.eqb_refl.
    + unfold db1. cbn [experience_table]. now rewrite <- app_assoc.
  - intros r Hr Hrid. cbn [validation_requests] in Hr.
    apply update_where_id_In in Hr as (r0 & Hr0 & Hr0id & ->);
      [|reflexivity|exact Hrid].
    split; [reflexivity|].
    intros status Hstatus. cbn [record_link vr_validation_status
                                  vr_response_received_at].
    unfold update_validation in Hr0. rewrite Hstatus in Hr0.
    cbn [validation_requests] in Hr0.
    apply update_where_id_In in Hr0 as (r1 & _ & _ & ->);
      [|reflexivity|exact Hr0id].
    split; reflexivity.
  - intros Hnone. cbn [validation_requests].
    rewrite update_where_id_fields by reflexivity.
    rewrite update_validation_as_write, Hnone.
    rewrite update_where_id_fields by reflexivity.
    unfold db1. cbn [validation_requests].
    rewrite update_where_id_fields by reflexivity.
    rewrite update_validation_as_write, Hnone.
    now rewrite update_where_id_fields by reflexivity.
Qed.

(** *** Expiry times play no part *)
Abbreviation expire := (fun f (vr : validation_request) =>
                          set_expires_at (f (vr_id vr) (vr_expires_at vr)) vr).

Lemma getValidationByToken_with_expiry f (db : database) (tok : string) :
  getValidationByToken tok (with_expiry f db)
  = expire f <$> getValidationByToken tok db.
Proof.
  unfold getValidationByToken, with_expiry. cbn [validation_requests].
  rewrite filter_map_commute, single_map; [reflexivity|].
  intros r. reflexivity.
Qed.

Lemma update_where_id_with_expiry f id g (rows : list validation_request) :
  (forall r, g (expire f r) = expire f (g r)) ->
  update_where_id id g (List.map (expire f) rows)
  = List.map (expire f) (update_where_id id g rows).
Proof.
  intros Hg. unfold update_where_id.
  rewrite !List.map_map. apply List.map_ext. intros r.
  cbn [set_expires_at vr_id].
  destruct (vr_id r =? id) eqn:E; [apply Hg | reflexivity].
Qed.

Lemma update_validation_with_expiry f now id a c (db : database) :
  update_validation now id a c (with_expiry f db)
  = with_expiry f (update_validation now id a c db).
Proof.
  unfold update_validation. destruct (validation_status_in a); [|reflexivity].
  unfold with_expiry. cbn [validation_requests experience_table].
  f_equal. now apply update_where_id_with_expiry.
Qed.

Lemma link_experience_with_expiry f id e (db : database) :
  link_experience id e (with_expiry f db) = with_expiry f (link_experience id e db).
Proof.
  unfold link_experience, with_expiry.
  cbn [validation_requests experience_table].
  f_equal. now apply update_where_id_with_expiry.
Qed.

Lemma correction_entry_set_expires new_id t (v : validation_request) text
    (embedding : vector) :
  correction_entry new_id (set_expires_at t v) text embedding
  = correction_entry new_id v text embedding.
Proof. reflexivity. Qed.

Lemma entry_accepted_with_expiry f (row : experience) (db : database) :
  entry_accepted row (with_expiry f db) = entry_accepted row db.
Proof. reflexivity. Qed.

Lemma create_experience_with_expiry f new_id (v : validation_request) c (db : database) :
  create_experience new_id (expire f v) c (with_expiry f db)
  = (with_expiry f (fst (create_experience new_id v c db)),
     snd (create_experience new_id v c db)).
Proof.
  rewrite !create_experience_cases.
  destruct c as [text|]; [|reflexivity].
  destruct (not_blank text); [|reflexivity].
  destruct (openai_embeddings text) as [embedding| |]; try reflexivity.
  rewrite correction_entry_set_expires, entry_accepted_with_expiry.
  destruct (entry_accepted (correction_entry new_id v text embedding) db);
    [|reflexivity].
  cbn [fst snd]. f_equal.
  exact (link_experience_with_expiry f (vr_id v) new_id
           {| validation_requests := validation_requests db;
              experience_table :=
                experience_table db ++ [correction_entry new_id v text embedding] |}).
Qed.

Lemma serve_post_cases (now : timestamptz) (new_id : uuid) (db : database)
    (token approval_status corrections : option string) :
  serve now new_id (POST token approval_status corrections) db
  = match token with
    | Some tok =>
        if truthy token then
          match getValidationByToken tok db with
          | Some v =>
              (fst (create_experience new_id v corrections
                      (update_validation now (vr_id v) approval_status
                         corrections db)),
               match snd (create_experience new_id v corrections
                            (update_validation now (vr_id v) approval_status
                               corrections db)) with
               | Returned _ => SuccessPage
               | Thrown message => UnhandledRejection message
               end)
          | None => (db, Plain 404 "Invalid or expired validation link")
          end
        else (db, Plain 400 "Token required")
    | None => (db, Plain 400 "Token required")
    end.
Proof.
  unfold ValidationResponse.serve, handle_post.
  destruct token as [tok|]; [|reflexivity].
  destruct (truthy (Some tok)); cbn [negb]; [|reflexivity].
  unfold mbind, task_bind, gets, modify, mret, task_ret.
  destruct (getValidationByToken tok db) as [v|]; [|reflexivity].
  destruct (create_experience new_id v corrections
              (update_validation now (vr_id v) approval_status corrections db))
    as [db' [[]|message]]; reflexivity.
Qed.

Lemma actual_status_expired (now : timestamptz) (vr : validation_request) :
  actual_status now vr = "expired"
  <-> exists t, vr_expires_at vr = Some t /\ t < now.
Proof.
  unfold actual_status. destruct (vr_expires_at vr) as [t|].
  - destruct (t <? now) eqn:E.
    + apply Z.ltb_lt in E. split; [eauto | reflexivity].
    + apply Z.ltb_ge in E. split.
      * destruct (vr_sent_at vr); discriminate.
      * intros (t' & Ht & Hlt). inversion Ht; subst. lia.
  - split.
    + destruct (vr_sent_at vr); discriminate.
    + intros (t & Ht & _). discriminate.
Qed.

Lemma active_validations_In (now : timestamptz) rows proposals (av : active_validation) :
  In av (active_validations now rows proposals) ->
  exists vr, In vr rows
             /\ awaiting_response vr = true
             /\ av_id av = vr_id vr
             /\ av_validation_status av = vr_validation_status vr
             /\ av_expires_at av = vr_expires_at vr
             /\ av_actual_status av = actual_status now vr.
Proof.
  unfold active_validations. intros Hin.
  apply SqlFacts.order_by_In in Hin.
  apply in_flat_map in Hin as (vr & Hvr & Hin).
  apply in_flat_map in Hin as (p & _ & Hin).
  destruct (vr_proposal_id vr) as [pid|]; [|destruct Hin].
  destruct ((pid =? p_id p) && awaiting_response vr) eqn:E; [|destruct Hin].
  apply andb_true_iff in E as [_ Haw].
  destruct Hin as [<-|[]]. exists vr. cbn. repeat split; assumption || reflexivity.
Qed.

(** The response handler reads neither the clock against [expires_at] nor
    [expires_at] itself: a form submission has the same effect on the
    store, and the same reply, whatever the expiry times of the stored
    requests are. *)
Lemma post_independent_of_expiry (now : timestamptz) (new_id : uuid)
    (db : database) (token approval_status corrections : option string)
    (f : uuid -> option timestamptz -> option timestamptz) :
  serve now new_id (POST token approval_status corrections) (with_expiry f db)
  = (with_expiry f
       (fst (serve now new_id (POST token approval_status corrections) db)),
     snd (serve now new_id (POST token approval_status corrections) db)).
Proof.
  rewrite !serve_post_cases.
  destruct token as [tok|]; [|reflexivity].
  destruct (truthy (Some tok)); [|reflexivity].
  rewrite getValidationByToken_with_expiry.
  destruct (getValidationByToken tok db) as [v|]; [|reflexivity].
  cbn [fmap option_fmap option_map].
  change (vr_id (expire f v)) with (vr_id v).
  rewrite update_validation_with_expiry, create_experience_with_expiry.
  reflexivity.
Qed.

Lemma update_where_id_cases (id : uuid) g rows (r' : validation_request) :
  In r' (update_where_id id g rows) ->
  exists r, In r rows /\ (r' = g r \/ r' = r).
Proof.
  unfold update_where_id. rewrite in_map_iff. intros (r & <- & Hin).
  exists r. destruct (vr_id r =? id); auto.
Qed.

Lemma serve_rows_cases (now : timestamptz) (new_id : uuid) (db : database)
    (req : request) (r' : validation_request) :
  In r' (validation_requests (fst (serve now new_id req db))) ->
  exists r, In r (validation_requests db)
            /\ (r' = r
                \/ r' = record_link new_id r
                \/ exists status a c,
                     submitted_status req = Some status
                     /\ (r' = record_response status now c (FormSubmission a c now) r
                         \/ r' = record_link new_id
                                  (record_response status now c
                                     (FormSubmission a c now) r))).
Proof.
  destruct req as [pathname|token a c|].
  - unfold ValidationResponse.serve, handle_get.
    destruct (negb (truthy (Some (last_segment pathname)))).
    + cbn. eauto.
    + unfold mbind, task_bind, gets, mret, task_ret.
      destruct (getValidationByToken (last_segment pathname) db); cbn; eauto.
  - rewrite serve_post_cases.
    destruct token as [tok|]; [|cbn; eauto].
    destruct (truthy (Some tok)); [|cbn; eauto].
    destruct (getValidationByToken tok db) as [v|]; [|cbn; eauto].
    cbn [fst]. rewrite create_experience_cases.
    set (db1 := update_validation now (vr_id v) a c db).
    assert (Hdb1 : forall r1, In r1 (validation_requests db1) ->
              exists r, In r (validation_requests db)
                        /\ (r1 = r
                            \/ exists status,
                                 validation_status_in a = Some status
                                 /\ r1 = record_response status now c
                                           (FormSubmission a c now) r)).
    { intros r1 Hr1. unfold db1, update_validation in Hr1.
      destruct (validation_status_in a) as [status|]; [|eauto].
      cbn [validation_requests] in Hr1.
      apply update_where_id_cases in Hr1 as (r & Hr & [->| ->]);
        exists r; (split; [exact Hr|]); [right; exists status|left]; auto. }
    assert (Hplain : In r' (validation_requests db1) ->
              exists r, In r (validation_requests db)
                /\ (r' = r
                    \/ r' = record_link new_id r
                    \/ exists status a0 c0,
                         submitted_status (POST (Some tok) a c) = Some status
                         /\ (r' = record_response status now c0
                                    (FormSubmission a0 c0 now) r
                             \/ r' = record_link new_id
                                      (record_response status now c0
                                         (FormSubmission a0 c0 now) r)))).
    { intros Hr'. apply Hdb1 in Hr' as (r & Hr & [->|(status & Hst & ->)]).
      - eauto.
      - exists r. split; [exact Hr|]. right; right.
        exists status, a, c. cbn. auto. }
    destruct c as [text|]; [|exact Hplain].
    destruct (not_blank text); [|exact Hplain].
    destruct (openai_embeddings text) as [embedding| |]; try exact Hplain.
    destruct (entry_accepted _ db1); [|exact Hplain].
    cbn [fst link_experience validation_requests]. intros Hr'.
    apply update_where_id_cases in Hr' as (r1 & Hr1 & Hcase).
    apply Hdb1 in Hr1 as (r & Hr & [->|(status & Hst & ->)]).
    + exists r. split; [exact Hr|]. destruct Hcase as [->| ->]; auto.
    + exists r. split; [exact Hr|]. right; right.
      exists status, a, (Some text). cbn. split; [exact Hst|].
      destruct Hcase as [->| ->]; auto.
  - cbn. eauto.
Qed.

(** C7, as the code has it.  The response handler does nothing on
    account of an expiry.  It does not read [expires_at]: a form submission
    has the same effect on the store and the same reply whatever the expiry
    times of the stored requests are, so a response that arrives after
    [expires_at] is applied like any other.  A stored request keeps its
    expiry time, and its status either stays as it was or becomes the label
    that the form submission posts, whichever label of the enum that is.  A
    response is turned away with nothing written when its token does not
    resolve to a request.  It is the [active_validations] view that reports
    a request past [expires_at] as expired, when it is read. *)
Theorem expiry_is_reported_on_read_only (now : timestamptz) (new_id : uuid)
    (db : database) (req : request) :
  (forall token approval_status corrections
          (f : uuid -> option timestamptz -> option timestamptz),
     req = POST token approval_status corrections ->
     serve now new_id req (with_expiry f db)
     = (with_expiry f (fst (serve now new_id req db)),
        snd (serve now new_id req db)))
  /\ (forall r', In r' (validation_requests (fst (serve now new_id req db))) ->
        exists r, In r (validation_requests db)
                  /\ vr_id r' = vr_id r
                  /\ vr_expires_at r' = vr_expires_at r
                  /\ (vr_validation_status r' = vr_validation_status r
                      \/ submitted_status req = Some (vr_validation_status r')))
  /\ (forall tok approval_status corrections,
        req = POST (Some tok) approval_status corrections ->
        getValidationByToken tok db = None ->
        fst (serve now new_id req db) = db
        /\ status_code (snd (serve now new_id req db)) <> 200)
  /\ (forall proposals av,
        In av (active_validations now (validation_requests db) proposals) ->
        (av_validation_status av = Some pending
         \/ av_validation_status av = Some sent)
        /\ (av_actual_status av = "expired"
            <-> exists t, av_expires_at av = Some t /\ t < now)).
Proof.
  split; [|split; [|split]].
  - intros token a c f ->. apply post_independent_of_expiry.
  - intros r' Hr'.
    apply serve_rows_cases in Hr'
      as (r & Hr & [->|[->|(status & a & c & Hst & [->| ->])]]);
      exists r; cbn; auto.
  - intros tok a c -> Hnone. rewrite serve_post_unresolved by exact Hnone.
    cbn [fst snd]. split; [reflexivity|].
    destruct (truthy (Some tok)); cbn; lia.
  - intros proposals av Hin.
    apply active_validations_In in Hin
      as (vr & _ & Haw & _ & Hst & Hexp & Hact).
    rewrite Hst, Hexp, Hact. split.
    + unfold awaiting_response in Haw.
      destruct (vr_validation_status vr) as [[]|]; try discriminate; auto.
    + apply actual_status_expired.
Qed.

End HandlerFacts.

(** *** On the sample data *)
Import Samples MoreSamples.

(** The same correction delivered twice, with the label [updated] and with
    a label that is not of the enum: two entries derived from request 1 in
    both cases, the link on the later one; the status and the response time
    are those of the second delivery in the first case, and the response
    fields are as they were in the second. *)
Lemma duplicate_delivery_adds_second_entry_sample :
  let twice label :=
    let req := POST (Some "tok-1") (Some label) (Some correction_text) in
    fst (respond 201 102 req (fst (respond 200 101 req inbox))) in
  let entries :=
    [ValidationResponse.correction_entry lower 101 request_1 correction_text
       (char_codes correction_text);
     ValidationResponse.correction_entry lower 102 request_1 correction_text
       (char_codes correction_text)] in
  (derived_entries 1 (twice "updated") = entries
   /\ forall r, In r (validation_requests (twice "updated")) -> vr_id r = 1 ->
        vr_experience_id r = Some 102
        /\ vr_validation_status r = Some updated
        /\ vr_response_received_at r = Some 201)
  /\ (derived_entries 1 (twice "maybe") = entries
      /\ (forall r, In r (validation_requests (twice "maybe")) -> vr_id r = 1 ->
            vr_experience_id r = Some 102)
      /\ List.map response_fields (validation_requests (twice "maybe"))
         = List.map response_fields (validation_requests inbox)).
Proof.
  assert (Hids : ~ In 101 (List.map x_id (experience_table inbox))
                 /\ ~ In 102 (List.map x_id (experience_table inbox)))
    by (simpl; tauto).
  destruct Hids as [H101 H102].
  pose proof (duplicate_delivery_adds_second_entry sample_embeddings lower 200 201
                101 102 inbox "tok-1" correction_text (Some "updated") request_1
                (char_codes correction_text) ltac:(discriminate) eq_refl eq_refl
                eq_refl eq_refl H101 H102 ltac:(discriminate)) as Hupdated.
  pose proof (duplicate_delivery_adds_second_entry sample_embeddings lower 200 201
                101 102 inbox "tok-1" correction_text (Some "maybe") request_1
                (char_codes correction_text) ltac:(discriminate) eq_refl eq_refl
                eq_refl eq_refl H101 H102 ltac:(discriminate)) as Hmaybe.
  cbv zeta in Hupdated, Hmaybe. cbv zeta.
  destruct Hupdated as (Hentries & Hrows & _).
  destruct Hmaybe as (Hentries' & Hrows' & Hfields).
  split; [split|split; [|split]].
  - exact Hentries.
  - intros r Hr Hid. destruct (Hrows r Hr Hid) as [Hlink Hstatus].
    destruct (Hstatus (Some updated) eq_refl) as [Hst Htime]. auto.
  - exact Hentries'.
  - intros r Hr Hid. exact (proj1 (Hrows' r Hr Hid)).
  - apply Hfields. reflexivity.
Defined.

(** C3, as the specification words it, does not hold: the same correction
    delivered twice leaves two entries derived from request 1. *)
Lemma second_delivery_is_not_idempotent :
  ~ idempotent_delivery sample_embeddings lower.
Proof.
  intros Hidem.
  specialize (Hidem inbox 200 201 101 102 (Some "tok-1") (Some "updated")
                (Some correction_text) "tok-1" request_1
                eq_refl eq_refl eq_refl).
  vm_compute in Hidem. lia.
Qed.

(** The same correction delivered twice with a label that is not of the
    enum: two entries, the link on the later one, and the status and
    response fields of request 1 as they were. *)
Example duplicate_delivery_with_unknown_label :
  let req := POST (Some "tok-1") (Some "maybe") (Some correction_text) in
  let db2 := fst (respond 201 102 req (fst (respond 200 101 req inbox))) in
  List.map x_id (derived_entries 1 db2) = [101; 102]
  /\ List.map vr_experience_id (validation_requests db2) = [Some 102]
  /\ List.map response_fields (validation_requests db2)
     = List.map response_fields (validation_requests inbox).
Proof. repeat split. Qed.

(** Request 1 expired at time 100.  The correction that arrives at time
    200 has the effect and the reply it would have with any other expiry
    time; a response with a token that no request holds is turned away and
    writes nothing. *)
Lemma expiry_is_reported_on_read_only_sample :
  respond 200 101 correction (Views.with_expiry (fun _ _ => Some 1000) inbox)
  = (Views.with_expiry (fun _ _ => Some 1000)
       (fst (respond 200 101 correction inbox)),
     snd (respond 200 101 correction inbox))
  /\ fst (respond 200 101 stray_response inbox) = inbox
  /\ status_code (snd (respond 200 101 stray_response inbox)) <> 200.
Proof.
  split.
  - apply (proj1 (expiry_is_reported_on_read_only sample_embeddings lower 200 101
                    inbox correction)
             (Some "tok-1") (Some "updated") (Some "rate is actually 120")).
    reflexivity.
  - apply (proj1 (proj2 (proj2 (expiry_is_reported_on_read_only sample_embeddings
                                  lower 200 101 inbox stray_response)))
             "tok-9" (Some "approved") None); reflexivity.
Defined.

(** C7, as the specification words it, does not hold: request 1 expired at
    time 100 with no response recorded; the correction that arrives at time
    200 is applied and answered with the success page. *)
Lemma late_response_is_applied : ~ late_response_rejected sample_embeddings lower.
Proof.
  intros Hlate.
  destruct (Hlate inbox 200 101 (Some "updated") (Some correction_text) "tok-1"
              request_1 100 eq_refl eq_refl ltac:(lia) eq_refl) as [_ Hreply].
  apply Hreply. reflexivity.
Qed.

Example late_response_outcome :
  List.map vr_validation_status
    (validation_requests (fst (respond 200 101 correction inbox))) = [Some updated]
  /\ List.map x_id (experience_table (fst (respond 200 101 correction inbox))) = [101]
  /\ snd (respond 200 101 correction inbox) = SuccessPage.
Proof. repeat split. Qed.

(** A form that posts the label [expired] stores it. *)
Example posted_label_expired :
  List.map vr_validation_status
    (validation_requests
       (fst (respond 50 101 (POST (Some "tok-1") (Some "expired") None) inbox)))
  = [Some expired].
Proof. reflexivity. Qed.

(** The view shows request 1 as expired at time 200, its stored status
    still being [sent]. *)
Example expired_in_view_only :
  List.map (fun av => (av_validation_status av, av_actual_status av))
    (active_validations 200 [request_1]
       [{| p_id := 50; p_proposal_title := "Proposal" |}])
  = [(Some sent, "expired")].
Proof. reflexivity. Qed.

(** While the provider is down the correction leaves the status update
    alone: request 1 is [updated], with the response time and the
    corrections, and there is neither entry nor link.  With a label that
    is not of the enum the correction leaves entry 101 and its link, and
    the response fields as they were. *)
Lemma correction_writes_in_sequence_sample :
  let outage := fst (respond 200 101 correction_during_outage inbox) in
  let unknown :=
    fst (respond 200 101
           (POST (Some "tok-1") (Some "maybe") (Some correction_text)) inbox) in
  (validation_requests outage
   = update_where_id 1
       (record_response (Some updated) 200 (Some "unavailable")
          (FormSubmission (Some "updated") (Some "unavailable") 200))
       (validation_requests inbox)
   /\ experience_table outage = experience_table inbox)
  /\ (forall r, In r (validation_requests outage) -> vr_id r = 1 ->
        vr_validation_status r = Some updated
        /\ vr_response_received_at r = Some 200
        /\ vr_corrections_provided r = Some "unavailable")
  /\ List.map response_fields (validation_requests unknown)
     = List.map response_fields (validation_requests inbox)
  /\ (exists text embedding,
        Some correction_text = Some text /\ not_blank text = true
        /\ sample_embeddings text = Ok200 embedding
        /\ experience_table unknown
           = experience_table inbox
             ++ [ValidationResponse.correction_entry lower 101 request_1 text
                   embedding]
        /\ validation_requests unknown
           = update_where_id 1 (record_link 101) (validation_requests inbox)).
Proof.
  pose proof (correction_writes_in_sequence sample_embeddings lower 200 101 inbox
                "tok-1" (Some "updated") (Some "unavailable") request_1
                ltac:(discriminate) eq_refl) as Houtage.
  pose proof (correction_writes_in_sequence sample_embeddings lower 200 101 inbox
                "tok-1" (Some "maybe") (Some correction_text) request_1
                ltac:(discriminate) eq_refl) as Hunknown.
  cbv zeta in Houtage, Hunknown. cbv zeta.
  destruct Houtage as (_ & Halone & Hstatus & _).
  destruct Hunknown as (Hcase & _ & _ & Hfields).
  split; [|split; [|split]].
  - apply (Halone "unavailable" eq_refl). intros embedding. discriminate.
  - exact (Hstatus (Some updated) eq_refl).
  - apply Hfields. reflexivity.
  - destruct Hcase as [[_ Hentries]|Hentry].
    + exfalso. vm_compute in Hentries. discriminate.
    + exact Hentry.
Defined.

Example status_alone_during_outage :
  List.map response_fields
    (validation_requests (fst (respond 200 101 correction_during_outage inbox)))
  = [(Some updated, Some 200,
      Some (FormSubmission (Some "updated") (Some "unavailable") 200),
      Some "unavailable")]
  /\ experience_table (fst (respond 200 101 correction_during_outage inbox)) = []
  /\ List.map link_fields
       (validation_requests (fst (respond 200 101 correction_during_outage inbox)))
     = [(Some false, None)].
Proof. repeat split. Qed.

(** With a label that is not of the enum the first write fails and the
    other two are made: entry 101 and its link, and no status. *)
Example entry_and_link_without_status :
  let db' := fst (respond 200 101
                    (POST (Some "tok-1") (Some "maybe") (Some correction_text))
                    inbox) in
  List.map response_fields (validation_requests db')
  = List.map response_fields (validation_requests inbox)
  /\ List.map x_id (experience_table db') = [101]
  /\ List.map link_fields (validation_requests db') = [(Some true, Some 101)].
Proof. repeat split. Qed.

(** C8, as the specification words it, does not hold: while the provider
    is down, the correction updates the status of request 1 and creates
    neither entry nor link. *)
Lemma status_without_entry : ~ atomic_correction sample_embeddings lower.
Proof.
  intros Hatomic.
  destruct (Hatomic inbox 200 101 (Some "updated") "unavailable" "tok-1" request_1
              eq_refl eq_refl ltac:(discriminate) ltac:(discriminate))
    as [[Hentry _]|[_ [Hstatus _]]].
  - unfold entry_created in Hentry. vm_compute in Hentry. lia.
  - apply Hstatus. unfold status_recorded.
    eexists. split; [left; reflexivity|]. split; reflexivity.
Qed.

End ResponseFacts.

(** ** The Teams webhook *)
Module WebhookFacts.
Import Js Validation ValidationWebhook ResponseFacts.

Lemma status_written_other (approval_status : field) :
  approval_status <> Text "approved" -> approval_status <> Text "rejected" ->
  status_written approval_status = updated.
Proof.
  intros Ha Hr. unfold status_written.
  destruct approval_status as [| |s]; try reflexivity.
  destruct (String.eqb s "approved") eqn:E1.
  { apply String.eqb_eq in E1. congruence. }
  destruct (String.eqb s "rejected") eqn:E2.
  { apply String.eqb_eq in E2. congruence. }
  reflexivity.
Qed.

Lemma serve_submission (now : timestamptz) (p : payload) (s : submission)
    (rows : list validation_request) :
  (value p ≫= action) ≫= verb = Some "submit_validation" ->
  value p ≫= data = Some s ->
  fst (serve now (Some p) rows) = fst (update_validation now p s rows).
Proof.
  intros Hverb Hdata. unfold serve, handle. cbn [validateTeamsWebhook negb].
  rewrite Hverb, Hdata. cbn [String.eqb Ascii.eqb Bool.eqb].
  destruct (update_validation now p s rows) as [rows' [validation|]]; reflexivity.
Qed.

(** C10. In the Teams webhook a [submit_validation] submission whose
    [approval_status] is neither ['approved'] nor ['rejected'] (any other
    text, [null], or no such property) sets the status of the request it
    names to [updated], whatever status the request had and whatever its
    corrections property holds: with a text (the empty one included) or
    [null] the corrections column is set to it, with no such property the
    column keeps what it held. *)
Theorem other_answers_mark_updated (now : timestamptz) (p : payload)
    (s : submission) (rows : list validation_request) (vr : validation_request) :
  (value p ≫= action) ≫= verb = Some "submit_validation" ->
  value p ≫= data = Some s ->
  approval_status s <> Text "approved" ->
  approval_status s <> Text "rejected" ->
  validation_id s = Some (vr_id vr) ->
  In vr rows ->
  let rows' := fst (serve now (Some p) rows) in
  (forall r, In r rows' -> vr_id r = vr_id vr ->
     vr_validation_status r = Some updated)
  /\ (exists r, In r rows' /\ vr_id r = vr_id vr
                /\ vr_validation_status r = Some updated
                /\ vr_response_received_at r = Some now
                /\ vr_corrections_provided r
                   = match corrections s with
                     | Missing => vr_corrections_provided vr
                     | Null => None
                     | Text text => Some text
                     end)
  /\ In (record_response (Some updated) now
           (corrections_written (corrections s) vr)
           (TeamsSubmission (approval_status s) (corrections s) (responded_by p) now)
           vr) rows'.
Proof.
  intros Hverb Hdata Ha Hr Hid Hin. cbv zeta.
  rewrite (serve_submission now p s rows Hverb Hdata).
  unfold update_validation. rewrite Hid. cbn [fst].
  assert (Hrow : In (record_response (Some updated) now
                       (corrections_written (corrections s) vr)
                       (TeamsSubmission (approval_status s) (corrections s)
                          (responded_by p) now) vr)
                   (update_where_id (vr_id vr) (card_response now p s) rows)).
  { rewrite <- (status_written_other _ Ha Hr).
    now apply (update_where_id_hit (vr_id vr) (card_response now p s) rows vr). }
  split; [|split; [|exact Hrow]].
  - intros r Hr' Hrid.
    apply update_where_id_In in Hr' as (r0 & _ & _ & ->);
      [|reflexivity|exact Hrid].
    cbn. now rewrite (status_written_other _ Ha Hr).
  - eexists. split; [exact Hrow|]. cbn. repeat split.
Qed.

(** *** On the sample data *)
Import Samples MoreSamples.

(** The card names request 2, which was approved with a note.  Without a
    corrections property the request becomes [updated] and keeps the note;
    with empty corrections it becomes [updated] and the column holds the
    empty text. *)
Lemma other_answers_mark_updated_sample :
  let absent := fst (serve 300 (Some card) [request_2]) in
  let empty := fst (serve 300 (Some (card_with (Text ""))) [request_2]) in
  ((forall r, In r absent -> vr_id r = 2 -> vr_validation_status r = Some updated)
   /\ In (record_response (Some updated) 300 (Some "see section 4")
            (TeamsSubmission (Text "needs_discussion") Missing "Policy owner" 300)
            request_2) absent)
  /\ ((forall r, In r empty -> vr_id r = 2 -> vr_validation_status r = Some updated)
      /\ In (record_response (Some updated) 300 (Some "")
               (TeamsSubmission (Text "needs_discussion") (Text "") "Policy owner"
                  300)
               request_2) empty).
Proof.
  pose proof (other_answers_mark_updated 300 card undecided [request_2] request_2
                eq_refl eq_refl ltac:(discriminate) ltac:(discriminate) eq_refl
                ltac:(now left)) as Habsent.
  pose proof (other_answers_mark_updated 300 (card_with (Text ""))
                {| validation_id := Some 2;
                   approval_status := Text "needs_discussion";
                   corrections := Text "" |}
                [request_2] request_2
                eq_refl eq_refl ltac:(discriminate) ltac:(discriminate) eq_refl
                ltac:(now left)) as Hempty.
  cbv zeta in Habsent, Hempty. cbv zeta.
  destruct Habsent as (Hall & _ & Hrow). destruct Hempty as (Hall' & _ & Hrow').
  split; split; assumption.
Defined.

Example approved_request_becomes_updated :
  List.map vr_validation_status [request_2] = [Some approved]
  /\ List.map vr_validation_status (fst (serve 300 (Some card) [request_2]))
     = [Some updated]
  /\ snd (serve 300 (Some card) [request_2]) = Recorded.
Proof. repeat split. Qed.

(** The corrections column after a card with a text, with the empty text,
    with [null] and without the property. *)
Example corrections_column_by_card :
  List.map
    (fun c =>
       List.map vr_corrections_provided
         (fst (serve 300 (Some (card_with c)) [request_2])))
    [Text "use section 5"; Text ""; Null; Missing]
  = [[Some "use section 5"]; [Some ""]; [None]; [Some "see section 4"]].
Proof. reflexivity. Qed.

End WebhookFacts.

(** ** The review queue *)
Module ReviewFacts.
Import Sql ListFacts SqlFacts Review.

Lemma newer_asym (a b : option timestamptz) : newer a b = true -> newer b a = false.
Proof.
  destruct a as [ta|], b as [tb|]; cbn; try congruence.
  intros H. apply Z.ltb_lt in H. apply Z.ltb_ge. lia.
Qed.

Lemma not_newer_trans (a b c : option timestamptz) :
  newer b a = false -> newer c b = false -> newer c a = false.
Proof.
  destruct a as [ta|], b as [tb|], c as [tc|]; cbn; try congruence.
  rewrite !Z.ltb_ge. lia.
Qed.

Section Queue.
Context {halfvec tsvector : Type}.

Abbreviation stored := (@Review.stored halfvec tsvector).

Lemma awaiting_review_iff (row : stored) :
  awaiting_review row = true <-> e_is_validated (fst row) = Some false.
Proof.
  unfold awaiting_review.
  destruct (e_is_validated (fst row)) as [[|]|]; cbn; split; congruence.
Qed.

Lemma pending_reviews_In (tbl : list stored) (pr : pending_review) :
  In pr (pending_reviews tbl)
  <-> exists row, In row tbl /\ e_is_validated (fst row) = Some false
                  /\ pr = review_row row.
Proof.
  unfold pending_reviews. rewrite in_map_iff. split.
  - intros (row & <- & Hin). apply order_by_In, filter_In in Hin as [Hin Haw].
    exists row. rewrite <- awaiting_review_iff. auto.
  - intros (row & Hin & Hflag & ->). exists row. split; [reflexivity|].
    apply order_by_In, filter_In. rewrite awaiting_review_iff. auto.
Qed.

(** X6. The [pending_reviews] view lists exactly the stored entries whose
    [is_validated] is false, one row per stored row, newest first: of two
    rows the one listed first has no creation time, or both have one and
    that of the first is not the earlier. *)
Theorem pending_reviews_lists_unvalidated_newest_first (tbl : list stored) :
  (forall pr, In pr (pending_reviews tbl)
              <-> exists row, In row tbl /\ e_is_validated (fst row) = Some false
                              /\ pr = review_row row)
  /\ List.length (pending_reviews tbl)
     = List.length (List.filter awaiting_review tbl)
  /\ (forall (i j : nat) (a b : pending_review),
        (i < j)%nat ->
        nth_error (pending_reviews tbl) i = Some a ->
        nth_error (pending_reviews tbl) j = Some b ->
        match pr_created_at a, pr_created_at b with
        | Some ta, Some tb => tb <= ta
        | Some _, None => False
        | None, _ => True
        end).
Proof.
  split; [apply pending_reviews_In|]. split.
  - unfold pending_reviews. now rewrite List.length_map, order_by_length.
  - assert (Hsorted : StronglySorted
                        (fun a b => newer (pr_created_at b) (pr_created_at a) = false)
                        (pending_reviews tbl)).
    { unfold pending_reviews.
      set (ahead := fun y x : stored =>
                      newer (e_created_at (fst y)) (e_created_at (fst x))).
      assert (Hrows : StronglySorted (not_behind ahead)
                        (order_by ahead (List.filter awaiting_review tbl))).
      { apply order_by_sorted.
        - intros x y. apply newer_asym.
        - intros x y z. unfold not_behind, ahead. apply not_newer_trans. }
      change (StronglySorted
                (fun a b => newer (pr_created_at b) (pr_created_at a) = false)
                (List.map review_row
                   (order_by ahead (List.filter awaiting_review tbl)))).
      induction Hrows as [|row l Hs IH Hall]; cbn; constructor; [exact IH|].
      rewrite List.Forall_forall in *. intros pr Hpr.
      apply in_map_iff in Hpr as (row' & <- & Hrow').
      specialize (Hall row' Hrow'). unfold not_behind, ahead in Hall.
      destruct row as [e pv], row' as [e' pv']. exact Hall. }
    intros i j a b Hij Ha Hb.
    pose proof (StronglySorted_nth_error _ _ i j a b Hsorted Hij Ha Hb) as Horder.
    cbv beta in Horder. unfold newer in Horder.
    destruct (pr_created_at a) as [ta|], (pr_created_at b) as [tb|];
      try exact I; try discriminate.
    apply Z.ltb_ge in Horder. exact Horder.
Qed.

End Queue.

(** *** On the sample data *)
Import Samples MoreSamples.

Example sample_review_queue :
  List.map pr_id (pending_reviews stored_knowledge) = [3].
Proof. reflexivity. Qed.

(** Three entries awaiting review, created at times 1000 and 2000 and
    without a creation time: the view lists the one without time first,
    then the later one. *)
Example review_queue_order :
  List.map (fun pr => (pr_id pr, pr_created_at pr)) (pending_reviews review_backlog)
  = [(5, None); (4, Some 2000); (3, Some 1000)].
Proof. reflexivity. Qed.

End ReviewFacts.

(** ** More on the embedding queue drain *)
Module DrainMore.
Import Js ListFacts SqlFacts ProcessEmbeddings Views DrainViews QueueFacts.

Lemma StronglySorted_app_inv {A : Type} (R : A -> A -> Prop) (l1 l2 : list A) :
  StronglySorted R (l1 ++ l2) ->
  StronglySorted R l1 /\ forall x y, In x l1 -> In y l2 -> R x y.
Proof.
  induction l1 as [|a l1 IH]; cbn; intros Hs.
  - split; [constructor | intros x y []].
  - inversion Hs as [|? ? Hs' Hall]; subst.
    destruct (IH Hs') as [Hl1 Hcross].
    rewrite List.Forall_forall in Hall. split.
    + constructor; [exact Hl1|]. rewrite List.Forall_forall.
      intros x Hx. apply Hall, in_or_app. now left.
    + intros x y [<-|Hx] Hy; [|now apply Hcross].
      apply Hall, in_or_app. now right.
Qed.

Section Drain.
Context {vector : Type}.
Variable openai_embeddings : string -> fetch_result vector.
Variable now : timestamptz.

Abbreviation database := (@ProcessEmbeddings.database vector).
Abbreviation content_row := (@ProcessEmbeddings.content_row vector).
Abbreviation process_job := (ProcessEmbeddings.process_job openai_embeddings now).
Abbreviation run_jobs := (ProcessEmbeddings.run_jobs openai_embeddings now).
Abbreviation serve := (ProcessEmbeddings.serve openai_embeddings now).
Abbreviation turn_of := (Views.turn_of openai_embeddings).

(** *** The selection *)
Lemma priority_asym (x y : embedding_job) :
  (job_priority x <? job_priority y) = true ->
  (job_priority y <? job_priority x) = false.
Proof. rewrite Z.ltb_lt, Z.ltb_ge. lia. Qed.

Lemma priority_trans (x y z : embedding_job) :
  (job_priority y <? job_priority x) = false ->
  (job_priority z <? job_priority y) = false ->
  (job_priority z <? job_priority x) = false.
Proof. rewrite !Z.ltb_ge. lia. Qed.

(** X8. A drain selects pending jobs only, at most ten of them, in
    ascending order of priority; every pending job that it leaves out has a
    priority value that is not below that of any selected job. *)
Theorem drain_selects_lowest_priorities (db : database) :
  (forall j, In j (select_pending db) ->
     In j (embedding_queue db) /\ job_status_of j = pending)
  /\ (List.length (select_pending db) <= 10)%nat
  /\ StronglySorted (fun a b => job_priority a <= job_priority b) (select_pending db)
  /\ (forall j j', In j (select_pending db) ->
        In j' (embedding_queue db) -> job_status_of j' = pending ->
        ~ In j' (select_pending db) ->
        job_priority j <= job_priority j').
Proof.
  split; [apply select_pending_In|]. split; [apply firstn_le_length|].
  unfold select_pending.
  set (ahead := fun y x : embedding_job => job_priority y <? job_priority x).
  set (pend := List.filter (fun j => job_status_eqb (job_status_of j) pending)
                 (embedding_queue db)).
  assert (Hsorted : StronglySorted (Sql.not_behind ahead) (Sql.order_by ahead pend)).
  { apply order_by_sorted.
    - intros x y. apply priority_asym.
    - intros x y z. apply priority_trans. }
  rewrite <- (firstn_skipn 10 (Sql.order_by ahead pend)) in Hsorted.
  apply StronglySorted_app_inv in Hsorted as [Hfirst Hcross].
  split.
  - eapply FusionFacts.StronglySorted_impl; [|exact Hfirst].
    intros a b. unfold Sql.not_behind, ahead. rewrite Z.ltb_ge. lia.
  - intros j j' Hj Hj' Hpending Hout.
    assert (Hin : In j' (Sql.order_by ahead pend)).
    { apply order_by_In, filter_In. split; [exact Hj'|]. now rewrite Hpending. }
    rewrite <- (firstn_skipn 10 (Sql.order_by ahead pend)) in Hin.
    apply in_app_or in Hin as [Hin|Hin]; [contradiction|].
    specialize (Hcross j j' Hj Hin). unfold Sql.not_behind, ahead in Hcross.
    apply Z.ltb_ge in Hcross. lia.
Qed.

(** *** The queue after one turn, after the loop *)
Lemma process_job_queue (job : embedding_job) (db : database) :
  exists F : embedding_job -> embedding_job,
    embedding_queue (fst (process_job job db)) = List.map F (embedding_queue db)
    /\ (forall j, same_job j (F j))
    /\ (forall j, job_id j <> job_id job -> F j = j)
    /\ (forall j, job_id j = job_id job -> settled (F j)).
Proof.
  rewrite process_job_cases.
  set (upd := fun (f : embedding_job -> embedding_job) (j : embedding_job) =>
                if job_id j =? job_id job then f j else j).
  assert (Hcases :
    (exists f, (forall j, same_job j (f j)) /\ (forall j, settled (f j))
               /\ embedding_queue
                    (fst match turn_of job db with
                         | Embedded _ embedding =>
                             (mark_completed now (job_id job)
                                (update_embedding (job_table_name job)
                                   (job_record_id job) embedding
                                   (mark_processing (job_id job) db)), Processed)
                         | t =>
                             (on_error job (default "" (error_of job t))
                                (mark_processing (job_id job) db),
                              Failed (default "" (error_of job t)))
                         end)
                  = List.map (upd f) (embedding_queue db))).
  { destruct (turn_of job db) as [| | | |record embedding];
      [eexists (fun j => {| job_id := job_id j; job_status_of := failed |})
      |eexists (fun j => {| job_id := job_id j; job_status_of := failed |})
      |eexists (fun j => {| job_id := job_id j; job_status_of := failed |})
      |eexists (fun j => {| job_id := job_id j; job_status_of := failed |})
      |eexists (fun j => {| job_id := job_id j; job_status_of := completed |})];
      (split; [intros j; repeat split; reflexivity|]);
      (split; [intros j; unfold settled; cbn; auto|]);
      cbn [fst]; unfold on_error, mark_failed, mark_completed, mark_processing,
        update_jobs, update_embedding; cbn [embedding_queue];
      rewrite List.map_map; apply List.map_ext; intros j; unfold upd;
      destruct (job_id j =? job_id job) eqn:E; cbn [job_id]; rewrite ?E;
      reflexivity. }
  destruct Hcases as (f & Hsame & Hsettled & Hq).
  exists (upd f). split; [exact Hq|]. unfold upd. repeat split.
  - destruct (job_id j =? job_id job); [apply Hsame | reflexivity].
  - destruct (job_id j =? job_id job); [apply Hsame | reflexivity].
  - destruct (job_id j =? job_id job); [apply Hsame | reflexivity].
  - destruct (job_id j =? job_id job); [apply Hsame | reflexivity].
  - intros j Hne. apply Z.eqb_neq in Hne. now rewrite Hne.
  - intros j Heq. apply Z.eqb_eq in Heq. rewrite Heq. apply Hsettled.
Qed.

Lemma run_jobs_queue (jobs : list embedding_job) (db : database) (t : tally) :
  exists F : embedding_job -> embedding_job,
    embedding_queue (fst (run_jobs jobs db t)) = List.map F (embedding_queue db)
    /\ (forall j, same_job j (F j))
    /\ (forall j, ~ In (job_id j) (List.map job_id jobs) -> F j = j)
    /\ (forall j, In (job_id j) (List.map job_id jobs) -> settled (F j)).
Proof.
  revert db t. induction jobs as [|job rest IH]; intros db t.
  - exists (fun j => j). cbn. rewrite List.map_id.
    repeat split; auto. intros j [].
  - cbn [ProcessEmbeddings.run_jobs].
    destruct (process_job_queue job db) as (F1 & Hq1 & Hsame1 & Hother1 & Hdone1).
    destruct (process_job job db) as [db1 outcome] eqn:Hturn. cbn [fst] in Hq1.
    assert (Hrest : exists t', run_jobs (job :: rest) db t = run_jobs rest db1 t').
    { cbn [ProcessEmbeddings.run_jobs]. rewrite Hturn. destruct outcome; eauto. }
    destruct Hrest as (t' & Hrest). cbn [ProcessEmbeddings.run_jobs] in Hrest.
    rewrite Hturn in Hrest. rewrite Hrest.
    destruct (IH db1 t') as (F2 & Hq2 & Hsame2 & Hother2 & Hdone2).
    exists (fun j => F2 (F1 j)). split; [|split; [|split]].
    + rewrite Hq2, Hq1, List.map_map. reflexivity.
    + intros j. destruct (Hsame1 j) as (H1 & H2 & H3 & H4).
      destruct (Hsame2 (F1 j)) as (G1 & G2 & G3 & G4).
      unfold same_job. repeat split; congruence.
    + intros j Hout. cbn in Hout.
      rewrite (Hother1 j) by (intros E; apply Hout; left; congruence).
      apply Hother2. intros Hin. apply Hout. now right.
    + intros j Hin. cbn in Hin.
      destruct (in_dec Z.eq_dec (job_id j) (List.map job_id rest)) as [Hr|Hr].
      * apply Hdone2. destruct (Hsame1 j) as (E & _). now rewrite E.
      * destruct Hin as [Heq|Hin]; [|contradiction].
        rewrite Hother2.
        -- apply Hdone1. congruence.
        -- destruct (Hsame1 j) as (E & _). now rewrite E.
Qed.

Lemma run_jobs_tally (jobs : list embedding_job) (db : database) (t : tally) :
  let t' := snd (run_jobs jobs db t) in
  processed t <= processed t' /\ failed_count t <= failed_count t'
  /\ processed t' + failed_count t'
     = processed t + failed_count t + Z.of_nat (List.length jobs)
  /\ (processed t' = processed t ->
      tables (fst (run_jobs jobs db t)) = tables db).
Proof.
  revert db t. induction jobs as [|job rest IH]; intros db t; cbv zeta.
  - cbn. repeat split; auto; lia.
  - cbn [ProcessEmbeddings.run_jobs List.length].
    pose proof (process_job_cases openai_embeddings now job db) as Hcases.
    destruct (process_job job db) as [db1 [|message]] eqn:Hturn.
    + specialize (IH db1 {| processed := processed t + 1;
                            failed_count := failed_count t |}).
      cbv zeta in IH. cbn [processed failed_count] in IH.
      destruct IH as (H1 & H2 & H3 & H4). repeat split; try lia.
    + specialize (IH db1 {| processed := processed t;
                            failed_count := failed_count t + 1 |}).
      cbv zeta in IH. cbn [processed failed_count] in IH.
      destruct IH as (H1 & H2 & H3 & H4). repeat split; try lia.
      intros Hsame. rewrite (H4 Hsame).
      destruct (turn_of job db); inversion Hcases; reflexivity.
Qed.


Lemma serve_queue (db : database) :
  exists F : embedding_job -> embedding_job,
    embedding_queue (fst (serve db)) = List.map F (embedding_queue db)
    /\ (forall j, same_job j (F j))
    /\ (forall j, ~ In (job_id j) (List.map job_id (select_pending db)) -> F j = j)
    /\ (forall j, In (job_id j) (List.map job_id (select_pending db)) ->
         settled (F j)).
Proof.
  assert (Hrun : exists t, fst (serve db)
                           = fst (run_jobs (select_pending db) db t)).
  { unfold ProcessEmbeddings.serve.
    destruct (select_pending db) as [|job rest] eqn:Hsel.
    - exists {| processed := 0; failed_count := 0 |}. reflexivity.
    - exists {| processed := 0; failed_count := 0 |}.
      now destruct (run_jobs (job :: rest) db _). }
  destruct Hrun as (t & ->).
  apply run_jobs_queue.
Qed.

(** X10. A drain leaves the queue row for row: each row keeps its id,
    table, record and priority; a row whose id is not the id of a selected
    job is not changed at all; a row whose id is the id of a selected job
    ends completed or failed, never pending or processing. *)
Theorem drain_settles_selected_jobs_only (db : database) :
  Forall2
    (fun j j' =>
       same_job j j'
       /\ (~ In (job_id j) (List.map job_id (select_pending db)) -> j' = j)
       /\ (In (job_id j) (List.map job_id (select_pending db)) -> settled j'))
    (embedding_queue db) (embedding_queue (fst (serve db))).
Proof.
  destruct (serve_queue db) as (F & -> & Hsame & Hother & Hdone).
  apply Forall2_map_r. intros j _. auto.
Qed.

Lemma firstn_short {A : Type} (n : nat) (l : list A) :
  (List.length l <= n)%nat -> firstn n l = l.
Proof. apply firstn_all2. Qed.

(** X11. When at most ten jobs are pending, one drain takes them all: no
    job is pending afterwards, and a drain that follows at once reports
    that there are no pending jobs. *)
Theorem short_queue_is_drained_at_once (db : database) :
  (List.length
     (List.filter (fun j => job_status_eqb (job_status_of j) pending)
        (embedding_queue db)) <= 10)%nat ->
  (forall j, In j (embedding_queue (fst (serve db))) -> job_status_of j <> pending)
  /\ snd (serve (fst (serve db))) = NoPendingJobs.
Proof.
  intros Hshort.
  assert (Hall : forall j, In j (embedding_queue db) -> job_status_of j = pending ->
                   In (job_id j) (List.map job_id (select_pending db))).
  { intros j Hj Hp. apply in_map. unfold select_pending.
    rewrite firstn_short by (now rewrite order_by_length).
    apply order_by_In, filter_In. split; [exact Hj|]. now rewrite Hp. }
  assert (Hnone : forall j, In j (embedding_queue (fst (serve db))) ->
                    job_status_of j <> pending).
  { destruct (serve_queue db) as (F & Hq & _ & Hkeep & Hdone).
    intros j' Hj'. rewrite Hq in Hj'.
    apply in_map_iff in Hj' as (j & <- & Hj).
    destruct (in_dec Z.eq_dec (job_id j) (List.map job_id (select_pending db)))
      as [Hsel|Hout].
    - destruct (Hdone j Hsel) as [E|E]; rewrite E; discriminate.
    - rewrite (Hkeep j Hout). intros Hp. apply Hout. now apply Hall. }
  split; [exact Hnone|].
  unfold ProcessEmbeddings.serve at 1.
  destruct (select_pending (fst (serve db))) as [|j rest] eqn:Hsel; [reflexivity|].
  exfalso.
  assert (Hj : In j (select_pending (fst (serve db)))) by (rewrite Hsel; now left).
  apply select_pending_In in Hj as [Hj Hp]. now apply (Hnone j Hj).
Qed.

Lemma table_kept_refl (jobs : list embedding_job) (table : string)
    (rows : option (list content_row)) :
  table_kept jobs table rows rows.
Proof.
  destruct rows as [rows|]; cbn; [|exact I].
  induction rows as [|r rows IH]; constructor; auto.
  split; [repeat split|]; reflexivity.
Qed.

Lemma table_kept_trans (jobs jobs' : list embedding_job) (table : string)
    (a b c : option (list content_row)) :
  table_kept jobs table a b -> table_kept jobs' table b c ->
  table_kept (jobs ++ jobs') table a c.
Proof.
  destruct a as [ra|], b as [rb|], c as [rc|]; cbn; try tauto.
  intros Hab. revert rc.
  induction Hab as [|x y la lb [(I1 & T1 & K1) Hx] _ IH]; intros rc Hbc.
  - inversion Hbc. constructor.
  - inversion Hbc as [|y' z lb' lc [(I2 & T2 & K2) Hy] Hrest]; subst.
    constructor; [|now apply IH].
    split; [repeat split; congruence|].
    intros Hout. rewrite List.map_app, in_app_iff in Hout.
    rewrite Hy, Hx; [reflexivity|tauto|rewrite I1; tauto].
Qed.

Lemma update_embedding_kept (job : embedding_job) (embedding : vector)
    (db : database) (table : string) :
  table_kept [job] table (tables db !! table)
    (tables (update_embedding (job_table_name job) (job_record_id job)
               embedding db) !! table).
Proof.
  unfold ProcessEmbeddings.update_embedding. cbn [tables].
  destruct (tables db !! job_table_name job) as [rows|] eqn:Hrows;
    [|apply table_kept_refl].
  rewrite lookup_insert. destruct (decide (job_table_name job = table)) as [<-|Hne];
    [|apply table_kept_refl].
  rewrite Hrows. cbn. apply Forall2_map_r. intros r _.
  destruct (row_id r =? job_record_id job) eqn:Hid; cbn.
  - split; [repeat split; reflexivity|].
    intros Hout. exfalso. apply Hout. left. unfold target.
    apply Z.eqb_eq in Hid. now rewrite Hid.
  - split; [repeat split|]; reflexivity.
Qed.

Lemma process_job_tables (job : embedding_job) (db : database) (table : string) :
  table_kept [job] table (tables db !! table)
    (tables (fst (process_job job db)) !! table).
Proof.
  rewrite process_job_cases.
  destruct (turn_of job db); cbn [fst]; try apply table_kept_refl.
  apply (update_embedding_kept job embedding (mark_processing (job_id job) db)).
Qed.

Lemma run_jobs_tables (jobs : list embedding_job) (db : database) (t : tally)
    (table : string) :
  table_kept jobs table (tables db !! table)
    (tables (fst (run_jobs jobs db t)) !! table).
Proof.
  revert db t. induction jobs as [|job rest IH]; intros db t.
  - apply table_kept_refl.
  - cbn [ProcessEmbeddings.run_jobs].
    pose proof (process_job_tables job db table) as Hstep.
    destruct (process_job job db) as [db1 outcome]. cbn [fst] in Hstep.
    change (job :: rest) with ([job] ++ rest).
    destruct outcome; (eapply table_kept_trans; [exact Hstep|apply IH]).
Qed.

(** X12. A drain touches the content tables only in the [embedding]
    column, and only in rows that a selected job points at: every table
    holds the same rows in the same order afterwards, each with its id,
    text columns and keywords as before, and a row that is not the target of
    a selected job is exactly as before; no table appears or disappears. *)
Theorem drain_changes_only_targeted_embeddings (db : database) (table : string) :
  table_kept (select_pending db) table
    (tables db !! table) (tables (fst (serve db)) !! table).
Proof.
  unfold ProcessEmbeddings.serve.
  destruct (select_pending db) as [|job rest] eqn:Hsel; [apply table_kept_refl|].
  pose proof (run_jobs_tables (job :: rest) db
                {| processed := 0; failed_count := 0 |} table) as Hrun.
  destruct (run_jobs (job :: rest) db _) as [db' t']. exact Hrun.
Qed.

(** X13. A drain that reports no processed job has written no embedding:
    the content tables are what they were, whatever the number of failed
    jobs. *)
Theorem drain_without_success_keeps_tables (db : database) (lost total : Z) :
  snd (serve db) = Drained 0 lost total ->
  tables (fst (serve db)) = tables db.
Proof.
  unfold ProcessEmbeddings.serve.
  destruct (select_pending db) as [|job rest] eqn:Hsel; [reflexivity|].
  pose proof (run_jobs_tally (job :: rest) db {| processed := 0; failed_count := 0 |})
    as Htally.
  cbv zeta in Htally.
  destruct (run_jobs (job :: rest) db _) as [db' t'].
  cbn [fst snd processed] in *. intros Hreply.
  destruct Htally as (_ & _ & _ & Hkeep). apply Hkeep.
  inversion Hreply. reflexivity.
Qed.

Lemma record_text_unknown_table (table : string) (record : content_row) :
  ~ In table known_tables -> record_text table record = "".
Proof.
  intros Hout. unfold ProcessEmbeddings.record_text.
  repeat match goal with
         | |- context [String.eqb table ?name] =>
             destruct (String.eqb_spec table name) as [->|_];
             [exfalso; apply Hout; cbn; tauto|]
         end.
  reflexivity.
Qed.

(** X14. A job for a table other than the five for which a text is built
    can only fail: with 'Record not found' when the table or the record
    does not exist, and with 'No text content found for embedding' when the
    record exists, whatever it holds and without a call to the provider.
    The job ends failed and no table is written. *)
Theorem job_for_unknown_table_fails (job : embedding_job) (db : database) :
  ~ In (job_table_name job) known_tables ->
  snd (process_job job db)
  = Failed (match select_record (job_table_name job) (job_record_id job) db with
            | None => "Record not found: " ++ job_table_name job ++ "."
                      ++ pretty (job_record_id job)
            | Some _ => "No text content found for embedding"
            end)
  /\ tables (fst (process_job job db)) = tables db
  /\ (forall j, In j (embedding_queue (fst (process_job job db))) ->
        job_id j = job_id job -> job_status_of j = failed).
Proof.
  intros Hout.
  assert (Hturn : turn_of job db
                  = match select_record (job_table_name job) (job_record_id job) db with
                    | None => RecordMissing
                    | Some record => NoText record
                    end).
  { unfold Views.turn_of.
    destruct (select_record (job_table_name job) (job_record_id job) db) as [r|];
      [|reflexivity].
    now rewrite (record_text_unknown_table _ r Hout). }
  rewrite process_job_cases, Hturn.
  destruct (select_record (job_table_name job) (job_record_id job) db) as [r|];
    cbn [fst snd Views.error_of default]; (split; [reflexivity|]);
    (split; [reflexivity|]);
    intros j Hj Hid; cbn in Hj; rewrite List.map_map in Hj;
    apply in_map_iff in Hj as (j0 & <- & _);
    destruct (job_id j0 =? job_id job) eqn:E; cbn; rewrite ?E; cbn; try reflexivity;
    cbn in Hid; rewrite ?E in Hid; cbn in Hid; apply Z.eqb_neq in E; contradiction.
Qed.

End Drain.

Import Samples MoreSamples.

Lemma short_queue_is_drained_at_once_sample :
  (forall j, In j (embedding_queue (fst (drain twice_rewritten))) ->
     job_status_of j <> pending)
  /\ snd (drain (fst (drain twice_rewritten))) = NoPendingJobs.
Proof.
  apply (short_queue_is_drained_at_once sample_embeddings 5000 twice_rewritten).
  vm_compute. lia.
Defined.

Lemma drain_without_success_keeps_tables_sample :
  snd (drain dangling) = Drained 0 1 1
  /\ tables (fst (drain dangling)) = tables dangling.
Proof.
  split; [reflexivity|].
  apply (drain_without_success_keeps_tables sample_embeddings 5000 dangling 1 1).
  reflexivity.
Defined.

Lemma job_for_unknown_table_fails_sample :
  snd (Samples.process_job job_8 with_proposal)
  = Failed "No text content found for embedding"
  /\ tables (fst (Samples.process_job job_8 with_proposal)) = tables with_proposal
  /\ (forall j, In j (embedding_queue (fst (Samples.process_job job_8 with_proposal))) ->
        job_id j = job_id job_8 -> job_status_of j = failed).
Proof.
  apply (job_for_unknown_table_fails sample_embeddings 5000 job_8 with_proposal).
  cbn. intuition discriminate.
Defined.

End DrainMore.

(** ** More on the validation response handler *)
Module ResponseMore.
Import Js ListFacts Validation ValidationResponse Views ResponseViews ResponseFacts.

Lemma same_request_refl (r : validation_request) : same_request r r.
Proof. repeat split. Qed.

Lemma same_request_trans (a b c : validation_request) :
  same_request a b -> same_request b c -> same_request a c.
Proof.
  unfold same_request. intros H1 H2.
  repeat match goal with H : _ /\ _ |- _ => destruct H end.
  repeat split; congruence.
Qed.

Lemma record_response_same status now c data (r : validation_request) :
  same_request r (record_response status now c data r).
Proof. repeat split. Qed.

Lemma record_link_same id (r : validation_request) :
  same_request r (record_link id r).
Proof. repeat split. Qed.

(** *** Tokens and keywords *)
Lemma append_cons (a : ascii) (s t : string) : (String a s ++ t = String a (s ++ t))%string.
Proof. reflexivity. Qed.

Lemma append_empty (t : string) : (EmptyString ++ t = t)%string.
Proof. reflexivity. Qed.

Lemma last_segment_go_plain (cur s : string) :
  has_slash s = false -> last_segment_go cur s = String.rev_app cur s.
Proof.
  revert cur. induction s as [|a rest IH]; intros cur; cbn; [reflexivity|].
  destruct (Ascii.eqb a "/"); cbn; [discriminate|].
  intros H. now rewrite IH.
Qed.

Lemma last_segment_go_after_slash (cur prefix tok : string) :
  last_segment_go cur (prefix ++ "/" ++ tok)%string = last_segment_go EmptyString tok.
Proof.
  revert cur. induction prefix as [|a rest IH]; intros cur.
  - rewrite append_empty, append_cons, append_empty. reflexivity.
  - rewrite append_cons. cbn [last_segment_go].
    destruct (Ascii.eqb a "/"); apply IH.
Qed.

Lemma has_slash_rev_app (s acc : string) :
  has_slash (String.rev_app s acc) = has_slash s || has_slash acc.
Proof.
  revert acc. induction s as [|a rest IH]; intros acc; cbn; [reflexivity|].
  rewrite IH. cbn. destruct (Ascii.eqb a "/"), (has_slash rest); reflexivity.
Qed.

Lemma last_segment_go_no_slash (cur s : string) :
  has_slash cur = false -> has_slash (last_segment_go cur s) = false.
Proof.
  revert cur. induction s as [|a rest IH]; intros cur Hcur; cbn.
  - unfold String.rev. rewrite has_slash_rev_app, Hcur. reflexivity.
  - destruct (Ascii.eqb a "/") eqn:E; apply IH; cbn; [reflexivity|].
    now rewrite E, Hcur.
Qed.

Lemma last_segment_go_split (cur s : string) :
  (has_slash s = false /\ last_segment_go cur s = String.rev_app cur s)
  \/ exists prefix, s = (prefix ++ "/" ++ last_segment_go cur s)%string.
Proof.
  revert cur. induction s as [|a rest IH]; intros cur; cbn.
  - left. split; reflexivity.
  - destruct (Ascii.eqb a "/") eqn:E.
    + apply Ascii.eqb_eq in E. subst a. right.
      destruct (IH EmptyString) as [[Hno Hgo]|(prefix & Hsplit)].
      * exists EmptyString. rewrite append_empty, append_cons, append_empty.
        rewrite Hgo. reflexivity.
      * exists (String "/" prefix). rewrite append_cons. now rewrite <- Hsplit.
    + destruct (IH (String a cur)) as [[Hno Hgo]|(prefix & Hsplit)].
      * left. split; [exact Hno|exact Hgo].
      * right. exists (String a prefix). rewrite append_cons.
        now rewrite <- Hsplit.
Qed.

(** X16. The token of a GET request is the text after the last [/] of the
    path: [last_segment] returns [tok] exactly when [tok] holds no [/] and
    the path is [tok] itself or ends in [/] followed by [tok]. *)
Theorem last_segment_is_the_text_after_the_last_slash (path tok : string) :
  last_segment path = tok
  <-> has_slash tok = false
      /\ (path = tok \/ exists prefix, path = (prefix ++ "/" ++ tok)%string).
Proof.
  unfold last_segment. split.
  - intros <-. split; [now apply last_segment_go_no_slash|].
    destruct (last_segment_go_split EmptyString path) as [[Hno Hgo]|Hsplit].
    + left. rewrite Hgo. reflexivity.
    + right. exact Hsplit.
  - intros [Hno [->|(prefix & ->)]].
    + now rewrite last_segment_go_plain.
    + rewrite last_segment_go_after_slash. now rewrite last_segment_go_plain.
Qed.

(** *** White space and keywords *)
Lemma rev_app_append (s acc t : string) :
  (String.rev_app s acc ++ t = String.rev_app s (acc ++ t))%string.
Proof.
  revert acc. induction s as [|a s IH]; intros acc; cbn [String.rev_app];
    [reflexivity|].
  now rewrite IH, append_cons.
Qed.

Lemma rev_app_spec (cur s : string) :
  String.rev_app cur s = (String.rev cur ++ s)%string.
Proof.
  unfold String.rev. now rewrite rev_app_append, append_empty.
Qed.

Lemma bytes_rev_app (s acc : string) :
  list_ascii_of_string (String.rev_app s acc)
  = List.rev (list_ascii_of_string s) ++ list_ascii_of_string acc.
Proof.
  revert acc. induction s as [|a s IH]; intros acc; cbn; [reflexivity|].
  rewrite IH. cbn. now rewrite <- app_assoc.
Qed.

Lemma bytes_rev_cons (a : ascii) (cur : string) :
  list_ascii_of_string (String.rev (String a cur))
  = list_ascii_of_string (String.rev cur) ++ [a].
Proof.
  unfold String.rev. rewrite !bytes_rev_app. cbn. now rewrite !app_nil_r.
Qed.

Lemma scan_eq (a : ascii) (rest : string) :
  scan (String a rest)
  = if Ascii.is_space a then None :: scan rest
    else
      match rest with
      | String b rest2 =>
          if space2 a b then None :: scan rest2
          else
            match rest2 with
            | String c rest3 =>
                if space3 a b c then None :: scan rest3
                else Some a :: scan rest
            | EmptyString => Some a :: scan rest
            end
      | EmptyString => Some a :: scan rest
      end.
Proof. destruct rest as [|b [|c rest]]; reflexivity. Qed.

(** One step of [scan]: the first byte as it is, or a white-space
    character and a shorter rest. *)
Lemma scan_step (a : ascii) (rest : string) :
  scan (String a rest) = Some a :: scan rest
  \/ exists rest', scan (String a rest) = None :: scan rest'
                   /\ (String.length rest' <= String.length rest)%nat.
Proof.
  rewrite scan_eq.
  destruct (Ascii.is_space a); [right; exists rest; auto|].
  destruct rest as [|b rest2]; [now left|].
  destruct (space2 a b); [right; exists rest2; cbn; auto|].
  destruct rest2 as [|c rest3]; [now left|].
  destruct (space3 a b c); [right; exists rest3; cbn; auto|].
  now left.
Qed.

Lemma scan_Some (a x : ascii) (rest : string) (l : list (option ascii)) :
  scan (String a rest) = Some x :: l -> x = a /\ l = scan rest.
Proof.
  rewrite scan_eq.
  destruct (Ascii.is_space a); [discriminate|].
  destruct rest as [|b rest2]; [intros H; inversion H; auto|].
  destruct (space2 a b); [discriminate|].
  destruct rest2 as [|c rest3]; [intros H; inversion H; auto|].
  destruct (space3 a b c); [discriminate|].
  intros H; inversion H; auto.
Qed.

(** A byte that starts no white-space character in a text starts none in
    a shorter one. *)
Lemma scan_head_of_prefix (a : ascii) (p t : string) :
  scan (String a (p ++ t)) = Some a :: scan (p ++ t) ->
  scan (String a p) = Some a :: scan p.
Proof.
  rewrite (scan_eq a (p ++ t)), (scan_eq a p).
  destruct (Ascii.is_space a); [discriminate|].
  destruct p as [|b p]; [reflexivity|]. rewrite append_cons.
  destruct (space2 a b); [discriminate|].
  destruct p as [|c p]; [reflexivity|]. rewrite append_cons.
  destruct (space3 a b c); [discriminate|]. reflexivity.
Qed.

(** The start of a text up to its first white-space character holds no
    white-space character. *)
Lemma prefix_without_space (p t : string) :
  scan (p ++ t) = List.map Some (list_ascii_of_string p) ++ scan t ->
  scan p = List.map Some (list_ascii_of_string p).
Proof.
  induction p as [|a p IH]; [reflexivity|].
  rewrite append_cons. cbn [list_ascii_of_string List.map app]. intros H.
  destruct (scan_Some a a (p ++ t) _ H) as [_ Hrest].
  assert (Hhead : scan (String a (p ++ t)) = Some a :: scan (p ++ t))
    by (rewrite H; now rewrite <- Hrest).
  rewrite (scan_head_of_prefix a p t Hhead).
  now rewrite (IH (eq_sym Hrest)).
Qed.

Lemma split_go_without_space (n : nat) :
  forall (s cur : string) (in_run : bool) (w : string),
    (String.length s <= n)%nat ->
    (in_run = true -> cur = EmptyString) ->
    scan (String.rev_app cur s)
    = List.map Some (list_ascii_of_string (String.rev cur)) ++ scan s ->
    In w (split_go cur in_run (scan s)) ->
    scan w = List.map Some (list_ascii_of_string w).
Proof.
  induction n as [|n IH]; intros s cur in_run w Hlen Hrun Hcur Hw.
  - destruct s; [|cbn in Hlen; lia]. cbn in Hw. destruct Hw as [<-|[]].
    unfold String.rev in *. cbn [scan] in Hcur. now rewrite app_nil_r in Hcur.
  - destruct s as [|a rest].
    + cbn in Hw. destruct Hw as [<-|[]].
      unfold String.rev in *. cbn [scan] in Hcur. now rewrite app_nil_r in Hcur.
    + cbn [String.length] in Hlen.
      destruct (scan_step a rest) as [Hstep|(rest' & Hstep & Hshorter)].
      * rewrite Hstep in Hw. cbn [split_go] in Hw.
        apply (IH rest (String a cur) false w); [lia|discriminate| |exact Hw].
        cbn [String.rev_app]. rewrite Hcur, Hstep, bytes_rev_cons.
        rewrite List.map_app, <- app_assoc. reflexivity.
      * rewrite Hstep in Hw. cbn [split_go] in Hw.
        assert (Hempty : scan (String.rev_app EmptyString rest')
                         = List.map Some
                             (list_ascii_of_string (String.rev EmptyString))
                           ++ scan rest') by reflexivity.
        destruct in_run.
        -- rewrite (Hrun eq_refl) in Hw.
           apply (IH rest' EmptyString true w); auto. lia.
        -- destruct Hw as [<-|Hw].
           ++ rewrite rev_app_spec in Hcur.
              exact (prefix_without_space _ _ Hcur).
           ++ apply (IH rest' EmptyString true w); auto. lia.
Qed.

Lemma filter_single {A : Type} (p : A -> bool) (l : list A) (x : A) :
  List.filter p l = [x] ->
  p x = true
  /\ exists before after,
       l = before ++ x :: after
       /\ forall y, In y (before ++ after) -> p y = false.
Proof.
  induction l as [|y l IH]; cbn; [discriminate|].
  destruct (p y) eqn:Hy.
  - intros H. inversion H; subst y. split; [exact Hy|].
    exists [], l. split; [reflexivity|]. cbn. intros z Hz.
    destruct (p z) eqn:Hpz; [|reflexivity].
    assert (Hin : In z (List.filter p l)) by (apply filter_In; auto).
    rewrite H2 in Hin. destruct Hin.
  - intros H. destruct (IH H) as (Hx & before & after & -> & Hrest).
    split; [exact Hx|]. exists (y :: before), after. split; [reflexivity|].
    cbn. intros z [<-|Hz]; auto.
Qed.

Section Handler.
Context {vector : Type}.
Variable openai_embeddings : string -> fetch_result vector.
Variable toLowerCase : string -> string.

Abbreviation database := (@ValidationResponse.database vector).
Abbreviation experience := (@ValidationResponse.experience vector).
Abbreviation serve := (ValidationResponse.serve openai_embeddings toLowerCase).
Abbreviation correction_entry := (ValidationResponse.correction_entry toLowerCase).
Abbreviation extract_keywords := (ValidationResponse.extract_keywords toLowerCase).

(** X17. The keywords taken from a correction are at most ten; each is
    one of the pieces into which white space splits the lower-cased text,
    has five UTF-16 code units or more, and holds no white-space
    character. *)
Theorem keywords_are_long_words_of_the_lowered_text (corrections : string) :
  (List.length (extract_keywords corrections) <= 10)%nat
  /\ forall w, In w (extract_keywords corrections) ->
       (5 <= utf16_length w)%nat
       /\ scan w = List.map Some (list_ascii_of_string w)
       /\ In w (split_whitespace (toLowerCase corrections)).
Proof.
  unfold ValidationResponse.extract_keywords. split; [apply firstn_le_length|].
  intros w Hw. apply firstn_In_inv, filter_In in Hw as [Hw Hlen].
  split; [apply Nat.ltb_lt in Hlen; lia|]. split; [|exact Hw].
  unfold split_whitespace in Hw.
  apply (split_go_without_space (String.length (toLowerCase corrections))
           (toLowerCase corrections) EmptyString false w); auto.
Qed.

Lemma entry_accepted_true (row : experience) (db : database) :
  entry_accepted row db = true ->
  entity_type_check (x_entity_type row) = true
  /\ ~ In (x_id row) (List.map x_id (experience_table db)).
Proof.
  unfold entry_accepted. intros H. apply andb_true_iff in H as [Hc Hn].
  split; [exact Hc|]. intros Hin. apply in_map_iff in Hin as (x & Hid & Hx).
  apply negb_true_iff in Hn. apply not_true_iff_false in Hn. apply Hn.
  apply existsb_exists. exists x. split; [exact Hx|]. now apply Z.eqb_eq.
Qed.

(** What one request does to the store: each stored request is rewritten
    by [g], and [added] is appended to the entries. *)
Lemma serve_effect (now : timestamptz) (new_id : uuid) (db : database)
    (req : request) :
  exists (g : validation_request -> validation_request) (added : list experience),
    validation_requests (fst (serve now new_id req db))
    = List.map g (validation_requests db)
    /\ experience_table (fst (serve now new_id req db))
       = experience_table db ++ added
    /\ (forall r, same_request r (g r))
    /\ (forall r, g r <> r ->
          exists tok a c v,
            req = POST (Some tok) a c /\ tok <> ""
            /\ getValidationByToken tok db = Some v /\ vr_id r = vr_id v)
    /\ (forall r, response_fields (g r) = response_fields r
                  \/ exists tok a c st,
                       req = POST (Some tok) a c
                       /\ validation_status_in a = Some st
                       /\ response_fields (g r)
                          = (st, Some now, Some (FormSubmission a c now), c))
    /\ (forall r, link_fields (g r) = link_fields r
                  \/ (link_fields (g r) = (Some true, Some new_id)
                      /\ added <> []))
    /\ (added = []
        \/ exists tok a text v embedding,
             req = POST (Some tok) a (Some text) /\ tok <> ""
             /\ getValidationByToken tok db = Some v
             /\ not_blank text = true
             /\ openai_embeddings text = Ok200 embedding
             /\ entity_type_check (Some (vr_entity_type v)) = true
             /\ ~ In new_id (List.map x_id (experience_table db))
             /\ added = [correction_entry new_id v text embedding]).
Proof.
  assert (Hidle : fst (serve now new_id req db) = db ->
            exists (g : validation_request -> validation_request)
                   (added : list experience),
              validation_requests (fst (serve now new_id req db))
              = List.map g (validation_requests db)
              /\ experience_table (fst (serve now new_id req db))
                 = experience_table db ++ added
              /\ (forall r, same_request r (g r))
              /\ (forall r, g r <> r ->
                    exists tok a c v,
                      req = POST (Some tok) a c /\ tok <> ""
                      /\ getValidationByToken tok db = Some v /\ vr_id r = vr_id v)
              /\ (forall r, response_fields (g r) = response_fields r
                            \/ exists tok a c st,
                                 req = POST (Some tok) a c
                                 /\ validation_status_in a = Some st
                                 /\ response_fields (g r)
                                    = (st, Some now, Some (FormSubmission a c now), c))
              /\ (forall r, link_fields (g r) = link_fields r
                            \/ (link_fields (g r) = (Some true, Some new_id)
                                /\ added <> []))
              /\ (added = []
                  \/ exists tok a text v embedding,
                       req = POST (Some tok) a (Some text) /\ tok <> ""
                       /\ getValidationByToken tok db = Some v
                       /\ not_blank text = true
                       /\ openai_embeddings text = Ok200 embedding
                       /\ entity_type_check (Some (vr_entity_type v)) = true
                       /\ ~ In new_id (List.map x_id (experience_table db))
                       /\ added = [correction_entry new_id v text embedding])).
  { intros ->. exists (fun r => r), [].
    rewrite List.map_id, app_nil_r.
    repeat split; auto using same_request_refl. intros r Hr. congruence. }
  destruct req as [pathname|token a c|].
  - apply Hidle. unfold ValidationResponse.serve, handle_get.
    destruct (negb (truthy (Some (last_segment pathname)))); [reflexivity|].
    unfold mbind, task_bind, gets, mret, task_ret.
    destruct (getValidationByToken (last_segment pathname) db); reflexivity.
  - pose proof (serve_post_cases openai_embeddings toLowerCase now new_id db token a c)
      as Hcases.
    destruct token as [tok|]; [|apply Hidle; now rewrite Hcases].
    destruct (truthy (Some tok)) eqn:Htruthy;
      [|apply Hidle; now rewrite Hcases].
    assert (Htok : tok <> "") by (intros ->; discriminate).
    destruct (getValidationByToken tok db) as [v|] eqn:Hv;
      [|apply Hidle; now rewrite Hcases].
    rewrite Hcases. cbn [fst]. clear Hidle Hcases.
    rewrite create_experience_cases.
    set (U := fun vr : validation_request =>
                match validation_status_in a with
                | Some status =>
                    if vr_id vr =? vr_id v
                    then record_response status now c (FormSubmission a c now) vr
                    else vr
                | None => vr
                end).
    set (db1 := update_validation now (vr_id v) a c db).
    assert (Hrows1 : validation_requests db1 = List.map U (validation_requests db))
      by apply update_validation_rows.
    assert (Hentries1 : experience_table db1 = experience_table db)
      by apply update_validation_entries.
    assert (HU : forall r,
               same_request r (U r)
               /\ (U r <> r -> vr_id r = vr_id v)
               /\ link_fields (U r) = link_fields r
               /\ (response_fields (U r) = response_fields r
                   \/ exists st, validation_status_in a = Some st
                                 /\ response_fields (U r)
                                    = (st, Some now, Some (FormSubmission a c now), c))).
    { intros r. unfold U. destruct (validation_status_in a) as [st|].
      - destruct (vr_id r =? vr_id v) eqn:E.
        + apply Z.eqb_eq in E. repeat split; eauto.
        + repeat split; auto. congruence.
      - repeat split; auto. congruence. }
    assert (Hplain :
              exists (g : validation_request -> validation_request)
                     (added : list experience),
                validation_requests db1 = List.map g (validation_requests db)
                /\ experience_table db1 = experience_table db ++ added
                /\ (forall r, same_request r (g r))
                /\ (forall r, g r <> r ->
                      exists tok0 a0 c0 v0,
                        POST (Some tok) a c = POST (Some tok0) a0 c0 /\ tok0 <> ""
                        /\ getValidationByToken tok0 db = Some v0
                        /\ vr_id r = vr_id v0)
                /\ (forall r, response_fields (g r) = response_fields r
                              \/ exists tok0 a0 c0 st,
                                   POST (Some tok) a c = POST (Some tok0) a0 c0
                                   /\ validation_status_in a0 = Some st
                                   /\ response_fields (g r)
                                      = (st, Some now,
                                         Some (FormSubmission a0 c0 now), c0))
                /\ (forall r, link_fields (g r) = link_fields r
                              \/ (link_fields (g r) = (Some true, Some new_id)
                                  /\ added <> []))
                /\ (added = []
                    \/ exists tok0 a0 text v0 embedding,
                         POST (Some tok) a c = POST (Some tok0) a0 (Some text)
                         /\ tok0 <> ""
                         /\ getValidationByToken tok0 db = Some v0
                         /\ not_blank text = true
                         /\ openai_embeddings text = Ok200 embedding
                         /\ entity_type_check (Some (vr_entity_type v0)) = true
                         /\ ~ In new_id (List.map x_id (experience_table db))
                         /\ added = [correction_entry new_id v0 text embedding])).
    { exists U, []. rewrite app_nil_r.
      split; [exact Hrows1|]. split; [exact Hentries1|].
      split; [intros r; apply HU|].
      split.
      { intros r Hr. exists tok, a, c, v. repeat split; auto. now apply HU. }
      split.
      { intros r. destruct (HU r) as (_ & _ & _ & [H|(st & Hst & H)]); [now left|].
        right. exists tok, a, c, st. auto. }
      split; [intros r; left; apply HU|]. now left. }
    destruct c as [text|]; [|exact Hplain].
    destruct (not_blank text) eqn:Htext; [|exact Hplain].
    destruct (openai_embeddings text) as [embedding| |] eqn:Hemb; try exact Hplain.
    destruct (entry_accepted (correction_entry new_id v text embedding) db1)
      eqn:Hacc; [|exact Hplain].
    clear Hplain. apply entry_accepted_true in Hacc as [Hcheck Hfresh].
    cbn [correction_entry x_entity_type x_id] in Hcheck, Hfresh.
    rewrite Hentries1 in Hfresh.
    exists (fun r => (fun r1 => if vr_id r1 =? vr_id v then record_link new_id r1
                                else r1) (U r)),
           [correction_entry new_id v text embedding].
    cbn [fst link_experience validation_requests experience_table].
    split.
    { unfold update_where_id. now rewrite Hrows1, List.map_map. }
    split; [now rewrite Hentries1|].
    assert (Hsame : forall r, vr_id (U r) = vr_id r) by (intros r; apply HU).
    split.
    { intros r. cbv beta. destruct (vr_id (U r) =? vr_id v).
      - eapply same_request_trans; [apply HU|apply record_link_same].
      - apply HU. }
    split.
    { intros r Hr. exists tok, a, (Some text), v. repeat split; auto.
      cbv beta in Hr. destruct (vr_id (U r) =? vr_id v) eqn:E.
      - apply Z.eqb_eq in E. now rewrite <- Hsame.
      - now apply HU. }
    split.
    { intros r. cbv beta.
      assert (Hr : response_fields
                     (if vr_id (U r) =? vr_id v then record_link new_id (U r)
                      else U r) = response_fields (U r))
        by (destruct (vr_id (U r) =? vr_id v); reflexivity).
      rewrite Hr. destruct (HU r) as (_ & _ & _ & [H|(st & Hst & H)]); [now left|].
      right. exists tok, a, (Some text), st. auto. }
    split.
    { intros r. cbv beta. destruct (vr_id (U r) =? vr_id v).
      - right. split; [reflexivity|discriminate].
      - left. apply HU. }
    right. exists tok, a, text, v, embedding. repeat split; auto.
  - apply Hidle. reflexivity.
Qed.

(** X15. A GET request writes nothing.  It answers with the form only for
    a path whose last segment is not empty and is the message id of
    exactly one stored request, and the form shown is for that request;
    with status 400 when the last segment is empty; with status 404 when
    the number of stored requests with that message id is not one. *)
Theorem get_shows_the_form_and_writes_nothing (now : timestamptz) (new_id : uuid)
    (db : database) (pathname : string) :
  fst (serve now new_id (GET pathname) db) = db
  /\ match snd (serve now new_id (GET pathname) db) with
     | ValidationForm v tok =>
         tok = last_segment pathname /\ tok <> ""
         /\ vr_message_id v = Some tok
         /\ exists before after,
              validation_requests db = before ++ v :: after
              /\ forall r, In r (before ++ after) -> vr_message_id r <> Some tok
     | Plain status _ =>
         (status = 400 /\ last_segment pathname = "")
         \/ (status = 404 /\ last_segment pathname <> ""
             /\ List.length
                  (List.filter
                     (fun r => bool_decide
                                 (vr_message_id r = Some (last_segment pathname)))
                     (validation_requests db)) <> 1%nat)
     | _ => False
     end.
Proof.
  unfold ValidationResponse.serve, handle_get.
  destruct (last_segment pathname) as [|a rest] eqn:Htok; cbn [truthy negb String.eqb].
  - cbn. auto.
  - unfold mbind, task_bind, gets, mret, task_ret.
    assert (Hsame : forall r : validation_request,
               match vr_message_id r with
               | Some m => String.eqb m (String a rest)
               | None => false
               end = bool_decide (vr_message_id r = Some (String a rest))).
    { intros r. destruct (vr_message_id r) as [m|].
      - destruct (String.eqb_spec m (String a rest)) as [->|Hne].
        + now rewrite bool_decide_eq_true_2.
        + rewrite bool_decide_eq_false_2; [reflexivity|congruence].
      - now rewrite bool_decide_eq_false_2. }
    destruct (getValidationByToken (String a rest) db) as [v|] eqn:Hv; cbn.
    + split; [reflexivity|]. unfold getValidationByToken in Hv.
      destruct (List.filter _ (validation_requests db)) as [|x [|y l]] eqn:Hrows;
        try discriminate.
      cbn in Hv. inversion Hv; subst x.
      apply filter_single in Hrows as (Hm & before & after & Hsplit & Hrest).
      repeat split; try congruence.
      * destruct (vr_message_id v) as [m|]; [|discriminate].
        apply String.eqb_eq in Hm. now subst m.
      * exists before, after. split; [exact Hsplit|].
        intros r Hr Hid. specialize (Hrest r Hr). rewrite Hid in Hrest.
        now rewrite String.eqb_refl in Hrest.
    + split; [reflexivity|]. right. repeat split; try congruence.
      unfold getValidationByToken in Hv.
      rewrite <- (List.filter_ext _ _ Hsame).
      destruct (List.filter _ (validation_requests db)) as [|x [|y l]];
        cbn in Hv |- *; try discriminate; lia.
Qed.

(** X18. Whatever the request, the entries are only appended to, and by
    at most one entry.  An appended entry carries the drawn id, which no
    entry had before, awaits review ([is_validated] is false), has source
    type [validation_response], confidence 0.95 and author [ai], and is
    derived from the request that the token resolves to and from
    corrections that are not blank. *)
Theorem response_appends_at_most_one_unreviewed_entry (now : timestamptz)
    (new_id : uuid) (db : database) (req : request) :
  exists added : list experience,
    experience_table (fst (serve now new_id req db)) = experience_table db ++ added
    /\ (List.length added <= 1)%nat
    /\ forall x, In x added ->
         x_id x = new_id /\ ~ In new_id (List.map x_id (experience_table db))
         /\ x_is_validated x = Some false
         /\ x_source_type x = "validation_response"
         /\ x_confidence_score x = Some (95 # 100)
         /\ x_created_by x = Some "ai"
         /\ entity_type_check (x_entity_type x) = true
         /\ exists tok a text v,
              req = POST (Some tok) a (Some text) /\ not_blank text = true
              /\ getValidationByToken tok db = Some v
              /\ x_source_id x = Some (vr_id v)
              /\ x_entity_type x = Some (vr_entity_type v)
              /\ x_entity_id x = Some (vr_entity_id v)
              /\ x_description x = ("Validation correction: " ++ text)%string
              /\ x_keywords x = Some (extract_keywords text).
Proof.
  destruct (serve_effect now new_id db req)
    as (g & added & _ & Hentries & _ & _ & _ & _ & Hadded).
  exists added. split; [exact Hentries|].
  destruct Hadded as [->|(tok & a & text & v & embedding & -> & Htok & Hv & Htext
                           & Hemb & Hcheck & Hfresh & ->)].
  - split; [cbn; lia|]. intros x [].
  - split; [cbn; lia|]. intros x [<-|[]]. cbn.
    repeat split; auto. exists tok, a, text, v. repeat split; auto.
Qed.

(** X19. The handler neither adds, removes nor reorders validation
    requests, and leaves the id, proposal, entity, recipient, message id,
    sending time and expiry time of each as they are.  A request is changed
    only by a POST whose token resolves, and only if it has the id of the
    request the token resolves to. *)
Theorem response_touches_only_the_named_request (now : timestamptz)
    (new_id : uuid) (db : database) (req : request) :
  Forall2
    (fun r r' =>
       same_request r r'
       /\ (r' <> r ->
           exists tok a c v,
             req = POST (Some tok) a c /\ tok <> ""
             /\ getValidationByToken tok db = Some v /\ vr_id r = vr_id v))
    (validation_requests db) (validation_requests (fst (serve now new_id req db))).
Proof.
  destruct (serve_effect now new_id db req)
    as (g & added & -> & _ & Hsame & Honly & _).
  clear added. induction (validation_requests db) as [|r rows IH]; constructor; auto.
Qed.

(** X20. A token is never used up: after any request a token resolves
    exactly if it resolved before, and to the request of the same id. *)
Theorem token_outlives_the_response (now : timestamptz) (new_id : uuid)
    (db : database) (req : request) (tok : string) :
  match getValidationByToken tok db,
        getValidationByToken tok (fst (serve now new_id req db)) with
  | Some v, Some v' => same_request v v'
  | None, None => True
  | _, _ => False
  end.
Proof.
  destruct (serve_effect now new_id db req)
    as (g & added & Hrows & _ & Hsame & _).
  assert (Hafter : getValidationByToken tok (fst (serve now new_id req db))
                   = g <$> getValidationByToken tok db).
  { unfold getValidationByToken.
    rewrite Hrows, filter_map_commute, single_map; [reflexivity|].
    intros r. destruct (Hsame r) as (_ & _ & _ & _ & _ & _ & -> & _). reflexivity. }
  rewrite Hafter.
  destruct (getValidationByToken tok db) as [v|]; cbn; [apply Hsame|exact I].
Qed.

(** X21. Without corrections that are not blank and for which the
    provider returns an embedding, a POST creates no entry and links none:
    the entries and the link columns of all requests are as before. *)
Theorem no_entry_without_text_and_embedding (now : timestamptz) (new_id : uuid)
    (db : database) (token a c : option string) :
  (forall text embedding, c = Some text -> not_blank text = true ->
     openai_embeddings text <> Ok200 embedding) ->
  experience_table (fst (serve now new_id (POST token a c) db))
  = experience_table db
  /\ List.map link_fields
       (validation_requests (fst (serve now new_id (POST token a c) db)))
     = List.map link_fields (validation_requests db).
Proof.
  intros Hnone.
  destruct (serve_effect now new_id db (POST token a c))
    as (g & added & -> & -> & _ & _ & _ & Hlink & Hadded).
  assert (Hempty : added = []).
  { destruct Hadded as [->|(tok & a0 & text & v & embedding & Hreq & _ & _ & Htext
                             & Hemb & _)]; [reflexivity|].
    inversion Hreq; subst. now destruct (Hnone text embedding). }
  subst added. rewrite app_nil_r. split; [reflexivity|].
  rewrite List.map_map. apply List.map_ext. intros r.
  destruct (Hlink r) as [H|[_ H]]; congruence.
Qed.

(** X22. A request about an entity type that the [experience] table does
    not admit (such as [experience]) gets its status recorded, but the
    insert is refused: no entry is created and no link is written. *)
Theorem unlisted_entity_type_blocks_the_entry (now : timestamptz) (new_id : uuid)
    (db : database) (tok : string) (a c : option string) (v : validation_request) :
  tok <> "" ->
  getValidationByToken tok db = Some v ->
  entity_type_check (Some (vr_entity_type v)) = false ->
  let db' := fst (serve now new_id (POST (Some tok) a c) db) in
  experience_table db' = experience_table db
  /\ List.map link_fields (validation_requests db')
     = List.map link_fields (validation_requests db)
  /\ forall st, validation_status_in a = Some st ->
       In (record_response st now c (FormSubmission a c now) v)
         (validation_requests db').
Proof.
  intros Htok Hv Hcheck. cbv zeta.
  destruct (serve_effect now new_id db (POST (Some tok) a c))
    as (g & added & Hrows & Hentries & _ & _ & _ & Hlink & Hadded).
  assert (Hempty : added = []).
  { destruct Hadded as [->|(tok0 & a0 & text & v0 & embedding & Hreq & _ & Hv0
                             & _ & _ & Hcheck0 & _)]; [reflexivity|].
    inversion Hreq; subst. congruence. }
  subst added. rewrite app_nil_r in Hentries. split; [exact Hentries|]. split.
  - rewrite Hrows, List.map_map. apply List.map_ext. intros r.
    destruct (Hlink r) as [H|[_ H]]; congruence.
  - intros st Hst.
    assert (Hdb' : fst (serve now new_id (POST (Some tok) a c) db)
                   = update_validation now (vr_id v) a c db).
    { rewrite (serve_post_resolved openai_embeddings toLowerCase now new_id db tok a c v
               Htok Hv).
      rewrite create_experience_cases.
      destruct c as [text|]; [|reflexivity].
      destruct (not_blank text); [|reflexivity].
      destruct (openai_embeddings text) as [embedding| |]; try reflexivity.
      unfold entry_accepted. cbn [correction_entry x_entity_type].
      rewrite Hcheck. reflexivity. }
    rewrite Hdb'. unfold update_validation. rewrite Hst.
    cbn [validation_requests]. apply update_where_id_hit; [|reflexivity].
    apply single_In, filter_In in Hv. tauto.
Qed.

Lemma create_experience_entries (new_id : uuid) (v : validation_request)
    (c : option string) (db1 db2 : database) :
  experience_table db1 = experience_table db2 ->
  snd (ValidationResponse.create_experience openai_embeddings toLowerCase new_id v
         c db1)
  = snd (ValidationResponse.create_experience openai_embeddings toLowerCase new_id
           v c db2)
  /\ experience_table
       (fst (ValidationResponse.create_experience openai_embeddings toLowerCase
               new_id v c db1))
     = experience_table
         (fst (ValidationResponse.create_experience openai_embeddings toLowerCase
                 new_id v c db2)).
Proof.
  intros Heq. rewrite !create_experience_cases.
  destruct c as [text|]; [|auto].
  destruct (not_blank text); [|auto].
  destruct (openai_embeddings text) as [embedding| |]; auto.
  unfold entry_accepted. rewrite Heq.
  destruct (entity_type_check _ && negb _); cbn; rewrite ?Heq; auto.
Qed.

(** X23. A POST whose [approval_status] is none of the six labels of the
    enum records nothing of the response: status, time of response,
    response data and corrections of every request stay as they are.  The
    reply and the entries are nevertheless those of a submission without a
    status. *)
Theorem unknown_status_label_is_dropped (now : timestamptz) (new_id : uuid)
    (db : database) (token a c : option string) :
  validation_status_in a = None ->
  List.map response_fields
    (validation_requests (fst (serve now new_id (POST token a c) db)))
  = List.map response_fields (validation_requests db)
  /\ snd (serve now new_id (POST token a c) db)
     = snd (serve now new_id (POST token None c) db)
  /\ experience_table (fst (serve now new_id (POST token a c) db))
     = experience_table (fst (serve now new_id (POST token None c) db)).
Proof.
  intros Hlabel. split.
  - destruct (serve_effect now new_id db (POST token a c))
      as (g & added & -> & _ & _ & _ & Hresp & _).
    rewrite List.map_map. apply List.map_ext. intros r.
    destruct (Hresp r) as [H|(tok & a0 & c0 & st & Hreq & Hst & _)]; [exact H|].
    inversion Hreq; subst. congruence.
  - rewrite !serve_post_cases.
    destruct token as [tok|]; [|auto].
    destruct (truthy (Some tok)); [|auto].
    destruct (getValidationByToken tok db) as [v|]; [|auto].
    cbn [fst snd].
    destruct (create_experience_entries new_id v c
                (update_validation now (vr_id v) a c db)
                (update_validation now (vr_id v) None c db)) as [Hreply Hrows].
    { now rewrite !update_validation_entries. }
    rewrite Hreply, Hrows. auto.
Qed.


End Handler.

(** *** On the sample data *)
Import Samples MoreSamples.

(** Corrections of three spaces and corrections of one no-break space:
    neither entry nor link. *)
Lemma no_entry_without_text_and_embedding_sample :
  let after c :=
    fst (respond 300 77 (POST (Some "tok-1") (Some "approved") c) inbox) in
  (experience_table (after blank_correction) = experience_table inbox
   /\ List.map link_fields (validation_requests (after blank_correction))
      = List.map link_fields (validation_requests inbox))
  /\ (experience_table (after no_break_correction) = experience_table inbox
      /\ List.map link_fields (validation_requests (after no_break_correction))
         = List.map link_fields (validation_requests inbox)).
Proof.
  split.
  - apply (no_entry_without_text_and_embedding sample_embeddings lower 300 77 inbox
             (Some "tok-1") (Some "approved") blank_correction).
    intros text embedding Htext. inversion Htext. subst text. simpl. discriminate.
  - apply (no_entry_without_text_and_embedding sample_embeddings lower 300 77 inbox
             (Some "tok-1") (Some "approved") no_break_correction).
    intros text embedding Htext. inversion Htext. subst text.
    vm_compute. discriminate.
Defined.

Lemma unlisted_entity_type_blocks_the_entry_sample :
  let db' := fst (respond 300 77
                    (POST (Some "tok-3") (Some "updated") (Some correction_text))
                    review_inbox) in
  experience_table db' = experience_table review_inbox
  /\ List.map link_fields (validation_requests db')
     = List.map link_fields (validation_requests review_inbox)
  /\ forall st, validation_status_in (Some "updated") = Some st ->
       In (record_response st 300 (Some correction_text)
             (FormSubmission (Some "updated") (Some correction_text) 300) request_3)
         (validation_requests db').
Proof.
  apply (unlisted_entity_type_blocks_the_entry sample_embeddings lower 300 77 review_inbox
           "tok-3" (Some "updated") (Some correction_text) request_3).
  - discriminate.
  - reflexivity.
  - reflexivity.
Defined.

Lemma unknown_status_label_is_dropped_sample :
  List.map response_fields
    (validation_requests
       (fst (respond 300 77
               (POST (Some "tok-1") (Some "maybe") (Some correction_text)) inbox)))
  = List.map response_fields (validation_requests inbox)
  /\ snd (respond 300 77
            (POST (Some "tok-1") (Some "maybe") (Some correction_text)) inbox)
     = snd (respond 300 77 (POST (Some "tok-1") None (Some correction_text)) inbox)
  /\ experience_table
       (fst (respond 300 77
               (POST (Some "tok-1") (Some "maybe") (Some correction_text)) inbox))
     = experience_table
         (fst (respond 300 77 (POST (Some "tok-1") None (Some correction_text))
                 inbox)).
Proof.
  apply (unknown_status_label_is_dropped sample_embeddings lower 300 77 inbox
           (Some "tok-1") (Some "maybe") (Some correction_text)).
  reflexivity.
Defined.

Example unlisted_entity_type_outcome :
  snd (respond 300 77
         (POST (Some "tok-3") (Some "updated") (Some correction_text)) review_inbox)
  = SuccessPage
  /\ List.map vr_validation_status
       (validation_requests
          (fst (respond 300 77
                  (POST (Some "tok-3") (Some "updated") (Some correction_text))
                  review_inbox)))
     = [Some sent; Some updated].
Proof. split; reflexivity. Qed.

(** The keywords of a correction outside ASCII: the no-break space
    separates words, and the length of a word is counted in characters, so
    the four letters of the word with u-umlaut, which are five bytes, make
    no keyword. *)
Example keywords_outside_ascii :
  ValidationResponse.extract_keywords lower umlaut_correction
  = ["tarif"; ("betr" ++ utf8 [195; 164] ++ "gt")%string;
     (utf8 [195; 169] ++ "cole")%string].
Proof. vm_compute. reflexivity. Qed.

(** A correction that is a no-break space is blank: the provider is not
    called, no entry is created and the success page is shown, also when
    the provider cannot be reached. *)
Example no_break_space_is_blank :
  not_blank no_break_space = false
  /\ snd (ValidationResponse.serve unreachable lower 300 77
            (POST (Some "tok-1") (Some "approved") no_break_correction) inbox)
     = SuccessPage
  /\ experience_table
       (fst (ValidationResponse.serve unreachable lower 300 77
               (POST (Some "tok-1") (Some "approved") no_break_correction) inbox))
     = experience_table inbox.
Proof. repeat split; vm_compute; reflexivity. Qed.

End ResponseMore.

(** ** From a response to the review queue *)
Module ReviewFlow.
Import Js ListFacts Review ReviewFacts ResponseMore.

Section Flow.
Context {halfvec tsvector : Type}.
Variable openai_embeddings : string -> fetch_result halfvec.
Variable toLowerCase : string -> string.
Variable search_vector_of : string -> option (list string) -> tsvector.

Abbreviation stored := (@Review.stored halfvec tsvector).
Abbreviation serve := (ValidationResponse.serve openai_embeddings toLowerCase).

(** X24. An entry that the response handler creates is created with
    [is_validated] false and, once stored, is listed by the view
    [pending_reviews], whatever else the table holds. *)
Theorem created_entry_awaits_review (now created_at : timestamptz)
    (new_id : uuid) (db : @ValidationResponse.database halfvec)
    (req : ValidationResponse.request)
    (x : @ValidationResponse.experience halfvec) (tbl : list stored) :
  ValidationResponse.experience_table (fst (serve now new_id req db))
  = ValidationResponse.experience_table db ++ [x] ->
  let row := as_stored search_vector_of created_at x in
  ValidationResponse.x_is_validated x = Some false
  /\ In (review_row row) (pending_reviews (tbl ++ [row])).
Proof.
  intros Hcreated row.
  assert (Hflag : ValidationResponse.x_is_validated x = Some false).
  { destruct (serve_effect openai_embeddings toLowerCase now new_id db req)
      as (g & added & _ & Hentries & _ & _ & _ & _ & Hadded).
    rewrite Hcreated in Hentries. apply app_inv_head in Hentries. subst added.
    destruct Hadded as [Hnil|(tok & a & text & v & embedding & _ & _ & _ & _ & _
                               & _ & _ & Hx)]; [discriminate|].
    inversion Hx. reflexivity. }
  assert (Hrow : In row (tbl ++ [row])) by (apply in_or_app; right; now left).
  split; [exact Hflag|].
  apply pending_reviews_In. exists row. repeat split; [exact Hrow|exact Hflag].
Qed.

End Flow.

(** *** On the sample data *)
Import Samples MoreSamples.

Lemma created_entry_awaits_review_sample :
  let row := as_stored lexemes 300 filed_correction in
  ValidationResponse.x_is_validated filed_correction = Some false
  /\ In (review_row row) (pending_reviews (stored_knowledge ++ [row])).
Proof.
  apply (created_entry_awaits_review unit_embeddings lower lexemes 300 300 77
           rate_inbox budget_correction filed_correction stored_knowledge).
  reflexivity.
Defined.

End ReviewFlow.

(** ** More on the Teams webhook *)
Module WebhookMore.
Import Js ListFacts Validation ValidationWebhook ResponseViews ResponseFacts.

Lemma filter_by_id (rows : list validation_request) (id : uuid) :
  List.NoDup (List.map vr_id rows) ->
  List.filter (fun vr => vr_id vr =? id) rows = []
  \/ exists vr, List.filter (fun vr => vr_id vr =? id) rows = [vr]
                /\ In vr rows /\ vr_id vr = id.
Proof.
  induction rows as [|r rows IH]; cbn; [now left|].
  intros Hpk. inversion Hpk as [|? ? Hfresh Hrest]; subst.
  destruct (vr_id r =? id) eqn:E.
  - apply Z.eqb_eq in E. right. exists r.
    assert (Hnone : List.filter (fun vr => vr_id vr =? id) rows = []).
    { destruct (List.filter (fun vr => vr_id vr =? id) rows) as [|x l] eqn:F;
        [reflexivity|].
      assert (Hx : In x (List.filter (fun vr => vr_id vr =? id) rows))
        by (rewrite F; now left).
      apply filter_In in Hx as [Hx Hid]. apply Z.eqb_eq in Hid.
      exfalso. apply Hfresh. rewrite E, <- Hid. now apply in_map. }
    rewrite Hnone. auto.
  - destruct (IH Hrest) as [Hnone|(vr & Hone & Hin & Hid)]; [now left|].
    right. exists vr. auto.
Qed.

Lemma update_where_id_absent (id : uuid) f (rows : list validation_request) :
  List.filter (fun vr => vr_id vr =? id) rows = [] ->
  update_where_id id f rows = rows.
Proof.
  intros Hnone. unfold update_where_id.
  rewrite <- (List.map_id rows) at 2. apply List.map_ext_in. intros r Hr.
  destruct (vr_id r =? id) eqn:E; [|reflexivity].
  assert (Hin : In r (List.filter (fun vr => vr_id vr =? id) rows))
    by (apply filter_In; auto).
  rewrite Hnone in Hin. destruct Hin.
Qed.

Section Handler.
Variable now : timestamptz.

Abbreviation serve := (ValidationWebhook.serve now).

(** X25. The webhook turns no sender away: the signature check is a
    placeholder, so no request is answered with [Unauthorized], and every
    reply has status 200, 404 or 500. *)
Theorem webhook_accepts_every_sender (body : option payload)
    (rows : list validation_request) :
  snd (serve body rows) <> Unauthorized
  /\ In (status_code (snd (serve body rows))) [200; 404; 500].
Proof.
  unfold ValidationWebhook.serve, handle. cbn [validateTeamsWebhook negb].
  destruct body as [p|]; [|cbn; split; [discriminate|tauto]].
  destruct ((value p ≫= action) ≫= verb) as [v|]; [|cbn; split; [discriminate|tauto]].
  destruct (String.eqb v "submit_validation"); [|cbn; split; [discriminate|tauto]].
  destruct (value p ≫= data) as [s|]; [|cbn; split; [discriminate|tauto]].
  destruct (update_validation now p s rows) as [rows' [validation|]];
    cbn; split; discriminate || tauto.
Qed.

(** X26. With ids that are unique, the webhook writes exactly when it
    answers that the response was recorded: the body is then a
    [submit_validation] submission that names the id of a stored request,
    and the rows are those of the update by that id, which sets the status,
    the response time and the recorded response on the rows with that id,
    and sets the corrections column to the card's [corrections] unless the
    card has none, in which case the column keeps what it holds; with any
    other reply (not found, the plain [OK] for other activities, a server
    error) the rows are as before. *)
Theorem webhook_writes_only_when_recorded (body : option payload)
    (rows : list validation_request) :
  List.NoDup (List.map vr_id rows) ->
  match snd (serve body rows) with
  | Recorded =>
      exists p s id,
        body = Some p
        /\ (value p ≫= action) ≫= verb = Some "submit_validation"
        /\ value p ≫= data = Some s
        /\ validation_id s = Some id
        /\ In id (List.map vr_id rows)
        /\ fst (serve body rows)
           = update_where_id id
               (fun vr =>
                  record_response (Some (status_written (approval_status s))) now
                    (corrections_written (corrections s) vr)
                    (TeamsSubmission (approval_status s) (corrections s)
                       (responded_by p) now) vr) rows
  | _ => fst (serve body rows) = rows
  end.
Proof.
  intros Hpk. unfold ValidationWebhook.serve, handle.
  cbn [validateTeamsWebhook negb].
  destruct body as [p|]; [|reflexivity].
  destruct ((value p ≫= action) ≫= verb) as [v|] eqn:Hverb; [|reflexivity].
  destruct (String.eqb v "submit_validation") eqn:Hv; [|reflexivity].
  apply String.eqb_eq in Hv. subst v.
  destruct (value p ≫= data) as [s|] eqn:Hdata; [|reflexivity].
  unfold update_validation.
  destruct (validation_id s) as [id|] eqn:Hid; [|reflexivity].
  destruct (filter_by_id rows id Hpk) as [Hnone|(vr & Hone & Hin & Hvr)].
  - rewrite Hnone. cbn. now apply update_where_id_absent.
  - rewrite Hone. cbn. exists p, s, id. repeat split; auto.
    rewrite <- Hvr. now apply in_map.
Qed.

(** X27. The webhook neither adds, removes nor reorders requests; of each
    it keeps the id, proposal, entity, recipient, message id, sending time
    and expiry time, and it never writes the link to an entry. *)
Theorem webhook_keeps_identity_and_links (body : option payload)
    (rows : list validation_request) :
  Forall2 (fun r r' => same_request r r' /\ link_fields r' = link_fields r)
    rows (fst (serve body rows)).
Proof.
  assert (Hsame : Forall2 (fun r r' => same_request r r'
                                       /\ link_fields r' = link_fields r)
                    rows rows).
  { rewrite <- (List.map_id rows) at 2. apply Forall2_map_r.
    intros r _. repeat split. }
  unfold ValidationWebhook.serve, handle. cbn [validateTeamsWebhook negb].
  destruct body as [p|]; [|exact Hsame].
  destruct ((value p ≫= action) ≫= verb) as [v|]; [|exact Hsame].
  destruct (String.eqb v "submit_validation"); [|exact Hsame].
  destruct (value p ≫= data) as [s|]; [|exact Hsame].
  unfold update_validation.
  destruct (validation_id s) as [id|]; [|exact Hsame].
  cbv zeta.
  match goal with
  | |- Forall2 _ _ (fst (let (rows', r) := match ?v with _ => _ end in _)) =>
      destruct v
  end; cbn; unfold update_where_id; apply Forall2_map_r; intros r _;
    destruct (vr_id r =? id); repeat split.
Qed.

End Handler.

(** *** On the sample data *)
Import Samples.

Lemma webhook_writes_only_when_recorded_sample :
  exists p s id,
    Some card = Some p
    /\ (value p ≫= action) ≫= verb = Some "submit_validation"
    /\ value p ≫= data = Some s
    /\ validation_id s = Some id
    /\ In id (List.map vr_id [request_2])
    /\ fst (ValidationWebhook.serve 300 (Some card) [request_2])
       = update_where_id id
           (fun vr =>
              record_response (Some (status_written (approval_status s))) 300
                (corrections_written (corrections s) vr)
                (TeamsSubmission (approval_status s) (corrections s)
                   (responded_by p) 300) vr) [request_2].
Proof.
  apply (webhook_writes_only_when_recorded 300 (Some card) [request_2]).
  repeat constructor. simpl. tauto.
Defined.

End WebhookMore.

(** ** The view of open validation requests *)
Module ActiveViewFacts.
Import ListFacts SqlFacts Validation ResponseFacts.

Lemma expires_sooner_asym (y x : active_validation) :
  expires_sooner y x = true -> expires_sooner x y = false.
Proof.
  unfold expires_sooner.
  destruct (av_expires_at y) as [a|], (av_expires_at x) as [b|]; try congruence.
  intros H. apply Z.ltb_lt in H. apply Z.ltb_ge. lia.
Qed.

Lemma not_sooner_trans (x y z : active_validation) :
  expires_sooner y x = false -> expires_sooner z y = false ->
  expires_sooner z x = false.
Proof.
  unfold expires_sooner.
  destruct (av_expires_at x) as [a|], (av_expires_at y) as [b|],
           (av_expires_at z) as [c|]; try congruence.
  rewrite !Z.ltb_ge. lia.
Qed.

Lemma awaiting_response_iff (vr : validation_request) :
  awaiting_response vr = true
  <-> vr_validation_status vr = Some pending \/ vr_validation_status vr = Some sent.
Proof.
  unfold awaiting_response.
  destruct (vr_validation_status vr) as [[]|]; split; intros H;
    try reflexivity; try discriminate; auto;
    destruct H; discriminate.
Qed.

(** X28. The view [active_validations] lists a row for each pair of a
    request whose status is [pending] or [sent] and the proposal it belongs
    to, and nothing else; a row is reported as [expired] exactly when the
    request's expiry time is before the time of reading; of two rows the
    one listed first expires no later than the other, and a row without
    expiry time stands after every row with one. *)
Theorem active_validations_lists_open_requests_by_expiry (now : timestamptz)
    (rows : list validation_request) (proposals : list proposal) :
  (forall av, In av (active_validations now rows proposals) ->
     exists vr p,
       In vr rows /\ In p proposals /\ vr_proposal_id vr = Some (p_id p)
       /\ (vr_validation_status vr = Some pending
           \/ vr_validation_status vr = Some sent)
       /\ av_id av = vr_id vr
       /\ av_proposal_title av = p_proposal_title p
       /\ av_validation_status av = vr_validation_status vr
       /\ av_expires_at av = vr_expires_at vr
       /\ (av_actual_status av = "expired"
           <-> exists t, vr_expires_at vr = Some t /\ t < now))
  /\ (forall vr p,
        In vr rows -> In p proposals -> vr_proposal_id vr = Some (p_id p) ->
        vr_validation_status vr = Some pending
        \/ vr_validation_status vr = Some sent ->
        exists av, In av (active_validations now rows proposals)
                   /\ av_id av = vr_id vr
                   /\ av_proposal_title av = p_proposal_title p)
  /\ (forall (i j : nat) (a b : active_validation),
        (i < j)%nat ->
        nth_error (active_validations now rows proposals) i = Some a ->
        nth_error (active_validations now rows proposals) j = Some b ->
        match av_expires_at a, av_expires_at b with
        | Some ta, Some tb => ta <= tb
        | None, Some _ => False
        | _, None => True
        end).
Proof.
  split; [|split].
  - intros av Hin. unfold active_validations in Hin.
    apply order_by_In in Hin.
    apply in_flat_map in Hin as (vr & Hvr & Hin).
    apply in_flat_map in Hin as (p & Hp & Hin).
    destruct (vr_proposal_id vr) as [pid|] eqn:Hpid; [|destruct Hin].
    destruct ((pid =? p_id p) && awaiting_response vr) eqn:E; [|destruct Hin].
    apply andb_true_iff in E as [Hid Haw]. apply Z.eqb_eq in Hid. subst pid.
    destruct Hin as [<-|[]]. exists vr, p. cbn.
    repeat split; auto; try (now apply awaiting_response_iff);
      apply actual_status_expired.
  - intros vr p Hvr Hp Hpid Hopen.
    eexists. split.
    + unfold active_validations. apply order_by_In.
      apply in_flat_map. exists vr. split; [exact Hvr|].
      apply in_flat_map. exists p. split; [exact Hp|].
      rewrite Hpid, Z.eqb_refl.
      apply awaiting_response_iff in Hopen. rewrite Hopen. cbn. left. reflexivity.
    + cbn. auto.
  - assert (Hsorted : StronglySorted (fun a b => expires_sooner b a = false)
                        (active_validations now rows proposals)).
    { unfold active_validations.
      apply (order_by_sorted expires_sooner).
      + intros x y. apply expires_sooner_asym.
      + intros x y z. unfold Sql.not_behind. apply not_sooner_trans. }
    intros i j a b Hij Ha Hb.
    pose proof (StronglySorted_nth_error _ _ i j a b Hsorted Hij Ha Hb) as Horder.
    cbv beta in Horder. unfold expires_sooner in Horder.
    destruct (av_expires_at a) as [ta|], (av_expires_at b) as [tb|];
      try exact I; try discriminate.
    apply Z.ltb_ge in Horder. exact Horder.
Qed.

(** *** On the sample data *)
Import MoreSamples.

(** Requests that expire at 300, at 100 and never, stored in that order,
    read at time 200: the view lists them by expiry time, the one without
    expiry time last, and reports the one past its time as expired. *)
Example open_requests_by_expiry :
  List.map (fun av => (av_id av, av_expires_at av, av_actual_status av))
    (active_validations 200 open_requests [sample_proposal])
  = [(12, Some 100, "expired"); (11, Some 300, "active"); (13, None, "active")].
Proof. reflexivity. Qed.

End ActiveViewFacts.
